(** * git-pilot: changelists, shelves, gutter diff parsing and status detection

    A shallow embedding of the data-management core of the extension:

    - [FileChange], [Changelist], [ShelvedFile], [Shelf]   (src/models)
    - the [ChangelistStore] and [ShelveStore] classes
    - the diff parser of [GutterDecorationService]   (src/services/fileStatusService.ts)
    - the status detection of [FileStatusService]    (src/services/fileStatusService.ts)
    - the selection methods of [ChangeListManager] and of the changelist
      tree, and the manager's [refresh]   (src/views)

    Part I translates the code, Part II states and proves its properties.

    Conventions.  JavaScript strings are modelled as [string] (sequences of
    bytes); the modelled code only ever inspects ASCII characters.
    JavaScript numbers used as line numbers are modelled as [Z]; the model is
    exact as long as the numbers stay below 2^53.  A thrown [Error] is the
    [Throw] constructor of [result].  [new Date()] is an explicit [now]
    argument of the operation that reads the clock, and generated ids are
    arguments as well.  [console.log] is not modelled. *)

From Stdlib Require Import String Ascii List ZArith Lia Bool Arith PeanoNat.
From Stdlib Require Import DecimalString Sorted Permutation.
Import ListNotations.

Open Scope string_scope.
Open Scope list_scope.

(* ================================================================= *)
(** * Part I: the embedding *)

(** ** Results of operations that may throw *)

Inductive result (A : Type) : Type :=
| Ok (a : A)
| Throw (msg : string).

Arguments Ok {A} a.
Arguments Throw {A} msg.

Definition isOk {A : Type} (r : result A) : bool :=
  match r with Ok _ => true | Throw _ => false end.

(** ** Strings *)

Definition newline : ascii := ascii_of_nat 10.
Definition dquote : string := String (ascii_of_nat 34) EmptyString.

Definition isEmpty (s : string) : bool :=
  match s with EmptyString => true | String _ _ => false end.

(** [s.split('\n')]: never empty, one more piece than there are newlines. *)
Fixpoint splitLines (s : string) : list string :=
  match s with
  | EmptyString => [EmptyString]
  | String c s' =>
      if Ascii.eqb c newline then EmptyString :: splitLines s'
      else match splitLines s' with
           | l :: ls => String c l :: ls
           | [] => [String c EmptyString]
           end
  end.

(** [pieces.join(sep)] *)
Fixpoint join (sep : string) (pieces : list string) : string :=
  match pieces with
  | [] => EmptyString
  | [p] => p
  | p :: rest => p ++ sep ++ join sep rest
  end.

(** White space removed by [String.prototype.trim], restricted to ASCII. *)
Definition isWhitespace (c : ascii) : bool :=
  let n := nat_of_ascii c in
  ((9 <=? n)%nat && (n <=? 13)%nat) || (n =? 32)%nat.

Fixpoint trimStart (s : string) : string :=
  match s with
  | EmptyString => EmptyString
  | String c s' => if isWhitespace c then trimStart s' else s
  end.

Fixpoint trimEnd (s : string) : string :=
  match s with
  | EmptyString => EmptyString
  | String c s' =>
      let r := trimEnd s' in
      if isWhitespace c && isEmpty r then EmptyString else String c r
  end.

Definition trim (s : string) : string := trimEnd (trimStart s).

(** Template-literal rendering of a non-negative integer. *)
Definition natToString (n : nat) : string :=
  NilEmpty.string_of_uint (Nat.to_uint n).

(** [list.includes(x)] on strings *)
Definition includes (x : string) (l : list string) : bool :=
  existsb (String.eqb x) l.

(* ================================================================= *)
(** ** Insertion-ordered maps with string keys (JavaScript [Map])

    A JavaScript [Map] iterates in insertion order; [set] on an existing key
    keeps the key's position, [set] on a new key appends. *)

Module JsMap.

Section Ops.
Variable V : Type.

Definition t := list (string * V).

Fixpoint get (k : string) (m : t) : option V :=
  match m with
  | [] => None
  | (k', v) :: m' => if String.eqb k' k then Some v else get k m'
  end.

Definition has (k : string) (m : t) : bool :=
  match get k m with Some _ => true | None => false end.

Fixpoint set (k : string) (v : V) (m : t) : t :=
  match m with
  | [] => [(k, v)]
  | (k', v') :: m' =>
      if String.eqb k' k then (k', v) :: m' else (k', v') :: set k v m'
  end.

Definition delete (k : string) (m : t) : t :=
  filter (fun kv => negb (String.eqb (fst kv) k)) m.

Definition keys (m : t) : list string := map fst m.
Definition values (m : t) : list V := map snd m.
End Ops.

Arguments get {V} k m.
Arguments has {V} k m.
Arguments set {V} k v m.
Arguments delete {V} k m.
Arguments keys {V} m.
Arguments values {V} m.

End JsMap.

(* ================================================================= *)
(** ** FileChange (models/fileChange.ts) *)

Inductive FileChangeStatus : Type :=
| Modified | Added | Deleted | Renamed | Copied | Untracked | Conflicted.

Definition FileChangeStatus_eq_dec (a b : FileChangeStatus) : {a = b} + {a <> b}.
Proof. decide equality. Defined.

Module FileChange.

Record t : Type := make {
  path : string;
  relativePath : string;
  status : FileChangeStatus;
  isStaged : bool;
  originalPath : option string;
  isSelected : bool
}.

Definition setSelected (selected : bool) (f : t) : t :=
  make (path f) (relativePath f) (status f) (isStaged f)
       (originalPath f) selected.

Definition toggleSelection (f : t) : t := setSelected (negb (isSelected f)) f.
Definition select (f : t) : t := setSelected true f.
Definition deselect (f : t) : t := setSelected false f.

Definition stage (f : t) : t :=
  make (path f) (relativePath f) (status f) true (originalPath f) (isSelected f).
Definition unstage (f : t) : t :=
  make (path f) (relativePath f) (status f) false (originalPath f) (isSelected f).

Definition eq_dec (a b : t) : {a = b} + {a <> b}.
Proof.
  decide equality; try apply Bool.bool_dec; try apply string_dec;
    try apply FileChangeStatus_eq_dec.
  decide equality; apply string_dec.
Defined.

End FileChange.

(* ================================================================= *)
(** ** Changelist (models/changelist.ts) *)

Module Changelist.

Record t : Type := make {
  id : string;
  name : string;
  files : list FileChange.t;
  isDefault : bool;
  isActive : bool;
  description : option string;
  createdAt : Z;
  modifiedAt : Z
}.

(** [files.some(f => f.path === p)] *)
Definition hasPath (p : string) (fs : list FileChange.t) : bool :=
  existsb (fun f => String.eqb (FileChange.path f) p) fs.

Definition addFile (now : Z) (cl : t) (file : FileChange.t) : t :=
  if hasPath (FileChange.path file) (files cl) then cl
  else make (id cl) (name cl) (files cl ++ [file]) (isDefault cl)
            (isActive cl) (description cl) (createdAt cl) now.

Definition removeFile (now : Z) (cl : t) (filePath : string) : t :=
  let filteredFiles :=
    filter (fun f => negb (String.eqb (FileChange.path f) filePath)) (files cl) in
  if Nat.eqb (length filteredFiles) (length (files cl)) then cl
  else make (id cl) (name cl) filteredFiles (isDefault cl)
            (isActive cl) (description cl) (createdAt cl) now.

Definition rename (now : Z) (cl : t) (newName : string) : t :=
  if String.eqb (name cl) newName then cl
  else make (id cl) newName (files cl) (isDefault cl)
            (isActive cl) (description cl) (createdAt cl) now.

Definition setActive (now : Z) (cl : t) (active : bool) : t :=
  if Bool.eqb (isActive cl) active then cl
  else make (id cl) (name cl) (files cl) (isDefault cl)
            active (description cl) (createdAt cl) now.

Definition selectAllFiles (now : Z) (cl : t) : t :=
  make (id cl) (name cl) (map FileChange.select (files cl)) (isDefault cl)
       (isActive cl) (description cl) (createdAt cl) now.

Definition deselectAllFiles (now : Z) (cl : t) : t :=
  make (id cl) (name cl) (map FileChange.deselect (files cl)) (isDefault cl)
       (isActive cl) (description cl) (createdAt cl) now.

Definition fileCount (cl : t) : nat := length (files cl).
Definition hasFiles (cl : t) : bool := Nat.ltb 0 (length (files cl)).

Definition createDefault (now : Z) : t :=
  make "default" "Default Changelist" [] true true
       (Some "Default changelist for organizing changes") now now.

Definition updateDescription (now : Z) (cl : t) (newDescription : option string)
  : t :=
  if match description cl, newDescription with
     | Some a, Some b => String.eqb a b
     | None, None => true
     | _, _ => false
     end
  then cl
  else make (id cl) (name cl) (files cl) (isDefault cl)
            (isActive cl) newDescription (createdAt cl) now.

(** [files.findIndex(pred)]; [None] stands for -1. *)
Fixpoint findIndex (pred : FileChange.t -> bool) (fs : list FileChange.t)
  : option nat :=
  match fs with
  | [] => None
  | f :: rest =>
      if pred f then Some 0
      else match findIndex pred rest with
           | Some i => Some (S i)
           | None => None
           end
  end.

(** [copy[i] = v] on a copy of the list, for an index inside the list. *)
Fixpoint setAt (i : nat) (v : FileChange.t) (fs : list FileChange.t)
  : list FileChange.t :=
  match fs with
  | [] => []
  | f :: rest =>
      match i with
      | 0 => v :: rest
      | S i' => f :: setAt i' v rest
      end
  end.

Definition updateFile (now : Z) (cl : t) (filePath : string)
    (updateFn : FileChange.t -> FileChange.t) : t :=
  match findIndex (fun f => String.eqb (FileChange.path f) filePath) (files cl) with
  | None => cl
  | Some fileIndex =>
      let updatedFiles :=
        match nth_error (files cl) fileIndex with
        | Some file => setAt fileIndex (updateFn file) (files cl)
        | None => files cl
        end in
      make (id cl) (name cl) updatedFiles (isDefault cl)
           (isActive cl) (description cl) (createdAt cl) now
  end.

Definition selectedFiles (cl : t) : list FileChange.t :=
  filter FileChange.isSelected (files cl).
Definition getSelectedFiles (cl : t) : list FileChange.t := selectedFiles cl.
Definition selectedFileCount (cl : t) : nat := length (selectedFiles cl).
Definition hasSelectedFiles (cl : t) : bool := Nat.ltb 0 (selectedFileCount cl).

Definition getDisplayName (cl : t) : string :=
  let count := fileCount cl in
  let fileText := if Nat.eqb count 1 then "file" else "files" in
  name cl ++ " (" ++ natToString count ++ " " ++ fileText ++ ")".

End Changelist.

(* ================================================================= *)
(** ** ChangelistStore (class [ChangelistStore])

    The store is the map of changelists, the active-changelist pointer and
    the number of change notifications fired so far.  Generated ids
    ([Changelist.generateId], built from the clock and a random suffix) are
    an argument of [createChangelist]. *)

Module ChangelistStore.

Record t : Type := make {
  changelists : JsMap.t Changelist.t;
  activeChangelistId : string;
  changeEvents : nat
}.

(** The constructor. *)
Definition create (now : Z) : t :=
  make (JsMap.set "default" (Changelist.createDefault now) []) "default" 0.

Definition fire (st : t) : t :=
  make (changelists st) (activeChangelistId st) (S (changeEvents st)).

Definition createChangelist (freshId : string) (now : Z)
    (name : string) (description : option string) (st : t)
  : result (Changelist.t * t) :=
  if isEmpty (trim name) then Throw "Changelist name cannot be empty"
  else if existsb (fun cl => String.eqb (Changelist.name cl) (trim name))
                  (JsMap.values (changelists st))
  then Throw ("Changelist with name " ++ dquote ++ name ++ dquote ++ " already exists")
  else
    let changelist :=
      Changelist.make freshId (trim name) [] false false
                      (option_map trim description) now now in
    Ok (changelist,
        fire (make (JsMap.set freshId changelist (changelists st))
                   (activeChangelistId st) (changeEvents st))).

Definition deleteChangelist (now : Z) (id : string) (st : t) : result t :=
  if String.eqb id "default" then Throw "Cannot delete default changelist"
  else
    match JsMap.get id (changelists st) with
    | None => Throw ("Changelist not found: " ++ id)
    | Some changelist =>
        let moved : result (JsMap.t Changelist.t) :=
          if Changelist.hasFiles changelist then
            match JsMap.get "default" (changelists st) with
            | None => Throw "TypeError: Cannot read properties of undefined"
            | Some defaultChangelist =>
                let updatedDefault :=
                  fold_left (Changelist.addFile now)
                            (Changelist.files changelist) defaultChangelist in
                Ok (JsMap.set "default" updatedDefault (changelists st))
            end
          else Ok (changelists st) in
        match moved with
        | Throw m => Throw m
        | Ok m =>
            let active :=
              if String.eqb (activeChangelistId st) id then "default"
              else activeChangelistId st in
            Ok (fire (make (JsMap.delete id m) active (changeEvents st)))
        end
    end.

Definition renameChangelist (now : Z) (id newName : string) (st : t) : result t :=
  if isEmpty (trim newName) then Throw "Changelist name cannot be empty"
  else
    match JsMap.get id (changelists st) with
    | None => Throw ("Changelist not found: " ++ id)
    | Some changelist =>
        if existsb (fun kv => negb (String.eqb (fst kv) id)
                              && String.eqb (Changelist.name (snd kv)) (trim newName))
                   (changelists st)
        then Throw ("Changelist with name " ++ dquote ++ newName ++ dquote
                    ++ " already exists")
        else
          let renamedChangelist := Changelist.rename now changelist (trim newName) in
          Ok (fire (make (JsMap.set id renamedChangelist (changelists st))
                         (activeChangelistId st) (changeEvents st)))
    end.

Definition moveFiles (now : Z) (filePaths : list string) (fromId toId : string)
    (st : t) : result t :=
  if String.eqb fromId toId then Ok st
  else
    match JsMap.get fromId (changelists st), JsMap.get toId (changelists st) with
    | None, _ => Throw ("Source changelist not found: " ++ fromId)
    | Some _, None => Throw ("Target changelist not found: " ++ toId)
    | Some fromChangelist, Some toChangelist =>
        let filesToMove :=
          filter (fun f => includes (FileChange.path f) filePaths)
                 (Changelist.files fromChangelist) in
        if Nat.eqb (length filesToMove) 0 then Ok st
        else
          let updatedFrom :=
            fold_left (fun cl f => Changelist.removeFile now cl (FileChange.path f))
                      filesToMove fromChangelist in
          let updatedTo :=
            fold_left (Changelist.addFile now) filesToMove toChangelist in
          Ok (fire (make (JsMap.set toId updatedTo
                            (JsMap.set fromId updatedFrom (changelists st)))
                         (activeChangelistId st) (changeEvents st)))
    end.

Definition moveFileBetweenChangelists (now : Z) (file : FileChange.t)
    (fromId toId : string) (st : t) : result t :=
  moveFiles now [FileChange.path file] fromId toId st.

(** [updated !== changelist] holds exactly when [addFile] built a new object. *)
Definition addFileToChangelist (now : Z) (file : FileChange.t)
    (changelistId : string) (st : t) : result t :=
  match JsMap.get changelistId (changelists st) with
  | None => Throw ("Changelist not found: " ++ changelistId)
  | Some changelist =>
      if Changelist.hasPath (FileChange.path file) (Changelist.files changelist)
      then Ok st
      else Ok (fire (make (JsMap.set changelistId
                             (Changelist.addFile now changelist file)
                             (changelists st))
                          (activeChangelistId st) (changeEvents st)))
  end.

(** [updated !== changelist] holds exactly when [removeFile] dropped a file. *)
Definition removeFileFromChangelist (now : Z) (file : FileChange.t)
    (changelistId : string) (st : t) : result t :=
  match JsMap.get changelistId (changelists st) with
  | None => Throw ("Changelist not found: " ++ changelistId)
  | Some changelist =>
      let updated := Changelist.removeFile now changelist (FileChange.path file) in
      if Nat.eqb (length (Changelist.files updated))
                 (length (Changelist.files changelist))
      then Ok st
      else Ok (fire (make (JsMap.set changelistId updated (changelists st))
                          (activeChangelistId st) (changeEvents st)))
  end.

(** One iteration of the loop of [setActiveChangelist]. *)
Definition setActiveStep (now : Z) (id : string)
    (m : JsMap.t Changelist.t) (entry : string * Changelist.t)
  : JsMap.t Changelist.t :=
  let (changelistId, changelist) := entry in
  let isActive := String.eqb changelistId id in
  if Bool.eqb (Changelist.isActive changelist) isActive then m
  else JsMap.set changelistId (Changelist.setActive now changelist isActive) m.

Definition setActiveChangelist (now : Z) (id : string) (st : t) : result t :=
  if negb (JsMap.has id (changelists st))
  then Throw ("Changelist not found: " ++ id)
  else
    Ok (fire (make (fold_left (setActiveStep now id) (changelists st) (changelists st))
                   id (changeEvents st))).

Definition getAllChangelists (st : t) : list Changelist.t :=
  JsMap.values (changelists st).

Definition getChangelist (id : string) (st : t) : option Changelist.t :=
  JsMap.get id (changelists st).

Definition getDefaultChangelist (st : t) : option Changelist.t :=
  JsMap.get "default" (changelists st).

Definition getActiveChangelist (st : t) : option Changelist.t :=
  match JsMap.get (activeChangelistId st) (changelists st) with
  | Some cl => Some cl
  | None => JsMap.get "default" (changelists st)
  end.

Definition hasChangelist (id : string) (st : t) : bool :=
  JsMap.has id (changelists st).

(** Store operations as data, to speak about sequences of calls. *)
Inductive Op : Type :=
| CreateChangelist (freshId name : string) (description : option string)
| DeleteChangelist (id : string)
| RenameChangelist (id newName : string)
| MoveFiles (filePaths : list string) (fromId toId : string)
| AddFileToChangelist (file : FileChange.t) (changelistId : string)
| RemoveFileFromChangelist (file : FileChange.t) (changelistId : string)
| SetActiveChangelist (id : string).

Definition call (now : Z) (op : Op) (st : t) : result t :=
  match op with
  | CreateChangelist freshId name description =>
      match createChangelist freshId now name description st with
      | Ok (_, st') => Ok st'
      | Throw m => Throw m
      end
  | DeleteChangelist id => deleteChangelist now id st
  | RenameChangelist id newName => renameChangelist now id newName st
  | MoveFiles filePaths fromId toId => moveFiles now filePaths fromId toId st
  | AddFileToChangelist file id => addFileToChangelist now file id st
  | RemoveFileFromChangelist file id => removeFileFromChangelist now file id st
  | SetActiveChangelist id => setActiveChangelist now id st
  end.

(** A call made at clock reading [fst c].  A call that throws leaves the
    store as it was: every [throw] of the class precedes the first mutation
    of the operation. *)
Definition step (st : t) (c : Z * Op) : t :=
  match call (fst c) (snd c) st with
  | Ok st' => st'
  | Throw _ => st
  end.

(** A sequence of calls. *)
Definition run (calls : list (Z * Op)) (st : t) : t := fold_left step calls st.

(** Number of changelists returned by [getAllChangelists] whose [isActive]
    flag is set. *)
Definition activeCount (st : t) : nat :=
  length (filter Changelist.isActive (getAllChangelists st)).

(** [updateChangelist]: the updater answers [None] when it hands back the
    very changelist it was given ([updated === changelist]) and [Some] of the
    changelist it built otherwise. *)
Definition updateChangelist (id : string)
    (updater : Changelist.t -> option Changelist.t) (st : t) : result t :=
  match JsMap.get id (changelists st) with
  | None => Throw ("Changelist not found: " ++ id)
  | Some changelist =>
      match updater changelist with
      | None => Ok st
      | Some updated =>
          Ok (fire (make (JsMap.set id updated (changelists st))
                         (activeChangelistId st) (changeEvents st)))
      end
  end.

Definition changelistCount (st : t) : nat := length (changelists st).

End ChangelistStore.

(* ================================================================= *)
(** ** ShelvedFile (models/shelvedFile.ts) *)

Module ShelvedFile.

Record t : Type := make {
  path : string;
  relativePath : string;
  originalContent : string;
  shelvedContent : string;
  status : FileChangeStatus;
  encoding : string
}.

Definition canRestore (file : t) (currentContent : string) : bool :=
  String.eqb (originalContent file) currentContent.

(** [lines[i] || ''] *)
Definition lineAt (lines : list string) (i : nat) : string :=
  nth i lines EmptyString.

(** Body of the loop of [detectConflicts] for index [i]. *)
Definition conflictStep (originalLines currentLines shelvedLines : list string)
    (conflicts : list string) (i : nat) : list string :=
  let originalLine := lineAt originalLines i in
  let currentLine := lineAt currentLines i in
  let shelvedLine := lineAt shelvedLines i in
  if negb (String.eqb originalLine currentLine)
     && negb (String.eqb originalLine shelvedLine)
  then conflicts
       ++ [("Line " ++ natToString (i + 1) ++ ": conflicting changes")%string]
  else conflicts.

Definition detectConflicts (file : t) (currentContent : string) : list string :=
  if canRestore file currentContent then []
  else
    let originalLines := splitLines (originalContent file) in
    let currentLines := splitLines currentContent in
    let shelvedLines := splitLines (shelvedContent file) in
    let maxLines :=
      Nat.max (Nat.max (length originalLines) (length currentLines))
              (length shelvedLines) in
    let conflicts :=
      fold_left (conflictStep originalLines currentLines shelvedLines)
                (seq 0 maxLines) [] in
    if Nat.eqb (length conflicts) 0
       && negb (Nat.eqb (length originalLines) (length currentLines))
    then conflicts ++ ["File length changed since shelving"]
    else conflicts.

Definition getPreviewContent (file : t) : string := shelvedContent file.

(** Body of the loop of [getDiffContent] for index [i]. *)
Definition diffStep (originalLines shelvedLines : list string)
    (diffLines : list string) (i : nat) : list string :=
  let originalLine := lineAt originalLines i in
  let shelvedLine := lineAt shelvedLines i in
  if negb (String.eqb originalLine shelvedLine) then
    let removed :=
      if Nat.ltb i (length originalLines)
      then diffLines ++ [("-" ++ originalLine)%string]
      else diffLines in
    if Nat.ltb i (length shelvedLines)
    then removed ++ [("+" ++ shelvedLine)%string]
    else removed
  else diffLines ++ [(" " ++ originalLine)%string].

Definition diffHeader (originalLines shelvedLines : list string) : string :=
  "@@ -1," ++ natToString (length originalLines)
  ++ " +1," ++ natToString (length shelvedLines) ++ " @@".

Definition getDiffContent (file : t) : string :=
  let originalLines := splitLines (originalContent file) in
  let shelvedLines := splitLines (shelvedContent file) in
  let maxLines := Nat.max (length originalLines) (length shelvedLines) in
  let diffLines :=
    fold_left (diffStep originalLines shelvedLines) (seq 0 maxLines)
              [diffHeader originalLines shelvedLines] in
  join (String newline EmptyString) diffLines.

Definition generateDiff (file : t) : string :=
  "--- a/" ++ relativePath file ++ String newline EmptyString
  ++ "+++ b/" ++ relativePath file ++ String newline EmptyString
  ++ getDiffContent file.

End ShelvedFile.

(* ================================================================= *)
(** ** Shelf (models/shelf.ts) *)

Module Shelf.

Record t : Type := make {
  id : string;
  name : string;
  files : list ShelvedFile.t;
  timestamp : Z;
  branch : string;
  parentCommit : string;
  changelistId : option string;
  description : option string
}.

Definition addFile (shelf : t) (file : ShelvedFile.t) : t :=
  make (id shelf) (name shelf) (files shelf ++ [file]) (timestamp shelf)
       (branch shelf) (parentCommit shelf) (changelistId shelf)
       (description shelf).

Definition removeFile (shelf : t) (filePath : string) : t :=
  make (id shelf) (name shelf)
       (filter (fun f => negb (String.eqb (ShelvedFile.path f) filePath))
               (files shelf))
       (timestamp shelf) (branch shelf) (parentCommit shelf)
       (changelistId shelf) (description shelf).

Definition rename (shelf : t) (newName : string) : t :=
  make (id shelf) newName (files shelf) (timestamp shelf)
       (branch shelf) (parentCommit shelf) (changelistId shelf)
       (description shelf).

Definition updateDescription (shelf : t) (newDescription : string) : t :=
  make (id shelf) (name shelf) (files shelf) (timestamp shelf)
       (branch shelf) (parentCommit shelf) (changelistId shelf)
       (Some newDescription).

Definition generatePatch (shelf : t) : string :=
  join (String newline EmptyString) (map ShelvedFile.generateDiff (files shelf)).

Definition fileCount (shelf : t) : nat := length (files shelf).
Definition hasFiles (shelf : t) : bool := Nat.ltb 0 (length (files shelf)).

End Shelf.

(* ================================================================= *)
(** ** ShelveStore (class [ShelveStore])

    The store works against the file system and the extension's workspace
    storage.  Both are part of the [World] the asynchronous methods run in;
    the methods are sequences of awaited steps, modelled in a state-and-error
    monad in which a thrown error keeps the effects that happened before it.
    The file system is a map from paths to contents: reading a missing file
    throws, writing always succeeds and creating directories has nothing to
    do. *)

Module ShelveStore.

Definition FileSystem := JsMap.t string.

Record World : Type := mkWorld {
  shelves : JsMap.t Shelf.t;
  disk : FileSystem;
  storage : list Shelf.t;
  changeEvents : nat
}.

Definition io (A : Type) : Type := World -> result A * World.

Definition ret {A : Type} (a : A) : io A := fun w => (Ok a, w).
Definition throw {A : Type} (msg : string) : io A := fun w => (Throw msg, w).

Definition bind {A B : Type} (c : io A) (k : A -> io B) : io B :=
  fun w =>
    match c w with
    | (Ok a, w') => k a w'
    | (Throw m, w') => (Throw m, w')
    end.

(** [try { body } catch (error) { handler }] *)
Definition tryCatch {A : Type} (body : io A) (handler : string -> io A) : io A :=
  fun w =>
    match body w with
    | (Ok a, w') => (Ok a, w')
    | (Throw m, w') => handler m w'
    end.

Notation "x <- c1 ;; c2" := (bind c1 (fun x => c2))
  (at level 61, c1 at next level, right associativity).
Notation "c1 ;; c2" := (bind c1 (fun _ => c2))
  (at level 61, right associativity).

(** [fs.readFile(path, 'utf8')] *)
Definition readFile (p : string) : io string :=
  fun w =>
    match JsMap.get p (disk w) with
    | Some content => (Ok content, w)
    | None => (Throw ("ENOENT: no such file or directory, open " ++ p), w)
    end.

(** [fs.writeFile(path, content, 'utf8')] *)
Definition writeFile (p content : string) : io unit :=
  fun w =>
    (Ok tt, mkWorld (shelves w) (JsMap.set p content (disk w))
                    (storage w) (changeEvents w)).

(** [fs.mkdir(path.dirname(p), { recursive: true })] *)
Definition mkdirParent (p : string) : io unit := ret tt.

Definition save : io unit :=
  fun w =>
    (Ok tt, mkWorld (shelves w) (disk w) (JsMap.values (shelves w))
                    (changeEvents w)).

Definition fire : io unit :=
  fun w =>
    (Ok tt, mkWorld (shelves w) (disk w) (storage w) (S (changeEvents w))).

Definition getShelf (shelfId : string) : io (option Shelf.t) :=
  fun w => (Ok (JsMap.get shelfId (shelves w)), w).

Definition setShelf (shelf : Shelf.t) : io unit :=
  fun w =>
    (Ok tt, mkWorld (JsMap.set (Shelf.id shelf) shelf (shelves w)) (disk w)
                    (storage w) (changeEvents w)).

Definition removeShelf (shelfId : string) : io unit :=
  fun w =>
    (Ok tt, mkWorld (JsMap.delete shelfId (shelves w)) (disk w)
                    (storage w) (changeEvents w)).

(** [for (const x of xs) { await body(x) }] *)
Fixpoint forEach {A : Type} (xs : list A) (body : A -> io unit) : io unit :=
  match xs with
  | [] => ret tt
  | x :: rest => body x ;; forEach rest body
  end.

Record UnshelveOptions : Type := mkUnshelveOptions {
  keepShelf : option bool;
  forceMerge : option bool;
  selectedFiles : option (list string)
}.

(** Truthiness of an optional boolean option field. *)
Definition truthy (o : option bool) : bool :=
  match o with Some true => true | _ => false end.

Definition defaultOptions : UnshelveOptions := mkUnshelveOptions None None None.

Record ConflictDetails : Type := mkConflictDetails {
  filePath : string;
  conflicts : list string;
  canResolve : bool
}.

Record ConflictReport : Type := mkConflictReport {
  hasConflicts : bool;
  conflictingFiles : list string;
  canAutoMerge : bool;
  details : list ConflictDetails
}.

(** The reading of [getOriginalContent]: the current file, or the empty
    string when it cannot be read. *)
Definition getOriginalContent (filePath : string) : io string :=
  tryCatch (readFile filePath) (fun _ => ret EmptyString).

Definition createShelvedFile (file : FileChange.t) : io ShelvedFile.t :=
  currentContent <- readFile (FileChange.path file) ;;
  originalContent <- getOriginalContent (FileChange.path file) ;;
  ret (ShelvedFile.make (FileChange.path file) (FileChange.relativePath file)
                        originalContent currentContent
                        (FileChange.status file) "utf8").

(** [createShelvedFile] where the file system may have been changed from
    outside between the two awaited reads: the first read sees the world's
    disk, the second sees [diskAtSecondRead]. *)
Definition createShelvedFileInterleaved (diskAtSecondRead : FileSystem)
    (file : FileChange.t) : io ShelvedFile.t :=
  currentContent <- readFile (FileChange.path file) ;;
  originalContent <-
    (fun w =>
       let w2 := mkWorld (shelves w) diskAtSecondRead (storage w) (changeEvents w) in
       getOriginalContent (FileChange.path file) w2) ;;
  ret (ShelvedFile.make (FileChange.path file) (FileChange.relativePath file)
                        originalContent currentContent
                        (FileChange.status file) "utf8").

Fixpoint mapM {A B : Type} (f : A -> io B) (xs : list A) : io (list B) :=
  match xs with
  | [] => ret []
  | x :: rest => y <- f x ;; ys <- mapM f rest ;; ret (y :: ys)
  end.

Definition removeFilesFromWorkspace (files : list FileChange.t) : io unit :=
  forEach files (fun file =>
    tryCatch (writeFile (FileChange.path file) EmptyString) (fun _ => ret tt)).

(** [hasWorkspaceFolder] tells whether a workspace folder is open, [freshId]
    is the id produced by [Shelf.generateId], [now] the clock reading. *)
Definition createShelf (hasWorkspaceFolder : bool) (freshId : string) (now : Z)
    (name : string) (files : list FileChange.t)
    (removeFromWorkspace : bool) (description : option string) : io Shelf.t :=
  if negb hasWorkspaceFolder then throw "No workspace folder found"
  else if Nat.eqb (length files) 0 then throw "No files selected for shelving"
  else
    shelvedFiles <- mapM createShelvedFile files ;;
    let shelf := Shelf.make freshId name shelvedFiles now "main" "HEAD"
                            None description in
    setShelf shelf ;;
    save ;;
    (if removeFromWorkspace then removeFilesFromWorkspace files else ret tt) ;;
    fire ;;
    ret shelf.

(** Body of the loop of [previewUnshelve]. *)
Definition previewStep (acc : list string * list ConflictDetails)
    (file : ShelvedFile.t) : io (list string * list ConflictDetails) :=
  let (conflictingFiles, details) := acc in
  tryCatch
    (currentContent <- readFile (ShelvedFile.path file) ;;
     let conflicts := ShelvedFile.detectConflicts file currentContent in
     if Nat.ltb 0 (length conflicts)
     then ret (conflictingFiles ++ [ShelvedFile.relativePath file],
               details ++ [mkConflictDetails (ShelvedFile.relativePath file)
                             conflicts (Nat.eqb (length conflicts) 1)])
     else ret (conflictingFiles, details))
    (fun _ =>
       ret (conflictingFiles,
            details ++ [mkConflictDetails (ShelvedFile.relativePath file)
                          ["File does not exist in workspace"] true])).

Fixpoint foldM {A B : Type} (f : B -> A -> io B) (xs : list A) (b : B) : io B :=
  match xs with
  | [] => ret b
  | x :: rest => b' <- f b x ;; foldM f rest b'
  end.

Definition previewUnshelve (shelfId : string) : io ConflictReport :=
  found <- getShelf shelfId ;;
  match found with
  | None => throw "Shelf not found"
  | Some shelf =>
      acc <- foldM previewStep (Shelf.files shelf) ([], []) ;;
      let (conflictingFiles, details) := acc in
      ret (mkConflictReport (Nat.ltb 0 (length conflictingFiles))
                            conflictingFiles
                            (forallb canResolve details)
                            details)
  end.

Definition restoreFile (file : ShelvedFile.t) (forceMerge : bool) : io unit :=
  tryCatch
    (if forceMerge
     then writeFile (ShelvedFile.path file) (ShelvedFile.shelvedContent file)
     else
       currentContent <- readFile (ShelvedFile.path file) ;;
       if ShelvedFile.canRestore file currentContent
       then writeFile (ShelvedFile.path file) (ShelvedFile.shelvedContent file)
       else throw ("Cannot restore " ++ ShelvedFile.relativePath file
                   ++ ": file has conflicts"))
    (fun _ =>
       mkdirParent (ShelvedFile.path file) ;;
       writeFile (ShelvedFile.path file) (ShelvedFile.shelvedContent file)).

Definition unshelve (shelfId : string) (options : UnshelveOptions) : io unit :=
  found <- getShelf shelfId ;;
  match found with
  | None => throw "Shelf not found"
  | Some shelf =>
      report <- previewUnshelve shelfId ;;
      if hasConflicts report && negb (truthy (forceMerge options))
      then throw ("Cannot unshelve: conflicts in "
                  ++ join ", " (conflictingFiles report))
      else
        let filesToRestore :=
          match selectedFiles options with
          | Some selected =>
              filter (fun f => includes (ShelvedFile.path f) selected)
                     (Shelf.files shelf)
          | None => Shelf.files shelf
          end in
        forEach filesToRestore
                (fun file => restoreFile file (truthy (forceMerge options))) ;;
        (if negb (truthy (keepShelf options))
         then removeShelf shelfId ;; save
         else ret tt) ;;
        fire
  end.

Definition partialUnshelve (shelfId : string) (filePaths : list string) : io unit :=
  unshelve shelfId (mkUnshelveOptions (Some true) None (Some filePaths)).

Definition hasShelf (shelfId : string) : io bool :=
  fun w => (Ok (JsMap.has shelfId (shelves w)), w).

Definition deleteShelf (shelfId : string) : io unit :=
  present <- hasShelf shelfId ;;
  if negb present then throw "Shelf not found"
  else removeShelf shelfId ;; save ;; fire.

(** [this.shelves.set(shelfId, shelf)] *)
Definition putShelf (shelfId : string) (shelf : Shelf.t) : io unit :=
  fun w =>
    (Ok tt, mkWorld (JsMap.set shelfId shelf (shelves w)) (disk w)
                    (storage w) (changeEvents w)).

Definition renameShelf (shelfId newName : string) : io unit :=
  found <- getShelf shelfId ;;
  match found with
  | None => throw "Shelf not found"
  | Some shelf =>
      putShelf shelfId (Shelf.rename shelf newName) ;; save ;; fire
  end.

Definition updateShelfDescription (shelfId description : string) : io unit :=
  found <- getShelf shelfId ;;
  match found with
  | None => throw "Shelf not found"
  | Some shelf =>
      putShelf shelfId (Shelf.updateDescription shelf description) ;; save ;; fire
  end.

Definition exportShelf (shelfId : string) : io string :=
  found <- getShelf shelfId ;;
  match found with
  | None => throw "Shelf not found"
  | Some shelf => ret (Shelf.generatePatch shelf)
  end.

(** [freshId] is the id produced by [Shelf.generateId], [now] the clock. *)
Definition importShelf (freshId : string) (now : Z)
    (patchContent name : string) : io Shelf.t :=
  let shelf := Shelf.make freshId name [] now "imported" "unknown" None
                          (Some "Imported from patch") in
  setShelf shelf ;; save ;; fire ;; ret shelf.

(** [array.sort((a, b) => b.timestamp - a.timestamp)]: a stable sort, latest
    first.  [insertByTimestamp] puts a shelf in front of the first shelf that
    is not later than it. *)
Fixpoint insertByTimestamp (shelf : Shelf.t) (sorted : list Shelf.t)
  : list Shelf.t :=
  match sorted with
  | [] => [shelf]
  | other :: rest =>
      if Z.leb (Shelf.timestamp other) (Shelf.timestamp shelf)
      then shelf :: other :: rest
      else other :: insertByTimestamp shelf rest
  end.

Definition sortLatestFirst (all : list Shelf.t) : list Shelf.t :=
  fold_right insertByTimestamp [] all.

Definition getAllShelves (w : World) : list Shelf.t :=
  sortLatestFirst (JsMap.values (shelves w)).

Definition getShelvesByChangelist (changelistId : string) (w : World)
  : list Shelf.t :=
  filter (fun shelf =>
            match Shelf.changelistId shelf with
            | Some c => String.eqb c changelistId
            | None => false
            end)
         (getAllShelves w).

Definition createShelfFromChangelist (hasWorkspaceFolder : bool)
    (freshId : string) (now : Z) (name : string) (changelist : Changelist.t)
    (removeFromWorkspace : bool) (description : option string) : io Shelf.t :=
  let described :=
    match description with
    | Some d => if isEmpty d
                then ("Shelved from changelist: " ++ Changelist.name changelist)%string
                else d
    | None => ("Shelved from changelist: " ++ Changelist.name changelist)%string
    end in
  shelf <- createShelf hasWorkspaceFolder freshId now name
             (Changelist.files changelist) removeFromWorkspace (Some described) ;;
  let updatedShelf :=
    Shelf.make (Shelf.id shelf) (Shelf.name shelf) (Shelf.files shelf)
               (Shelf.timestamp shelf) (Shelf.branch shelf)
               (Shelf.parentCommit shelf) (Some (Changelist.id changelist))
               (Shelf.description shelf) in
  putShelf (Shelf.id shelf) updatedShelf ;; save ;; fire ;; ret updatedShelf.

End ShelveStore.

(* ================================================================= *)
(** ** The gutter diff parser (GutterDecorationService, services/fileStatusService.ts) *)

Module GutterDecorationService.

Local Open Scope Z_scope.

Inductive ChangeType : Type := added | modified | deleted.

Definition ChangeType_eqb (a b : ChangeType) : bool :=
  match a, b with
  | added, added | modified, modified | deleted, deleted => true
  | _, _ => false
  end.

Record LineChange : Type := mkLineChange {
  type : ChangeType;
  startLine : Z;
  endLine : Z
}.

Definition backslash : string := String (ascii_of_nat 92) EmptyString.

(** [\d] *)
Definition isDigit (c : ascii) : bool :=
  let n := nat_of_ascii c in ((48 <=? n)%nat && (n <=? 57)%nat).

(** The regular expression of the hunk header is matched the way the
    engine does it, by backtracking: a matcher hands what follows each of
    its candidate matches to the continuation [k], most preferred candidate
    first, and the first success wins. *)
Definition orElse {A : Type} (a b : option A) : option A :=
  match a with Some x => Some x | None => b end.

(** A literal. *)
Fixpoint lit {A : Type} (l s : string) (k : string -> option A) : option A :=
  match l with
  | EmptyString => k s
  | String a l' =>
      match s with
      | String b s' => if Ascii.eqb a b then lit l' s' k else None
      | EmptyString => None
      end
  end.

(** [\d*], greedy: one more digit when there is one, else stop. *)
Fixpoint digitsStar {A : Type} (s : string) (k : string -> option A) : option A :=
  match s with
  | String c s' => if isDigit c then orElse (digitsStar s' k) (k s) else k s
  | EmptyString => k s
  end.

(** [\d+] *)
Definition digitsPlus {A : Type} (s : string) (k : string -> option A) : option A :=
  match s with
  | String c s' => if isDigit c then digitsStar s' k else None
  | EmptyString => None
  end.

(** [,?], greedy *)
Definition optionalComma {A : Type} (s : string) (k : string -> option A)
  : option A :=
  match s with
  | String c s' =>
      if Ascii.eqb c (ascii_of_nat 44) then orElse (k s') (k s) else k s
  | EmptyString => k s
  end.

(** The text matched between [s] and its suffix [rest]. *)
Definition consumed (s rest : string) : string :=
  substring 0 (String.length s - String.length rest) s.

(** [/@@ -\d+,?\d* \+(\d+),?\d* @@/] matched at the very start of [s]; the
    result is capture group 1. *)
Definition matchHunkAt (s : string) : option string :=
  lit "@@ -" s (fun s1 =>
  digitsPlus s1 (fun s2 =>
  optionalComma s2 (fun s3 =>
  digitsStar s3 (fun s4 =>
  lit " +" s4 (fun s5 =>
  digitsPlus s5 (fun s6 =>
  optionalComma s6 (fun s7 =>
  digitsStar s7 (fun s8 =>
  lit " @@" s8 (fun _ => Some (consumed s5 s6)))))))))).

(** [line.match(/.../)]: the leftmost position where the expression matches. *)
Fixpoint matchHunk (line : string) : option string :=
  match matchHunkAt line with
  | Some group => Some group
  | None =>
      match line with
      | EmptyString => None
      | String _ rest => matchHunk rest
      end
  end.

Fixpoint parseDigits (acc : Z) (digits : string) : Z :=
  match digits with
  | EmptyString => acc
  | String c rest =>
      parseDigits (10 * acc + Z.of_nat (nat_of_ascii c - 48)) rest
  end.

(** [parseInt] on a non-empty string of decimal digits. *)
Definition parseInt (digits : string) : Z := parseDigits 0 digits.

(** [addOrExtendChange]: look at the last element of [changes]; extend it in
    place when it has the same type and ends on the line just before
    [line], push a new one-line range otherwise. *)
Fixpoint addOrExtendChange (changes : list LineChange) (ty : ChangeType)
    (line : Z) : list LineChange :=
  match changes with
  | [] => [mkLineChange ty line line]
  | [lastChange] =>
      if ChangeType_eqb (type lastChange) ty
         && Z.eqb (endLine lastChange) (line - 1)
      then [mkLineChange (type lastChange) (startLine lastChange) line]
      else [lastChange; mkLineChange ty line line]
  | change :: rest => change :: addOrExtendChange rest ty line
  end.

Record ParseState : Type := mkParseState {
  changes : list LineChange;
  currentLine : Z;
  inHunk : bool
}.

Definition initialState : ParseState := mkParseState [] 0 false.

(** Body of the loop of [parseDiff]. *)
Definition parseLine (st : ParseState) (line : string) : ParseState :=
  if String.prefix "@@" line then
    match matchHunk line with
    | Some group => mkParseState (changes st) (parseInt group - 1) true
    | None => st
    end
  else if inHunk st then
    if String.prefix "+" line then
      mkParseState (addOrExtendChange (changes st) added (currentLine st))
                   (currentLine st + 1) (inHunk st)
    else if String.prefix "-" line then
      mkParseState (addOrExtendChange (changes st) deleted (currentLine st - 1))
                   (currentLine st) (inHunk st)
    else if negb (String.prefix backslash line) then
      mkParseState (changes st) (currentLine st + 1) (inHunk st)
    else st
  else st.

Definition parseLines (lines : list string) (st : ParseState) : ParseState :=
  fold_left parseLine lines st.

Definition parseDiff (diff : string) : list LineChange :=
  changes (parseLines (splitLines diff) initialState).

(** A line that [parseDiff] takes as a hunk header. *)
Definition isHunkHeader (line : string) : bool :=
  String.prefix "@@" line
  && match matchHunk line with Some _ => true | None => false end.

(** The lines covered by a range, first to last. *)
Definition linesOf (c : LineChange) : list (ChangeType * Z) :=
  map (fun k => (type c, startLine c + Z.of_nat k))
      (seq 0 (Z.to_nat (endLine c - startLine c + 1))).

(** Two ranges overlap when they share a line. *)
Definition overlap (a b : LineChange) : bool :=
  Z.leb (startLine a) (endLine b) && Z.leb (startLine b) (endLine a).

(** The marks of a diff in encounter order: one [(type, line)] pair for every
    [+] or [-] line met inside a hunk, as handed to [addOrExtendChange]. *)
Fixpoint marksFrom (lines : list string) (currentLine : Z) (inHunk : bool)
  : list (ChangeType * Z) :=
  match lines with
  | [] => []
  | line :: rest =>
      if String.prefix "@@" line then
        match matchHunk line with
        | Some group => marksFrom rest (parseInt group - 1) true
        | None => marksFrom rest currentLine inHunk
        end
      else if inHunk then
        if String.prefix "+" line then
          (added, currentLine) :: marksFrom rest (currentLine + 1) inHunk
        else if String.prefix "-" line then
          (deleted, currentLine - 1) :: marksFrom rest currentLine inHunk
        else if negb (String.prefix backslash line) then
          marksFrom rest (currentLine + 1) inHunk
        else marksFrom rest currentLine inHunk
      else marksFrom rest currentLine inHunk
  end.

Definition marks (diff : string) : list (ChangeType * Z) :=
  marksFrom (splitLines diff) 0 false.

(** A column of an editor position; [MaxValue] is [Number.MAX_VALUE]. *)
Inductive Column : Type := Col (n : Z) | MaxValue.

(** [new vscode.Range(startLine, startCharacter, endLine, endCharacter)] *)
Record Range : Type := mkRange {
  rangeStartLine : Z;
  rangeStartCharacter : Column;
  rangeEndLine : Z;
  rangeEndCharacter : Column
}.

Record DecorationOptions : Type := mkDecoration {
  range : Range;
  hoverFor : ChangeType
}.

Record AppliedDecorations : Type := mkApplied {
  addedDecorations : list DecorationOptions;
  modifiedDecorations : list DecorationOptions;
  deletedDecorations : list DecorationOptions;
  activeDecorations : list DecorationOptions
}.

(** Body of the loop of [applyDecorations]; the hover message is determined
    by the change type and is kept as that type. *)
Definition decorate (acc : list DecorationOptions * list DecorationOptions
                          * list DecorationOptions) (change : LineChange)
  : list DecorationOptions * list DecorationOptions * list DecorationOptions :=
  let '(addedAcc, modifiedAcc, deletedAcc) := acc in
  let decoration :=
    mkDecoration (mkRange (startLine change) (Col 0) (endLine change) MaxValue)
                 (type change) in
  match type change with
  | added => (addedAcc ++ [decoration], modifiedAcc, deletedAcc)
  | modified => (addedAcc, modifiedAcc ++ [decoration], deletedAcc)
  | deleted => (addedAcc, modifiedAcc, deletedAcc ++ [decoration])
  end.

(** [applyDecorations]: the three lists handed to [editor.setDecorations]
    and the list stored in [activeDecorations] for the document. *)
Definition applyDecorations (changes : list LineChange) : AppliedDecorations :=
  let '(addedAcc, modifiedAcc, deletedAcc) :=
    fold_left decorate changes ([], [], []) in
  mkApplied addedAcc modifiedAcc deletedAcc
            (addedAcc ++ modifiedAcc ++ deletedAcc).

(** [getLineChanges]: [diffOutput] is what [gitProvider.getDiff] returned. *)
Definition getLineChanges (diffOutput : string) : list LineChange :=
  if isEmpty diffOutput then [] else parseDiff diffOutput.

End GutterDecorationService.

(* ================================================================= *)
(** ** Status detection (FileStatusService, services/fileStatusService.ts) *)

Module FileStatusService.

Inductive FileStatus : Type :=
| Untracked | Modified | Staged | Deleted | Added | Ignored | Clean | Conflicted.

(** The path buckets of the status returned by [GitProvider.getStatus]. *)
Record IGitStatus : Type := mkGitStatus {
  conflicted : list string;
  created : list string;
  deleted : list string;
  modified : list string;
  renamed : list string;
  staged : list string;
  added : list string;
  untracked : list string
}.

(** [getStatus] is the outcome of [await this.gitProvider.getStatus()],
    [relativePath] the workspace-relative path of the file. *)
Definition detectStatusWithGitProvider (getStatus : result IGitStatus)
    (relativePath : string) : FileStatus :=
  match getStatus with
  | Throw _ => Clean
  | Ok status =>
      if includes relativePath (untracked status) then Untracked
      else if includes relativePath (modified status) then Modified
      else if includes relativePath (staged status) then Staged
      else if includes relativePath (deleted status) then Deleted
      else if includes relativePath (added status) then Added
      else if includes relativePath (conflicted status) then Conflicted
      else Clean
  end.

(** The state of a repository of the editor's built-in Git extension; a
    working-tree change carries its numeric status code. *)
Record RepositoryState : Type := mkRepositoryState {
  workingTreeChanges : list (string * nat);
  indexChanges : list string;
  untrackedChanges : list string;
  mergeChanges : list string
}.

(** The first branch of [detectFileStatus], taken when the built-in Git
    extension knows the repository; [None] when it falls through. *)
Definition detectWithGitExtension (state : RepositoryState) (fsPath : string)
  : option FileStatus :=
  if includes fsPath (mergeChanges state) then Some Conflicted
  else if includes fsPath (indexChanges state) then Some Staged
  else if includes fsPath (untrackedChanges state) then Some Untracked
  else
    match find (fun change => String.eqb (fst change) fsPath)
               (workingTreeChanges state) with
    | Some workingChange =>
        match snd workingChange with
        | 5 => Some Modified
        | 6 => Some Deleted
        | 7 => Some Added
        | _ => Some Modified
        end
    | None => None
    end.

Definition detectFileStatus (inWorkspaceFolder : bool)
    (repository : option RepositoryState) (getStatus : result IGitStatus)
    (fsPath relativePath : string) : FileStatus :=
  if negb inWorkspaceFolder then Clean
  else
    match match repository with
          | Some state => detectWithGitExtension state fsPath
          | None => None
          end with
    | Some st => st
    | None => detectStatusWithGitProvider getStatus relativePath
    end.

(** What the service sees of a [vscode.Uri]: its file-system path, its
    workspace-relative path and whether it lies in a workspace folder. *)
Record Uri : Type := mkUri {
  fsPath : string;
  relativePath : string;
  inWorkspaceFolder : bool
}.

(** What the service asks of its surroundings: whether the built-in Git
    extension is active, the repository it knows for a path, and the outcome
    of [gitProvider.getStatus()]. *)
Record Backend : Type := mkBackend {
  gitExtensionActive : bool;
  getRepository : string -> option RepositoryState;
  getStatus : result IGitStatus
}.

(** [detectFileStatus(uri)] against a backend. *)
Definition detect (backend : Backend) (uri : Uri) : FileStatus :=
  detectFileStatus (inWorkspaceFolder uri)
                   (if gitExtensionActive backend
                    then getRepository backend (fsPath uri) else None)
                   (getStatus backend) (fsPath uri) (relativePath uri).

Record CacheEntry : Type := mkCacheEntry {
  cachedStatus : FileStatus;
  timestamp : Z
}.

Definition StatusCache := JsMap.t CacheEntry.

Definition CACHE_TTL : Z := 5000.

(** [cached && Date.now() - cached.timestamp < this.CACHE_TTL] *)
Definition fresh (now : Z) (cached : option CacheEntry) : option FileStatus :=
  match cached with
  | Some entry =>
      if Z.ltb (now - timestamp entry) CACHE_TTL
      then Some (cachedStatus entry) else None
  | None => None
  end.

(** [getFileStatus]: [now] is the clock when the cache is looked up, [later]
    the clock when the detected status is stored. *)
Definition getFileStatus (backend : Backend) (now later : Z) (uri : Uri)
    (cache : StatusCache) : FileStatus * StatusCache :=
  match fresh now (JsMap.get (fsPath uri) cache) with
  | Some status => (status, cache)
  | None =>
      let status := detect backend uri in
      (status, JsMap.set (fsPath uri) (mkCacheEntry status later) cache)
  end.

Definition getCachedStatus (now : Z) (uri : Uri) (cache : StatusCache)
  : option FileStatus :=
  fresh now (JsMap.get (fsPath uri) cache).

Definition invalidateCache (uri : Uri) (cache : StatusCache) : StatusCache :=
  JsMap.delete (fsPath uri) cache.

Definition clearCache (cache : StatusCache) : StatusCache := [].

(** [batchDetectFileStatus] *)
Definition batchDetectFileStatus (backend : Backend) (uris : list Uri)
  : JsMap.t FileStatus :=
  if gitExtensionActive backend then
    fold_left (fun result uri =>
                 match getRepository backend (fsPath uri) with
                 | Some _ => JsMap.set (fsPath uri) (detect backend uri) result
                 | None => JsMap.set (fsPath uri) Clean result
                 end)
              uris []
  else
    fold_left (fun result uri =>
                 JsMap.set (fsPath uri) (detect backend uri) result)
              uris [].

(** First loop of [getMultipleFileStatus]: serve from the cache what is
    fresh, collect the rest. *)
Definition partitionCached (now : Z) (cache : StatusCache) (uris : list Uri)
  : JsMap.t FileStatus * list Uri :=
  fold_left (fun acc uri =>
               let '(result, uncachedUris) := acc in
               match fresh now (JsMap.get (fsPath uri) cache) with
               | Some status => (JsMap.set (fsPath uri) status result, uncachedUris)
               | None => (result, uncachedUris ++ [uri])
               end)
            uris ([], []).

(** Second loop: copy the batch results into the result and the cache. *)
Definition mergeBatch (later : Z) (batchResults : JsMap.t FileStatus)
    (acc : JsMap.t FileStatus * StatusCache) : JsMap.t FileStatus * StatusCache :=
  fold_left (fun acc entry =>
               let '(result, cache) := acc in
               (JsMap.set (fst entry) (snd entry) result,
                JsMap.set (fst entry) (mkCacheEntry (snd entry) later) cache))
            batchResults acc.

Definition getMultipleFileStatus (backend : Backend) (now later : Z)
    (uris : list Uri) (cache : StatusCache)
  : JsMap.t FileStatus * StatusCache :=
  let '(result, uncachedUris) := partitionCached now cache uris in
  if Nat.ltb 0 (length uncachedUris)
  then mergeBatch later (batchDetectFileStatus backend uncachedUris) (result, cache)
  else (result, cache).

Definition FileStatus_eqb (a b : FileStatus) : bool :=
  match a, b with
  | Untracked, Untracked | Modified, Modified | Staged, Staged
  | Deleted, Deleted | Added, Added | Ignored, Ignored
  | Clean, Clean | Conflicted, Conflicted => true
  | _, _ => false
  end.

(** The predicates below are what the methods of the same name compute from
    the status that [getFileStatus] returned. *)
Definition isTracked (status : FileStatus) : bool :=
  negb (FileStatus_eqb status Untracked) && negb (FileStatus_eqb status Ignored).

Definition hasChanges (status : FileStatus) : bool :=
  existsb (FileStatus_eqb status) [Modified; Staged; Added; Deleted; Conflicted].

Definition canStage (status : FileStatus) : bool :=
  existsb (FileStatus_eqb status) [Modified; Untracked; Deleted].

Definition canUnstage (status : FileStatus) : bool :=
  FileStatus_eqb status Staged.

Definition canRevert (status : FileStatus) : bool :=
  existsb (FileStatus_eqb status) [Modified; Deleted].

End FileStatusService.

(* ================================================================= *)
(** ** The status of the Git provider (providers/gitProvider.ts) *)

Module GitProvider.

Record IGitFileStatus : Type := mkFileStatus {
  path : string;
  index : string;
  workingDir : string;
  isConflicted : bool
}.

Record IGitStatus : Type := mkStatus {
  files : list IGitFileStatus;
  conflicted : list string;
  created : list string;
  deleted : list string;
  modified : list string;
  renamed : list string;
  staged : list string
}.

(** [added] is [created] and [untracked] the paths whose working-tree code is
    a question mark, as [getStatus] builds them. *)
Definition added (status : IGitStatus) : list string := created status.
Definition untracked (status : IGitStatus) : list string :=
  map path (filter (fun f => String.eqb (workingDir f) "?") (files status)).

End GitProvider.

(* ================================================================= *)
(** ** ChangeListManager (views/changeListManager.ts)

    [asRelativePath] stands for [vscode.workspace.asRelativePath(p, false)]
    and [hasWorkspaceFolder] tells whether a workspace folder is open. *)

Module ChangeListManager.

Record t : Type := make {
  changeLists : JsMap.t Changelist.t;
  changeEvents : nat
}.

(** [initializeDefaultChangeList], called by the constructor. *)
Definition create (now : Z) : t :=
  make (JsMap.set "default"
          (Changelist.make "default" "Default Changelist" [] true true None now now)
          [])
       0.

Definition createFileChange (hasWorkspaceFolder : bool)
    (asRelativePath : string -> string) (filePath : string)
    (status : FileChangeStatus) (isStaged : bool) : FileChange.t :=
  FileChange.make filePath
                  (if hasWorkspaceFolder then asRelativePath filePath else filePath)
                  status isStaged None false.

(** The file changes [refresh] builds from a status, bucket by bucket. *)
Definition fileChangesOf (hasWorkspaceFolder : bool)
    (asRelativePath : string -> string) (status : GitProvider.IGitStatus)
  : list FileChange.t :=
  let mk := createFileChange hasWorkspaceFolder asRelativePath in
  map (fun p => mk p Modified false) (GitProvider.modified status)
  ++ map (fun p => mk p Added true) (GitProvider.created status)
  ++ map (fun p => mk p Deleted false) (GitProvider.deleted status)
  ++ map (fun p => mk p Renamed false) (GitProvider.renamed status)
  ++ map (fun p => mk p Conflicted false) (GitProvider.conflicted status)
  ++ map (fun f => mk (GitProvider.path f) Untracked false)
         (filter (fun f => String.eqb (GitProvider.workingDir f) "?")
                 (GitProvider.files status)).

(** [refresh]: [getStatus] is the outcome of [gitProvider.getStatus()]; a
    failure is logged and changes nothing.  The manager always holds a
    default changelist; without one the property access throws inside the
    [try] and is logged as well. *)
Definition refresh (hasWorkspaceFolder : bool)
    (asRelativePath : string -> string) (now : Z)
    (getStatus : result GitProvider.IGitStatus) (m : t) : t :=
  match getStatus with
  | Throw _ => m
  | Ok status =>
      match JsMap.get "default" (changeLists m) with
      | None => m
      | Some defaultChangeList =>
          let fileChanges := fileChangesOf hasWorkspaceFolder asRelativePath status in
          let updatedChangeList :=
            Changelist.make (Changelist.id defaultChangeList)
                            (Changelist.name defaultChangeList)
                            fileChanges
                            (Changelist.isDefault defaultChangeList)
                            (Changelist.isActive defaultChangeList)
                            None now now in
          make (JsMap.set "default" updatedChangeList (changeLists m))
               (S (changeEvents m))
      end
  end.

Definition getChangeList (id : string) (m : t) : option Changelist.t :=
  JsMap.get id (changeLists m).

(** The three selection methods share this shape. *)
Definition update (changeListId : string)
    (f : Changelist.t -> Changelist.t) (m : t) : t :=
  match JsMap.get changeListId (changeLists m) with
  | None => m
  | Some changeList =>
      make (JsMap.set changeListId (f changeList) (changeLists m))
           (S (changeEvents m))
  end.

Definition toggleFileSelection (now : Z) (changeListId filePath : string) (m : t)
  : t :=
  update changeListId
         (fun changeList =>
            Changelist.updateFile now changeList filePath FileChange.toggleSelection)
         m.

Definition selectAllFiles (now : Z) (changeListId : string) (m : t) : t :=
  update changeListId (Changelist.selectAllFiles now) m.

Definition deselectAllFiles (now : Z) (changeListId : string) (m : t) : t :=
  update changeListId (Changelist.deselectAllFiles now) m.

Definition getSelectedFilePaths (changeListId : string) (m : t) : list string :=
  match JsMap.get changeListId (changeLists m) with
  | None => []
  | Some changeList => map FileChange.path (Changelist.getSelectedFiles changeList)
  end.

Definition hasSelectedFiles (changeListId : string) (m : t) : bool :=
  match JsMap.get changeListId (changeLists m) with
  | None => false
  | Some changeList => Changelist.hasSelectedFiles changeList
  end.

End ChangeListManager.

(* ================================================================= *)
(** ** Selection in the changelist tree (views/changelistTreeProvider.ts)

    The selection methods of the tree provider go through
    [ChangelistStore.updateChangelist] with updaters that always build a new
    changelist. *)

Module ChangelistTreeProvider.

Definition withFiles (now : Z) (changelist : Changelist.t)
    (updatedFiles : list FileChange.t) : Changelist.t :=
  Changelist.make (Changelist.id changelist) (Changelist.name changelist)
                  updatedFiles (Changelist.isDefault changelist)
                  (Changelist.isActive changelist)
                  (Changelist.description changelist)
                  (Changelist.createdAt changelist) now.

Definition toggleFileSelection (now : Z) (changelistId filePath : string)
    (st : ChangelistStore.t) : result ChangelistStore.t :=
  ChangelistStore.updateChangelist changelistId
    (fun changelist =>
       Some (withFiles now changelist
               (map (fun f => if String.eqb (FileChange.path f) filePath
                              then FileChange.toggleSelection f else f)
                    (Changelist.files changelist))))
    st.

Definition selectAllFiles (now : Z) (changelistId : string)
    (st : ChangelistStore.t) : result ChangelistStore.t :=
  ChangelistStore.updateChangelist changelistId
    (fun changelist =>
       Some (withFiles now changelist
               (map (fun f => if FileChange.isSelected f then f
                              else FileChange.toggleSelection f)
                    (Changelist.files changelist))))
    st.

Definition deselectAllFiles (now : Z) (changelistId : string)
    (st : ChangelistStore.t) : result ChangelistStore.t :=
  ChangelistStore.updateChangelist changelistId
    (fun changelist =>
       Some (withFiles now changelist
               (map (fun f => if FileChange.isSelected f
                              then FileChange.toggleSelection f else f)
                    (Changelist.files changelist))))
    st.

Definition getSelectedFiles (changelistId : string) (st : ChangelistStore.t)
  : list string :=
  match ChangelistStore.getChangelist changelistId st with
  | Some changelist => map FileChange.path (Changelist.selectedFiles changelist)
  | None => []
  end.

Definition hasSelectedFiles (changelistId : string) (st : ChangelistStore.t)
  : bool :=
  match ChangelistStore.getChangelist changelistId st with
  | Some changelist => Changelist.hasSelectedFiles changelist
  | None => false
  end.

End ChangelistTreeProvider.

(* ================================================================= *)
(** ** Vocabulary of the properties *)

(** File paths are pairwise different. *)
Definition uniquePaths (fs : list FileChange.t) : Prop :=
  NoDup (map FileChange.path fs).

(** Every changelist of the store is registered under its own id, as
    [createChangelist] and the constructor do. *)
Definition keysAreIds (st : ChangelistStore.t) : Prop :=
  Forall (fun kv => Changelist.id (snd kv) = fst kv)
         (ChangelistStore.changelists st).

(** A [Map] holds each key once. *)
Definition uniqueKeys (st : ChangelistStore.t) : Prop :=
  NoDup (JsMap.keys (ChangelistStore.changelists st)).

(** Some file of [fs] has a path that is already a path of [existing]. *)
Definition sharesPath (fs existing : list FileChange.t) : bool :=
  existsb (fun f => Changelist.hasPath (FileChange.path f) existing) fs.

(** No two ranges at different positions of the list share a line. *)
Fixpoint noOverlaps (cs : list GutterDecorationService.LineChange) : bool :=
  match cs with
  | [] => true
  | c :: rest =>
      forallb (fun c' => negb (GutterDecorationService.overlap c c')) rest
      && noOverlaps rest
  end.

(** A range is not empty. *)
Definition properRange (c : GutterDecorationService.LineChange) : Prop :=
  (GutterDecorationService.startLine c <= GutterDecorationService.endLine c)%Z.

(** Neighbouring ranges were not left unmerged: the second one is not a
    same-type range that starts right after the end of the first. *)
Fixpoint coalesced (cs : list GutterDecorationService.LineChange) : Prop :=
  match cs with
  | [] => True
  | c :: rest =>
      match rest with
      | [] => True
      | c' :: _ =>
          ~ (GutterDecorationService.type c = GutterDecorationService.type c'
             /\ GutterDecorationService.startLine c'
                = (GutterDecorationService.endLine c + 1)%Z)
          /\ coalesced rest
      end
  end.

(** What the loop of [setActiveChangelist] makes of one entry. *)
Definition withActiveFlag (now : Z) (id : string) (kv : string * Changelist.t)
  : string * Changelist.t :=
  (fst kv, Changelist.setActive now (snd kv) (String.eqb (fst kv) id)).

(** The shape of every store the class can build: ['default'] is present,
    keys are the changelists' ids, and no key occurs twice. *)
Definition wellFormed (st : ChangelistStore.t) : Prop :=
  ChangelistStore.hasChangelist "default" st = true
  /\ keysAreIds st /\ uniqueKeys st.

(** The calls that can lose the only active flag: deleting the changelist
    that carries it, and creating a changelist under an id already in use. *)
Definition keepsActiveFlag (op : ChangelistStore.Op) (st : ChangelistStore.t)
  : Prop :=
  match op with
  | ChangelistStore.DeleteChangelist id =>
      option_map Changelist.isActive (ChangelistStore.getChangelist id st)
      <> Some true
  | ChangelistStore.CreateChangelist freshId _ _ =>
      ChangelistStore.hasChangelist freshId st = false
  | _ => True
  end.

(** Every call of the sequence keeps the active flag, at the store in which
    it is made. *)
Fixpoint keepActiveFlag (calls : list (Z * ChangelistStore.Op))
    (st : ChangelistStore.t) : Prop :=
  match calls with
  | [] => True
  | c :: rest =>
      keepsActiveFlag (snd c) st /\ keepActiveFlag rest (ChangelistStore.step st c)
  end.

(** Text made of the given lines, separated by newlines. *)
Definition text (lines : list string) : string :=
  join (String newline EmptyString) lines.

(* ================================================================= *)
(** ** Sample data *)

Module Sample.

Definition fileA : FileChange.t :=
  FileChange.make "/w/src/a.ts" "src/a.ts" Modified false None false.
Definition fileB : FileChange.t :=
  FileChange.make "/w/src/b.ts" "src/b.ts" Added true None false.
(** Same path as [fileA], seen with another status. *)
Definition fileA' : FileChange.t :=
  FileChange.make "/w/src/a.ts" "src/a.ts" Deleted false None true.

Definition defaultList : Changelist.t :=
  Changelist.make "default" "Default Changelist" [fileA] true true
                  (Some "Default changelist for organizing changes") 0 0.
Definition featureList : Changelist.t :=
  Changelist.make "changelist_1_x" "Feature" [fileA'; fileB] false false None 1 2.

Definition store : ChangelistStore.t :=
  ChangelistStore.make [("default", defaultList); ("changelist_1_x", featureList)]
                       "default" 3.

(** Create a changelist, make it active, delete it. *)
Definition createActivateDelete : list (Z * ChangelistStore.Op) :=
  [(1%Z, ChangelistStore.CreateChangelist "changelist_1_x" "Feature" None);
   (2%Z, ChangelistStore.SetActiveChangelist "changelist_1_x");
   (3%Z, ChangelistStore.DeleteChangelist "changelist_1_x")].

(** A shelved edit of the second line of a two-line file ... *)
Definition shelvedNotes : ShelvedFile.t :=
  ShelvedFile.make "/w/notes.txt" "notes.txt"
                   (text ["a"; "b"]) (text ["a"; "X"]) Modified "utf8".
Definition notesShelf : Shelf.t :=
  Shelf.make "shelf_1" "WIP" [shelvedNotes] 0 "main" "HEAD" None None.
(** ... and a working tree in which the first line was edited since. *)
Definition editedWorld : ShelveStore.World :=
  ShelveStore.mkWorld [("shelf_1", notesShelf)]
                      [("/w/notes.txt", text ["Y"; "b"])]
                      [notesShelf] 0.

(** The same shelf against a working tree with an edit of the shelved line. *)
Definition conflictingWorld : ShelveStore.World :=
  ShelveStore.mkWorld [("shelf_1", notesShelf)]
                      [("/w/notes.txt", text ["a"; "Z"])]
                      [notesShelf] 0.

Definition cleanWorld : ShelveStore.World :=
  ShelveStore.mkWorld [] [("/w/src/a.ts", text ["let x = 1;"; "export {};"])] [] 0.

(** The diff of the specification's worked example. *)
Definition exampleDiff : string :=
  text ["@@ -1,3 +1,4 @@"; " unchanged"; "-removed line"; "+added line";
        "+second added"].

(** Two neighbouring lines deleted after one line of context. *)
Definition twoDeletions : string :=
  text ["@@ -1,3 +1,1 @@"; " keep"; "-gone1"; "-gone2"].

(** A status in which one path is both conflicted and modified. *)
Definition mergeStatus : FileStatusService.IGitStatus :=
  FileStatusService.mkGitStatus ["src/a.ts"] [] [] ["src/a.ts"] [] [] [] [].

End Sample.

(* ================================================================= *)
(** ** Further vocabulary *)



(** [fs] with [update] applied to the first file whose path is [filePath]. *)
Fixpoint updateFirst (filePath : string) (update : FileChange.t -> FileChange.t)
    (fs : list FileChange.t) : list FileChange.t :=
  match fs with
  | [] => []
  | f :: rest =>
      if String.eqb (FileChange.path f) filePath then update f :: rest
      else f :: updateFirst filePath update rest
  end.

(** No two changelists of the store have the same name. *)
Definition uniqueNames (st : ChangelistStore.t) : Prop :=
  NoDup (map Changelist.name (ChangelistStore.getAllChangelists st)).

(** The active pointer names a changelist of the store. *)
Definition activePointerValid (st : ChangelistStore.t) : Prop :=
  ChangelistStore.hasChangelist (ChangelistStore.activeChangelistId st) st = true.

(** The changelist the active pointer names carries the active flag. *)
Definition activePointerFlagged (st : ChangelistStore.t) : Prop :=
  option_map Changelist.isActive
    (ChangelistStore.getChangelist (ChangelistStore.activeChangelistId st) st)
  = Some true.

(** The disk after writing the shelved content of each file, first to last. *)
Definition writeAll (files : list ShelvedFile.t) (disk : ShelveStore.FileSystem)
  : ShelveStore.FileSystem :=
  fold_left (fun d f => JsMap.set (ShelvedFile.path f)
                                  (ShelvedFile.shelvedContent f) d)
            files disk.

(** The files [unshelve] restores for the given options. *)
Definition filesToRestore (options : ShelveStore.UnshelveOptions)
    (shelf : Shelf.t) : list ShelvedFile.t :=
  match ShelveStore.selectedFiles options with
  | Some selected =>
      filter (fun f => includes (ShelvedFile.path f) selected) (Shelf.files shelf)
  | None => Shelf.files shelf
  end.

(** The stored list of shelves is the one in memory. *)
Definition persisted (w : ShelveStore.World) : Prop :=
  ShelveStore.storage w = JsMap.values (ShelveStore.shelves w).

(** The shelved file has a conflict with what is on disk. *)
Definition conflictsOnDisk (disk : ShelveStore.FileSystem) (f : ShelvedFile.t)
  : bool :=
  match JsMap.get (ShelvedFile.path f) disk with
  | Some currentContent =>
      Nat.ltb 0 (length (ShelvedFile.detectConflicts f currentContent))
  | None => false
  end.

(** The mutating calls of the shelve store. *)
Inductive ShelveOp : Type :=
| CreateShelf (hasWorkspaceFolder : bool) (freshId : string) (now : Z)
              (name : string) (files : list FileChange.t)
              (removeFromWorkspace : bool) (description : option string)
| CreateShelfFromChangelist (hasWorkspaceFolder : bool) (freshId : string)
              (now : Z) (name : string) (changelist : Changelist.t)
              (removeFromWorkspace : bool) (description : option string)
| Unshelve (shelfId : string) (options : ShelveStore.UnshelveOptions)
| PartialUnshelve (shelfId : string) (filePaths : list string)
| DeleteShelf (shelfId : string)
| RenameShelf (shelfId newName : string)
| UpdateShelfDescription (shelfId description : string)
| ImportShelf (freshId : string) (now : Z) (patchContent name : string).

(** The world after a call, whether it returned or threw. *)
Definition afterCall (op : ShelveOp) (w : ShelveStore.World) : ShelveStore.World :=
  match op with
  | CreateShelf ws freshId now name files remove description =>
      snd (ShelveStore.createShelf ws freshId now name files remove description w)
  | CreateShelfFromChangelist ws freshId now name changelist remove description =>
      snd (ShelveStore.createShelfFromChangelist ws freshId now name changelist
             remove description w)
  | Unshelve shelfId options => snd (ShelveStore.unshelve shelfId options w)
  | PartialUnshelve shelfId filePaths =>
      snd (ShelveStore.partialUnshelve shelfId filePaths w)
  | DeleteShelf shelfId => snd (ShelveStore.deleteShelf shelfId w)
  | RenameShelf shelfId newName => snd (ShelveStore.renameShelf shelfId newName w)
  | UpdateShelfDescription shelfId description =>
      snd (ShelveStore.updateShelfDescription shelfId description w)
  | ImportShelf freshId now patchContent name =>
      snd (ShelveStore.importShelf freshId now patchContent name w)
  end.

(** A stable list in which later timestamps come first. *)
Definition latestFirst (shelves : list Shelf.t) : Prop :=
  StronglySorted (fun a b => (Shelf.timestamp b <= Shelf.timestamp a)%Z) shelves.

(** The shelved file is missing on disk or has at most one conflict there. *)
Definition resolvableOnDisk (disk : ShelveStore.FileSystem) (f : ShelvedFile.t)
  : bool :=
  match JsMap.get (ShelvedFile.path f) disk with
  | Some currentContent =>
      Nat.leb (length (ShelvedFile.detectConflicts f currentContent)) 1
  | None => true
  end.

(** The world with another disk. *)
Definition withDisk (w : ShelveStore.World) (disk : ShelveStore.FileSystem)
  : ShelveStore.World :=
  ShelveStore.mkWorld (ShelveStore.shelves w) disk (ShelveStore.storage w)
                      (ShelveStore.changeEvents w).

(** What [createShelvedFile] makes of a file change on the given disk: the
    content on disk, twice. *)
Definition snapshot (disk : ShelveStore.FileSystem) (f : FileChange.t)
  : ShelvedFile.t :=
  let content := match JsMap.get (FileChange.path f) disk with
                 | Some c => c
                 | None => EmptyString
                 end in
  ShelvedFile.make (FileChange.path f) (FileChange.relativePath f)
                   content content (FileChange.status f) "utf8".

(** The file can be read. *)
Definition readable (disk : ShelveStore.FileSystem) (f : FileChange.t) : bool :=
  JsMap.has (FileChange.path f) disk.

(** The disk after [removeFilesFromWorkspace]: every file emptied. *)
Definition truncateAll (files : list FileChange.t) (disk : ShelveStore.FileSystem)
  : ShelveStore.FileSystem :=
  fold_left (fun d f => JsMap.set (FileChange.path f) EmptyString d) files disk.

(** The decoration [applyDecorations] makes for a range: whole lines, from
    column 0 of the first to the end of the last. *)
Definition decorationOf (c : GutterDecorationService.LineChange)
  : GutterDecorationService.DecorationOptions :=
  GutterDecorationService.mkDecoration
    (GutterDecorationService.mkRange
       (GutterDecorationService.startLine c) (GutterDecorationService.Col 0)
       (GutterDecorationService.endLine c) GutterDecorationService.MaxValue)
    (GutterDecorationService.type c).

(** The ranges of one type, in order. *)
Definition ofType (ty : GutterDecorationService.ChangeType)
    (changes : list GutterDecorationService.LineChange)
  : list GutterDecorationService.LineChange :=
  filter (fun c => GutterDecorationService.ChangeType_eqb
                     (GutterDecorationService.type c) ty) changes.

(** The diff of a file against itself: the two file headers, the hunk
    header, and every line as context. *)
Definition unchangedDiff (relativePath content : string) : string :=
  let lines := splitLines content in
  "--- a/" ++ relativePath ++ String newline EmptyString
  ++ "+++ b/" ++ relativePath ++ String newline EmptyString
  ++ join (String newline EmptyString)
          (ShelvedFile.diffHeader lines lines
           :: map (fun line => (" " ++ line)%string) lines).

(** The status [batchDetectFileStatus] gives one file. *)
Definition batchStatus (backend : FileStatusService.Backend)
    (uri : FileStatusService.Uri) : FileStatusService.FileStatus :=
  if FileStatusService.gitExtensionActive backend then
    match FileStatusService.getRepository backend (FileStatusService.fsPath uri) with
    | Some _ => FileStatusService.detect backend uri
    | None => FileStatusService.Clean
    end
  else FileStatusService.detect backend uri.

(** Requested uris with the same file-system path are the same uri. *)
Definition pathDeterminesUri (uris : list FileStatusService.Uri) : Prop :=
  forall u v, In u uris -> In v uris ->
    FileStatusService.fsPath u = FileStatusService.fsPath v -> u = v.

(** Further sample data. *)
Module MoreSamples.

Definition manager : ChangeListManager.t :=
  ChangeListManager.make [("default", Sample.featureList)] 4.

End MoreSamples.

(* ================================================================= *)
(** * Part II: properties *)

(** ** JavaScript maps *)

Section JsMapFacts.
Context {V : Type}.
Implicit Types (m : JsMap.t V) (k : string) (v : V).

Lemma get_set_same k v m : JsMap.get k (JsMap.set k v m) = Some v.
Proof.
  induction m as [|[k' v'] m IH]; simpl.
  - now rewrite String.eqb_refl.
  - destruct (String.eqb k' k) eqn:E; simpl; rewrite E; [reflexivity | exact IH].
Qed.

Lemma get_set_other k k' v m :
  k <> k' -> JsMap.get k (JsMap.set k' v m) = JsMap.get k m.
Proof.
  intros Hne. induction m as [|[k0 v0] m IH]; simpl.
  - destruct (String.eqb k' k) eqn:E; [|reflexivity].
    apply String.eqb_eq in E. congruence.
  - destruct (String.eqb k0 k') eqn:E; simpl.
    + apply String.eqb_eq in E. subst k0.
      destruct (String.eqb k' k) eqn:E'; [|reflexivity].
      apply String.eqb_eq in E'. congruence.
    + now rewrite IH.
Qed.

Lemma get_delete_same k m : JsMap.get k (JsMap.delete k m) = None.
Proof.
  unfold JsMap.delete.
  induction m as [|[k' v'] m IH]; simpl; [reflexivity|].
  destruct (String.eqb k' k) eqn:E; simpl; [exact IH | now rewrite E].
Qed.

Lemma get_delete_other k k' m :
  k <> k' -> JsMap.get k (JsMap.delete k' m) = JsMap.get k m.
Proof.
  intros Hne. unfold JsMap.delete.
  induction m as [|[k0 v0] m IH]; simpl; [reflexivity|].
  destruct (String.eqb k0 k') eqn:E; simpl.
  - apply String.eqb_eq in E. subst k0.
    destruct (String.eqb k' k) eqn:E'; [|exact IH].
    apply String.eqb_eq in E'. congruence.
  - now rewrite IH.
Qed.

Lemma keys_set_present k v m :
  JsMap.has k m = true -> JsMap.keys (JsMap.set k v m) = JsMap.keys m.
Proof.
  unfold JsMap.has, JsMap.keys.
  induction m as [|[k' v'] m IH]; simpl; [discriminate|].
  destruct (String.eqb k' k) eqn:E; simpl; [reflexivity|].
  intros H. now rewrite IH.
Qed.

Lemma keys_set_absent k v m :
  JsMap.has k m = false -> JsMap.keys (JsMap.set k v m) = JsMap.keys m ++ [k].
Proof.
  unfold JsMap.has, JsMap.keys.
  induction m as [|[k' v'] m IH]; simpl; [reflexivity|].
  destruct (String.eqb k' k) eqn:E; simpl; [discriminate|].
  intros H. now rewrite IH.
Qed.

Lemma has_false_not_In k m : JsMap.has k m = false -> ~ In k (JsMap.keys m).
Proof.
  unfold JsMap.has, JsMap.keys.
  induction m as [|[k' v'] m IH]; simpl; [tauto|].
  destruct (String.eqb k' k) eqn:E; [discriminate|].
  intros H [Hk | HIn]; [|now apply IH].
  subst k'. rewrite String.eqb_refl in E. discriminate.
Qed.

Lemma In_set_inv k v m (kv : string * V) :
  In kv (JsMap.set k v m) -> kv = (k, v) \/ In kv m.
Proof.
  induction m as [|[k' v'] m IH]; simpl.
  - intros [H | []]. now left.
  - destruct (String.eqb k' k) eqn:E; simpl.
    + apply String.eqb_eq in E. subst k'.
      intros [H | H]; [now left | now right; right].
    + intros [H | H]; [now right; left|].
      destruct (IH H) as [H' | H']; [now left | now right; right].
Qed.

Lemma In_delete_inv k m (kv : string * V) :
  In kv (JsMap.delete k m) -> In kv m /\ fst kv <> k.
Proof.
  unfold JsMap.delete. rewrite filter_In. intros [HIn Hk]. split; [assumption|].
  intros E. rewrite E, String.eqb_refl in Hk. discriminate.
Qed.

End JsMapFacts.

(** ** Changelist.addFile *)

Lemma hasPath_app p xs ys :
  Changelist.hasPath p (xs ++ ys)
  = Changelist.hasPath p xs || Changelist.hasPath p ys.
Proof. unfold Changelist.hasPath. apply existsb_app. Qed.

Lemma hasPath_false_not_In p fs :
  Changelist.hasPath p fs = false -> ~ In p (map FileChange.path fs).
Proof.
  induction fs as [|g fs IH]; simpl; intros H; [tauto|].
  apply orb_false_iff in H as [Hg Hfs].
  intros [E | HIn]; [|now apply IH].
  rewrite E, String.eqb_refl in Hg. discriminate.
Qed.

Lemma hasPath_false_not_In_file f fs :
  Changelist.hasPath (FileChange.path f) fs = false -> ~ In f fs.
Proof.
  intros H HIn. apply (hasPath_false_not_In _ _ H). now apply in_map.
Qed.

Lemma addFile_fresh now cl f :
  Changelist.hasPath (FileChange.path f) (Changelist.files cl) = false ->
  Changelist.files (Changelist.addFile now cl f) = Changelist.files cl ++ [f].
Proof. unfold Changelist.addFile. now intros ->. Qed.

Lemma addFile_present now cl f :
  Changelist.hasPath (FileChange.path f) (Changelist.files cl) = true ->
  Changelist.addFile now cl f = cl.
Proof. unfold Changelist.addFile. now intros ->. Qed.

Lemma addFile_id now cl f :
  Changelist.id (Changelist.addFile now cl f) = Changelist.id cl.
Proof. unfold Changelist.addFile. now destruct (Changelist.hasPath _ _). Qed.

Lemma addFile_isActive now cl f :
  Changelist.isActive (Changelist.addFile now cl f) = Changelist.isActive cl.
Proof. unfold Changelist.addFile. now destruct (Changelist.hasPath _ _). Qed.

Lemma NoDup_snoc (A : Type) (x : A) (xs : list A) :
  NoDup xs -> ~ In x xs -> NoDup (xs ++ [x]).
Proof.
  induction xs as [|y ys IH]; simpl; intros Hnd Hx.
  - constructor; [tauto | constructor].
  - inversion Hnd as [|? ? Hy Hys]; subst.
    constructor.
    + rewrite in_app_iff. simpl. intros [H | [H | []]]; [tauto|].
      apply Hx. now left.
    + apply IH; [assumption | tauto].
Qed.

(** File paths stay unique under [addFile], whatever file is added. *)
Lemma addFile_uniquePaths now cl f :
  uniquePaths (Changelist.files cl) ->
  uniquePaths (Changelist.files (Changelist.addFile now cl f)).
Proof.
  unfold uniquePaths. intros Hnd. unfold Changelist.addFile.
  destruct (Changelist.hasPath (FileChange.path f) (Changelist.files cl)) eqn:E;
    [assumption|].
  simpl. rewrite map_app. simpl.
  apply NoDup_snoc; [assumption|].
  now apply hasPath_false_not_In.
Qed.

Lemma addFile_hasPath_mono now cl f p :
  Changelist.hasPath p (Changelist.files cl) = true ->
  Changelist.hasPath p (Changelist.files (Changelist.addFile now cl f)) = true.
Proof.
  intros H. unfold Changelist.addFile.
  destruct (Changelist.hasPath (FileChange.path f) _); [assumption|].
  simpl. rewrite hasPath_app, H. reflexivity.
Qed.

Lemma addFile_length now cl f :
  Changelist.fileCount (Changelist.addFile now cl f)
  = if Changelist.hasPath (FileChange.path f) (Changelist.files cl)
    then Changelist.fileCount cl
    else S (Changelist.fileCount cl).
Proof.
  unfold Changelist.addFile, Changelist.fileCount.
  destruct (Changelist.hasPath _ _); simpl; [reflexivity|].
  rewrite length_app. simpl. lia.
Qed.

(** C9: adding a file whose path is new puts it in the list exactly once;
    adding it a second time returns the changelist unchanged, so the number
    of files stays the same; and if the paths of the changelist were
    pairwise different they still are after each of the two calls. *)
Theorem addFile_once_and_idempotent
    (now now' : Z) (cl : Changelist.t) (f : FileChange.t) :
  Changelist.hasPath (FileChange.path f) (Changelist.files cl) = false ->
  count_occ FileChange.eq_dec (Changelist.files (Changelist.addFile now cl f)) f = 1
  /\ length (Changelist.files
               (Changelist.addFile now' (Changelist.addFile now cl f) f))
     = length (Changelist.files (Changelist.addFile now cl f))
  /\ Changelist.addFile now' (Changelist.addFile now cl f) f
     = Changelist.addFile now cl f
  /\ (uniquePaths (Changelist.files cl) ->
      uniquePaths (Changelist.files (Changelist.addFile now cl f))
      /\ uniquePaths (Changelist.files
           (Changelist.addFile now' (Changelist.addFile now cl f) f))).
Proof.
  intros Hfresh.
  assert (Hre : Changelist.addFile now' (Changelist.addFile now cl f) f
                = Changelist.addFile now cl f).
  { apply addFile_present. rewrite (addFile_fresh now cl f Hfresh).
    rewrite hasPath_app. simpl. rewrite String.eqb_refl.
    now rewrite orb_true_r. }
  repeat split.
  - rewrite (addFile_fresh now cl f Hfresh), count_occ_app. simpl.
    destruct (FileChange.eq_dec f f) as [_|N]; [|contradiction].
    assert (H0 : count_occ FileChange.eq_dec (Changelist.files cl) f = 0).
    { apply count_occ_not_In. now apply hasPath_false_not_In_file. }
    rewrite H0. reflexivity.
  - now rewrite Hre.
  - exact Hre.
  - now apply addFile_uniquePaths.
  - rewrite Hre. now apply addFile_uniquePaths.
Qed.

Lemma addFile_once_and_idempotent_witness :
  Changelist.hasPath (FileChange.path Sample.fileB)
                     (Changelist.files Sample.defaultList) = false
  /\ count_occ FileChange.eq_dec
       (Changelist.files (Changelist.addFile 1 Sample.defaultList Sample.fileB))
       Sample.fileB = 1
  /\ length (Changelist.files
               (Changelist.addFile 2
                  (Changelist.addFile 1 Sample.defaultList Sample.fileB)
                  Sample.fileB))
     = length (Changelist.files
                 (Changelist.addFile 1 Sample.defaultList Sample.fileB))
  /\ uniquePaths (Changelist.files
        (Changelist.addFile 1 Sample.defaultList Sample.fileB)).
Proof.
  assert (Hfresh : Changelist.hasPath (FileChange.path Sample.fileB)
                     (Changelist.files Sample.defaultList) = false)
    by reflexivity.
  destruct (addFile_once_and_idempotent 1 2 Sample.defaultList Sample.fileB Hfresh)
    as [Hcount [Hlen [_ Huniq]]].
  repeat split; try assumption.
  apply Huniq. unfold uniquePaths. simpl.
  constructor; [simpl; tauto | constructor].
Defined.

(** ** ChangelistStore.moveFiles *)

(** C10: moving files from a changelist to itself returns normally and
    leaves the whole store (every changelist, the active pointer, the
    notification count) as it was, whether or not the id exists: the test
    [fromId === toId] comes before the look-ups. *)
Theorem moveFiles_same_id_is_noop
    (now : Z) (filePaths : list string) (id : string) (st : ChangelistStore.t) :
  ChangelistStore.moveFiles now filePaths id id st = Ok st.
Proof.
  unfold ChangelistStore.moveFiles. now rewrite String.eqb_refl.
Qed.

(** ** ChangelistStore.deleteChangelist *)

Lemma fold_addFile_id now fs d :
  Changelist.id (fold_left (Changelist.addFile now) fs d) = Changelist.id d.
Proof.
  revert d. induction fs as [|g fs IH]; intros d; simpl; [reflexivity|].
  now rewrite IH, addFile_id.
Qed.

Lemma fold_addFile_isActive now fs d :
  Changelist.isActive (fold_left (Changelist.addFile now) fs d)
  = Changelist.isActive d.
Proof.
  revert d. induction fs as [|g fs IH]; intros d; simpl; [reflexivity|].
  now rewrite IH, addFile_isActive.
Qed.

(** Appending a list of files grows the changelist by at most its length. *)
Lemma fold_addFile_count now fs d :
  Changelist.fileCount d
  <= Changelist.fileCount (fold_left (Changelist.addFile now) fs d)
  <= Changelist.fileCount d + length fs.
Proof.
  revert d. induction fs as [|g fs IH]; intros d; simpl; [lia|].
  specialize (IH (Changelist.addFile now d g)).
  rewrite addFile_length in IH.
  destruct (Changelist.hasPath (FileChange.path g) (Changelist.files d)); lia.
Qed.

(** ... and by less when one of the paths was already there. *)
Lemma fold_addFile_count_strict now fs d :
  sharesPath fs (Changelist.files d) = true ->
  Changelist.fileCount (fold_left (Changelist.addFile now) fs d)
  < Changelist.fileCount d + length fs.
Proof.
  revert d. induction fs as [|g fs IH]; intros d; simpl; [discriminate|].
  intros H. apply orb_true_iff in H as [Hg | Hrest].
  - pose proof (fold_addFile_count now fs (Changelist.addFile now d g)) as Hc.
    rewrite addFile_length, Hg in Hc. lia.
  - assert (Hrest' : sharesPath fs (Changelist.files (Changelist.addFile now d g)) = true).
    { unfold sharesPath in *. apply existsb_exists in Hrest as [f [HIn Hf]].
      apply existsb_exists. exists f. split; [assumption|].
      now apply addFile_hasPath_mono. }
    specialize (IH _ Hrest'). rewrite addFile_length in IH.
    destruct (Changelist.hasPath (FileChange.path g) (Changelist.files d)); lia.
Qed.

Lemma deleteChangelist_default_throws now st :
  ChangelistStore.deleteChangelist now "default" st
  = Throw "Cannot delete default changelist".
Proof. reflexivity. Qed.

(** C8: deleting ['default'] always throws.  Deleting another, existing
    changelist with N files succeeds; the default changelist then has at
    least as many files as before and at most N more, strictly fewer than N
    more when one of the moved paths was already in the default changelist;
    the deleted id is no longer a key of the store and, in a store that
    registers every changelist under its own id, no changelist returned by
    [getAllChangelists] carries it. *)
Theorem deleteChangelist_moves_files_to_default
    (now : Z) (id : string) (st : ChangelistStore.t)
    (changelist defaultChangelist : Changelist.t) :
  id <> "default" ->
  ChangelistStore.getChangelist id st = Some changelist ->
  ChangelistStore.getDefaultChangelist st = Some defaultChangelist ->
  (forall now0 st0, isOk (ChangelistStore.deleteChangelist now0 "default" st0) = false)
  /\ exists st' default',
      ChangelistStore.deleteChangelist now id st = Ok st'
      /\ ChangelistStore.getDefaultChangelist st' = Some default'
      /\ Changelist.fileCount defaultChangelist <= Changelist.fileCount default'
      /\ Changelist.fileCount default'
         <= Changelist.fileCount defaultChangelist + Changelist.fileCount changelist
      /\ (sharesPath (Changelist.files changelist)
                     (Changelist.files defaultChangelist) = true ->
          Changelist.fileCount default'
          < Changelist.fileCount defaultChangelist + Changelist.fileCount changelist)
      /\ ChangelistStore.hasChangelist id st' = false
      /\ ChangelistStore.getChangelist id st' = None
      /\ (keysAreIds st ->
          ~ In id (map Changelist.id (ChangelistStore.getAllChangelists st'))).
Proof.
  intros Hid Hcl Hdef. split; [reflexivity|].
  unfold ChangelistStore.getChangelist, ChangelistStore.getDefaultChangelist in *.
  assert (Hneq : String.eqb id "default" = false) by now apply String.eqb_neq.
  assert (Hdi : "default" <> id) by congruence.
  unfold ChangelistStore.deleteChangelist. rewrite Hneq, Hcl, Hdef.
  destruct (Changelist.hasFiles changelist) eqn:Hfiles.
  - (* the changelist has files: they are appended to the default one *)
    eexists. eexists. split; [reflexivity|]. simpl.
    rewrite (get_delete_other _ _ _ Hdi), get_set_same.
    pose proof (fold_addFile_count now (Changelist.files changelist)
                  defaultChangelist) as Hc.
    unfold ChangelistStore.hasChangelist, JsMap.has. simpl.
    rewrite get_delete_same.
    repeat split; try reflexivity; try (unfold Changelist.fileCount in *; lia).
    + intros Hs. apply (fold_addFile_count_strict now _ _ Hs).
    + intros Hk HIn. unfold ChangelistStore.getAllChangelists, JsMap.values in HIn.
      simpl in HIn. rewrite map_map in HIn. apply in_map_iff in HIn as [kv [E HIn]].
      apply In_delete_inv in HIn as [HIn Hkv].
      apply In_set_inv in HIn as [-> | HIn].
      * simpl in *. rewrite fold_addFile_id in E.
        assert (Hd : Changelist.id defaultChangelist = "default").
        { clear - Hk Hdef. unfold keysAreIds in Hk.
          induction (ChangelistStore.changelists st) as [|[k v] m IH];
            simpl in *; [discriminate|].
          inversion Hk as [|? ? Hkv Hm]; subst. simpl in Hkv.
          destruct (String.eqb k "default") eqn:E.
          - apply String.eqb_eq in E. congruence.
          - now apply IH. }
        congruence.
      * unfold keysAreIds in Hk. rewrite Forall_forall in Hk.
        specialize (Hk kv HIn). congruence.
  - (* no files: the default changelist is untouched *)
    eexists. exists defaultChangelist. split; [reflexivity|]. simpl.
    rewrite (get_delete_other _ _ _ Hdi).
    unfold ChangelistStore.hasChangelist, JsMap.has. simpl.
    rewrite get_delete_same.
    repeat split; try reflexivity; try assumption; try lia.
    + intros Hs. unfold Changelist.hasFiles in Hfiles.
      apply Nat.ltb_ge in Hfiles.
      destruct (Changelist.files changelist); simpl in *; [discriminate | lia].
    + intros Hk HIn. unfold ChangelistStore.getAllChangelists, JsMap.values in HIn.
      simpl in HIn. rewrite map_map in HIn. apply in_map_iff in HIn as [kv [E HIn]].
      apply In_delete_inv in HIn as [HIn Hkv].
      unfold keysAreIds in Hk. rewrite Forall_forall in Hk.
      specialize (Hk kv HIn). congruence.
Qed.

Lemma deleteChangelist_moves_files_to_default_witness :
  exists st' default',
    ChangelistStore.deleteChangelist 5 "changelist_1_x" Sample.store = Ok st'
    /\ ChangelistStore.getDefaultChangelist st' = Some default'
    /\ Changelist.fileCount default' = 2
    /\ Changelist.fileCount default'
       < Changelist.fileCount Sample.defaultList
         + Changelist.fileCount Sample.featureList
    /\ ~ In "changelist_1_x"
           (map Changelist.id (ChangelistStore.getAllChangelists st')).
Proof.
  destruct (deleteChangelist_moves_files_to_default 5 "changelist_1_x"
              Sample.store Sample.featureList Sample.defaultList)
    as [_ [st' [d' [Hok [Hd [_ [_ [Hlt [_ [_ Habsent]]]]]]]]]].
  - discriminate.
  - reflexivity.
  - reflexivity.
  - exists st', d'. repeat split.
    + exact Hok.
    + exact Hd.
    + vm_compute in Hok. injection Hok as <-.
      vm_compute in Hd. injection Hd as <-. reflexivity.
    + apply Hlt. reflexivity.
    + apply Habsent. unfold keysAreIds. simpl.
      repeat constructor.
Defined.

(** ** ChangelistStore.setActiveChangelist and the active flag *)

Lemma set_at_first_occurrence {V : Type} (k : string) (v v0 : V)
    (pre suf : JsMap.t V) :
  ~ In k (JsMap.keys pre) ->
  JsMap.set k v (pre ++ (k, v0) :: suf) = pre ++ (k, v) :: suf.
Proof.
  induction pre as [|[k' v'] pre IH]; simpl; intros Hk.
  - now rewrite String.eqb_refl.
  - destruct (String.eqb k' k) eqn:E.
    + apply String.eqb_eq in E. tauto.
    + rewrite IH; [reflexivity | tauto].
Qed.

Lemma setActive_isActive now cl b :
  Changelist.isActive (Changelist.setActive now cl b) = b.
Proof.
  unfold Changelist.setActive.
  destruct (Bool.eqb (Changelist.isActive cl) b) eqn:E; [|reflexivity].
  now apply Bool.eqb_prop in E.
Qed.

Lemma keys_withActiveFlag now id (m : JsMap.t Changelist.t) :
  JsMap.keys (map (withActiveFlag now id) m) = JsMap.keys m.
Proof. unfold JsMap.keys. rewrite map_map. reflexivity. Qed.

(** The loop of [setActiveChangelist], started on the whole map, rewrites
    every entry in place. *)
Lemma setActive_loop now id (suf pre : JsMap.t Changelist.t) :
  NoDup (JsMap.keys (pre ++ suf)) ->
  fold_left (ChangelistStore.setActiveStep now id) suf
            (map (withActiveFlag now id) pre ++ suf)
  = map (withActiveFlag now id) (pre ++ suf).
Proof.
  revert pre. induction suf as [|[k cl] suf IH]; intros pre Hnd; cbn [fold_left].
  - now rewrite !app_nil_r.
  - assert (Hstep :
      ChangelistStore.setActiveStep now id
        (map (withActiveFlag now id) pre ++ (k, cl) :: suf) (k, cl)
      = map (withActiveFlag now id) (pre ++ [(k, cl)]) ++ suf).
    { rewrite map_app, <- app_assoc. simpl.
      unfold ChangelistStore.setActiveStep.
      replace (withActiveFlag now id (k, cl))
        with (k, Changelist.setActive now cl (String.eqb k id)) by reflexivity.
      destruct (Bool.eqb (Changelist.isActive cl) (String.eqb k id)) eqn:E.
      - unfold Changelist.setActive. now rewrite E.
      - apply set_at_first_occurrence.
        rewrite keys_withActiveFlag.
        unfold JsMap.keys in *. rewrite map_app in Hnd. simpl in Hnd.
        apply NoDup_remove_2 in Hnd. rewrite in_app_iff in Hnd. tauto. }
    rewrite Hstep, IH.
    + now rewrite <- app_assoc.
    + now rewrite <- app_assoc.
Qed.

Lemma count_key_once (k : string) (ks : list string) :
  NoDup ks -> In k ks ->
  length (filter (fun k' => String.eqb k' k) ks) = 1.
Proof.
  induction ks as [|k0 ks IH]; simpl; intros Hnd HIn; [tauto|].
  inversion Hnd as [|? ? Hk0 Hks]; subst.
  destruct (String.eqb k0 k) eqn:E.
  - apply String.eqb_eq in E. subst k0. simpl. f_equal.
    apply length_zero_iff_nil.
    destruct (filter (fun k' => String.eqb k' k) ks) as [|x xs] eqn:F;
      [reflexivity|].
    assert (Hx : In x (filter (fun k' => String.eqb k' k) ks))
      by (rewrite F; now left).
    apply filter_In in Hx as [Hx Hxk]. apply String.eqb_eq in Hxk. subst x.
    contradiction.
  - destruct HIn as [-> | HIn].
    + rewrite String.eqb_refl in E. discriminate.
    + now apply IH.
Qed.

Lemma has_true_In {V : Type} (k : string) (m : JsMap.t V) :
  JsMap.has k m = true -> In k (JsMap.keys m).
Proof.
  unfold JsMap.has, JsMap.keys.
  induction m as [|[k' v'] m IH]; simpl; [discriminate|].
  destruct (String.eqb k' k) eqn:E.
  - apply String.eqb_eq in E. now left.
  - intros H. right. now apply IH.
Qed.

Lemma active_after_flags now id (m : JsMap.t Changelist.t) :
  length (filter Changelist.isActive
            (JsMap.values (map (withActiveFlag now id) m)))
  = length (filter (fun k => String.eqb k id) (JsMap.keys m)).
Proof.
  unfold JsMap.values, JsMap.keys.
  induction m as [|[k cl] m IH]; simpl; [reflexivity|].
  rewrite setActive_isActive.
  destruct (String.eqb k id); simpl; now rewrite IH.
Qed.

Lemma get_withActiveFlag now id k (m : JsMap.t Changelist.t) :
  JsMap.get k (map (withActiveFlag now id) m)
  = option_map (fun cl => Changelist.setActive now cl (String.eqb k id))
               (JsMap.get k m).
Proof.
  induction m as [|[k' cl] m IH]; simpl; [reflexivity|].
  destruct (String.eqb k' k) eqn:E; [|exact IH].
  apply String.eqb_eq in E. now subst k'.
Qed.

(** After a successful [setActiveChangelist] exactly one changelist carries
    the active flag, and it is the one the pointer names. *)
Lemma setActiveChangelist_exactly_one_active now id st st' :
  uniqueKeys st ->
  ChangelistStore.setActiveChangelist now id st = Ok st' ->
  ChangelistStore.activeCount st' = 1
  /\ ChangelistStore.activeChangelistId st' = id
  /\ option_map Changelist.isActive (ChangelistStore.getActiveChangelist st')
     = Some true.
Proof.
  unfold uniqueKeys, ChangelistStore.setActiveChangelist. intros Hnd.
  destruct (JsMap.has id (ChangelistStore.changelists st)) eqn:Hhas;
    simpl; [|discriminate].
  intros H. injection H as <-.
  pose proof (setActive_loop now id (ChangelistStore.changelists st) [] Hnd) as Hl.
  simpl in Hl.
  unfold ChangelistStore.activeCount, ChangelistStore.getAllChangelists,
    ChangelistStore.getActiveChangelist. simpl. rewrite Hl.
  split; [|split; [reflexivity|]].
  - rewrite active_after_flags.
    apply count_key_once; [assumption | now apply has_true_In].
  - rewrite get_withActiveFlag. unfold JsMap.has in Hhas.
    destruct (JsMap.get id (ChangelistStore.changelists st)); [|discriminate].
    simpl. now rewrite setActive_isActive, String.eqb_refl.
Qed.

(** ** Stores built by the class *)

Lemma has_set_same {V : Type} k (v : V) m : JsMap.has k (JsMap.set k v m) = true.
Proof. unfold JsMap.has. now rewrite get_set_same. Qed.

Lemma has_set_other {V : Type} k k' (v : V) m :
  k <> k' -> JsMap.has k (JsMap.set k' v m) = JsMap.has k m.
Proof. intros H. unfold JsMap.has. now rewrite get_set_other. Qed.

Lemma has_set_mono {V : Type} k k' (v : V) m :
  JsMap.has k m = true -> JsMap.has k (JsMap.set k' v m) = true.
Proof.
  intros H. destruct (string_dec k k') as [->|Hne].
  - apply has_set_same.
  - now rewrite has_set_other.
Qed.

Lemma Forall_set {V : Type} (P : string * V -> Prop) k v m :
  Forall P m -> P (k, v) -> Forall P (JsMap.set k v m).
Proof.
  intros Hm Hkv. apply Forall_forall. intros kv HIn.
  apply In_set_inv in HIn as [-> | HIn]; [assumption|].
  rewrite Forall_forall in Hm. now apply Hm.
Qed.

Lemma Forall_delete {V : Type} (P : string * V -> Prop) k m :
  Forall P m -> Forall P (JsMap.delete k m).
Proof.
  intros Hm. apply Forall_forall. intros kv HIn.
  apply In_delete_inv in HIn as [HIn _].
  rewrite Forall_forall in Hm. now apply Hm.
Qed.

Lemma NoDup_keys_set {V : Type} k (v : V) m :
  NoDup (JsMap.keys m) -> NoDup (JsMap.keys (JsMap.set k v m)).
Proof.
  intros Hnd. destruct (JsMap.has k m) eqn:H.
  - now rewrite keys_set_present.
  - rewrite keys_set_absent by assumption.
    apply NoDup_snoc; [assumption | now apply has_false_not_In].
Qed.

Lemma keys_delete {V : Type} k (m : JsMap.t V) :
  JsMap.keys (JsMap.delete k m)
  = filter (fun k' => negb (String.eqb k' k)) (JsMap.keys m).
Proof.
  unfold JsMap.keys, JsMap.delete.
  induction m as [|[k' v'] m IH]; simpl; [reflexivity|].
  destruct (String.eqb k' k); simpl; now rewrite IH.
Qed.

Lemma NoDup_keys_delete {V : Type} k (m : JsMap.t V) :
  NoDup (JsMap.keys m) -> NoDup (JsMap.keys (JsMap.delete k m)).
Proof. intros H. rewrite keys_delete. now apply NoDup_filter. Qed.

Lemma delete_absent {V : Type} k (m : JsMap.t V) :
  ~ In k (JsMap.keys m) -> JsMap.delete k m = m.
Proof.
  unfold JsMap.keys, JsMap.delete.
  induction m as [|[k' v'] m IH]; simpl; intros H; [reflexivity|].
  destruct (String.eqb k' k) eqn:E.
  - apply String.eqb_eq in E. tauto.
  - simpl. rewrite IH; [reflexivity | tauto].
Qed.

Lemma get_key_is_id (m : JsMap.t Changelist.t) k cl :
  Forall (fun kv => Changelist.id (snd kv) = fst kv) m ->
  JsMap.get k m = Some cl -> Changelist.id cl = k.
Proof.
  induction m as [|[k' v'] m IH]; simpl; intros Hall Hget; [discriminate|].
  inversion Hall as [|? ? Hkv Hm]; subst. simpl in Hkv.
  destruct (String.eqb k' k) eqn:E.
  - apply String.eqb_eq in E. congruence.
  - now apply IH.
Qed.

Lemma removeFile_id now cl p :
  Changelist.id (Changelist.removeFile now cl p) = Changelist.id cl.
Proof. unfold Changelist.removeFile. now destruct (Nat.eqb _ _). Qed.

Lemma removeFile_isActive now cl p :
  Changelist.isActive (Changelist.removeFile now cl p) = Changelist.isActive cl.
Proof. unfold Changelist.removeFile. now destruct (Nat.eqb _ _). Qed.

Lemma fold_removeFile_id now fs cl :
  Changelist.id
    (fold_left (fun c f => Changelist.removeFile now c (FileChange.path f)) fs cl)
  = Changelist.id cl.
Proof.
  revert cl. induction fs as [|f fs IH]; intros cl; simpl; [reflexivity|].
  now rewrite IH, removeFile_id.
Qed.

Lemma fold_removeFile_isActive now fs cl :
  Changelist.isActive
    (fold_left (fun c f => Changelist.removeFile now c (FileChange.path f)) fs cl)
  = Changelist.isActive cl.
Proof.
  revert cl. induction fs as [|f fs IH]; intros cl; simpl; [reflexivity|].
  now rewrite IH, removeFile_isActive.
Qed.

Lemma rename_id now cl n :
  Changelist.id (Changelist.rename now cl n) = Changelist.id cl.
Proof. unfold Changelist.rename. now destruct (String.eqb _ _). Qed.

Lemma rename_isActive now cl n :
  Changelist.isActive (Changelist.rename now cl n) = Changelist.isActive cl.
Proof. unfold Changelist.rename. now destruct (String.eqb _ _). Qed.

Lemma setActive_id now cl b :
  Changelist.id (Changelist.setActive now cl b) = Changelist.id cl.
Proof. unfold Changelist.setActive. now destruct (Bool.eqb _ _). Qed.

(** Replacing a registered changelist by one with the same id keeps the
    store well formed. *)
Lemma wellFormed_set m a e k cl old a' e' :
  wellFormed (ChangelistStore.make m a e) ->
  JsMap.get k m = Some old -> Changelist.id cl = Changelist.id old ->
  wellFormed (ChangelistStore.make (JsMap.set k cl m) a' e').
Proof.
  unfold wellFormed, keysAreIds, uniqueKeys, ChangelistStore.hasChangelist.
  simpl. intros [Hd [Hk Hu]] Hget Hid. repeat split.
  - now apply has_set_mono.
  - apply Forall_set; [assumption|]. simpl.
    rewrite Hid. now apply (get_key_is_id m).
  - now apply NoDup_keys_set.
Qed.

Lemma create_wellFormed now : wellFormed (ChangelistStore.create now).
Proof.
  unfold wellFormed, keysAreIds, uniqueKeys. simpl. repeat split.
  - repeat constructor.
  - constructor; [simpl; tauto | constructor].
Qed.

Lemma call_wellFormed now op st st' :
  wellFormed st -> ChangelistStore.call now op st = Ok st' -> wellFormed st'.
Proof.
  destruct st as [m a e]. intros Hwf.
  pose proof Hwf as [Hd [Hk Hu]].
  unfold keysAreIds, uniqueKeys, ChangelistStore.hasChangelist in Hd, Hk, Hu.
  simpl in Hd, Hk, Hu.
  destruct op as [freshId name description | id | id newName
                 | filePaths fromId toId | file id | file id | id]; simpl.
  - (* createChangelist *)
    unfold ChangelistStore.createChangelist. simpl.
    destruct (isEmpty (trim name)); [discriminate|].
    destruct (existsb _ _); [discriminate|].
    intros H. injection H as <-.
    unfold wellFormed, keysAreIds, uniqueKeys, ChangelistStore.hasChangelist.
    simpl. repeat split.
    + now apply has_set_mono.
    + now apply Forall_set.
    + now apply NoDup_keys_set.
  - (* deleteChangelist *)
    unfold ChangelistStore.deleteChangelist. simpl.
    destruct (String.eqb id "default") eqn:Eid; [discriminate|].
    apply String.eqb_neq in Eid.
    destruct (JsMap.get id m) as [changelist|]; [|discriminate].
    destruct (Changelist.hasFiles changelist).
    + destruct (JsMap.get "default" m) as [d|] eqn:Gd; [|discriminate].
      intros H. injection H as <-.
      unfold wellFormed, keysAreIds, uniqueKeys, ChangelistStore.hasChangelist.
      simpl. repeat split.
      * unfold JsMap.has. rewrite get_delete_other by congruence.
        now rewrite get_set_same.
      * apply Forall_delete, Forall_set; [assumption|]. simpl.
        rewrite fold_addFile_id. now apply (get_key_is_id m).
      * now apply NoDup_keys_delete, NoDup_keys_set.
    + intros H. injection H as <-.
      unfold wellFormed, keysAreIds, uniqueKeys, ChangelistStore.hasChangelist.
      simpl. repeat split.
      * unfold JsMap.has. now rewrite get_delete_other by congruence.
      * now apply Forall_delete.
      * now apply NoDup_keys_delete.
  - (* renameChangelist *)
    unfold ChangelistStore.renameChangelist. simpl.
    destruct (isEmpty (trim newName)); [discriminate|].
    destruct (JsMap.get id m) as [changelist|] eqn:G; [|discriminate].
    destruct (existsb _ _); [discriminate|].
    intros H. injection H as <-.
    eapply wellFormed_set; [exact Hwf | exact G | apply rename_id].
  - (* moveFiles *)
    unfold ChangelistStore.moveFiles. simpl.
    destruct (String.eqb fromId toId) eqn:Eft;
      [intros H; now injection H as <-|].
    apply String.eqb_neq in Eft.
    destruct (JsMap.get fromId m) as [fromChangelist|] eqn:Gf; [|discriminate].
    destruct (JsMap.get toId m) as [toChangelist|] eqn:Gt; [|discriminate].
    destruct (Nat.eqb _ 0); [intros H; now injection H as <-|].
    intros H. injection H as <-.
    eapply wellFormed_set.
    + eapply (wellFormed_set m a e fromId _ _ a e);
        [exact Hwf | exact Gf | apply fold_removeFile_id].
    + rewrite get_set_other by congruence. exact Gt.
    + apply fold_addFile_id.
  - (* addFileToChangelist *)
    unfold ChangelistStore.addFileToChangelist. simpl.
    destruct (JsMap.get id m) as [changelist|] eqn:G; [|discriminate].
    destruct (Changelist.hasPath _ _); [intros H; now injection H as <-|].
    intros H. injection H as <-.
    eapply wellFormed_set; [exact Hwf | exact G | apply addFile_id].
  - (* removeFileFromChangelist *)
    unfold ChangelistStore.removeFileFromChangelist. simpl.
    destruct (JsMap.get id m) as [changelist|] eqn:G; [|discriminate].
    destruct (Nat.eqb _ _); [intros H; now injection H as <-|].
    intros H. injection H as <-.
    eapply wellFormed_set; [exact Hwf | exact G | apply removeFile_id].
  - (* setActiveChangelist *)
    unfold ChangelistStore.setActiveChangelist. simpl.
    destruct (JsMap.has id m); simpl; [|discriminate].
    intros H. injection H as <-.
    pose proof (setActive_loop now id m [] Hu) as Hl. simpl in Hl.
    unfold wellFormed, keysAreIds, uniqueKeys, ChangelistStore.hasChangelist.
    simpl. rewrite Hl. repeat split.
    + unfold JsMap.has in *. rewrite get_withActiveFlag.
      now destruct (JsMap.get "default" m).
    + apply Forall_forall. intros kv HIn.
      apply in_map_iff in HIn as [kv0 [<- HIn]]. simpl.
      rewrite setActive_id. rewrite Forall_forall in Hk. now apply Hk.
    + now rewrite keys_withActiveFlag.
Qed.

Lemma step_wellFormed st c :
  wellFormed st -> wellFormed (ChangelistStore.step st c).
Proof.
  intros Hwf. unfold ChangelistStore.step.
  destruct (ChangelistStore.call (fst c) (snd c) st) eqn:E; [|assumption].
  now apply (call_wellFormed _ _ _ _ Hwf E).
Qed.

(** Every store reached from the constructor by calls of the class is well
    formed; in particular it always holds a ['default'] changelist. *)
Lemma run_wellFormed calls st :
  wellFormed st -> wellFormed (ChangelistStore.run calls st).
Proof.
  revert st. induction calls as [|c calls IH]; intros st Hwf; simpl;
    [assumption|].
  apply IH. now apply step_wellFormed.
Qed.

(** ** The active flag along sequences of calls *)

Lemma active_set_same_flag (m : JsMap.t Changelist.t) k cl old :
  JsMap.get k m = Some old ->
  Changelist.isActive cl = Changelist.isActive old ->
  length (filter Changelist.isActive (JsMap.values (JsMap.set k cl m)))
  = length (filter Changelist.isActive (JsMap.values m)).
Proof.
  unfold JsMap.values.
  induction m as [|[k' v'] m IH]; simpl; intros Hget Hflag; [discriminate|].
  destruct (String.eqb k' k) eqn:E; simpl.
  - injection Hget as Hv. subst v'. rewrite Hflag.
    now destruct (Changelist.isActive old).
  - destruct (Changelist.isActive v'); simpl; now rewrite (IH Hget Hflag).
Qed.

Lemma active_set_new (m : JsMap.t Changelist.t) k cl :
  JsMap.has k m = false -> Changelist.isActive cl = false ->
  length (filter Changelist.isActive (JsMap.values (JsMap.set k cl m)))
  = length (filter Changelist.isActive (JsMap.values m)).
Proof.
  unfold JsMap.values, JsMap.has.
  induction m as [|[k' v'] m IH]; simpl; intros Hhas Hflag.
  - now rewrite Hflag.
  - destruct (String.eqb k' k) eqn:E; [discriminate|]. simpl.
    destruct (Changelist.isActive v'); simpl; now rewrite (IH Hhas Hflag).
Qed.

Lemma active_delete_inactive (m : JsMap.t Changelist.t) k :
  NoDup (JsMap.keys m) ->
  option_map Changelist.isActive (JsMap.get k m) <> Some true ->
  length (filter Changelist.isActive (JsMap.values (JsMap.delete k m)))
  = length (filter Changelist.isActive (JsMap.values m)).
Proof.
  induction m as [|[k' v'] m IH]; intros Hnd Hflag; [reflexivity|].
  unfold JsMap.keys in Hnd. simpl in Hnd, Hflag.
  inversion Hnd as [|? ? Hk' Hm]; subst.
  unfold JsMap.delete, JsMap.values in *. simpl.
  destruct (String.eqb k' k) eqn:E; simpl.
  - apply String.eqb_eq in E. subst k'.
    fold (JsMap.delete k m). rewrite (delete_absent k m Hk').
    simpl in Hflag.
    destruct (Changelist.isActive v') eqn:Ev; [now contradiction Hflag | reflexivity].
  - destruct (Changelist.isActive v'); simpl; now rewrite (IH Hm Hflag).
Qed.

(** Every call other than the two named by [keepsActiveFlag] keeps the
    number of active changelists at one. *)
Lemma call_keeps_one_active now op st st' :
  wellFormed st -> ChangelistStore.activeCount st = 1 ->
  keepsActiveFlag op st ->
  ChangelistStore.call now op st = Ok st' ->
  ChangelistStore.activeCount st' = 1.
Proof.
  destruct st as [m a e]. intros [Hd [Hk Hu]] Hone.
  unfold keysAreIds, uniqueKeys, ChangelistStore.hasChangelist in Hd, Hk, Hu.
  unfold ChangelistStore.activeCount, ChangelistStore.getAllChangelists in *.
  simpl in Hd, Hk, Hu, Hone.
  destruct op as [freshId name description | id | id newName
                 | filePaths fromId toId | file id | file id | id]; simpl.
  - (* createChangelist *)
    unfold ChangelistStore.hasChangelist. simpl. intros Hfresh.
    unfold ChangelistStore.createChangelist. simpl.
    destruct (isEmpty (trim name)); [discriminate|].
    destruct (existsb _ _); [discriminate|].
    intros H. injection H as <-. simpl.
    now rewrite active_set_new.
  - (* deleteChangelist *)
    unfold ChangelistStore.getChangelist. simpl. intros Hflag.
    unfold ChangelistStore.deleteChangelist. simpl.
    destruct (String.eqb id "default") eqn:Eid; [discriminate|].
    apply String.eqb_neq in Eid.
    destruct (JsMap.get id m) as [changelist|] eqn:G; [|discriminate].
    destruct (Changelist.hasFiles changelist).
    + destruct (JsMap.get "default" m) as [d|] eqn:Gd; [|discriminate].
      intros H. injection H as <-. simpl.
      rewrite active_delete_inactive.
      * rewrite (active_set_same_flag m "default" _ d Gd); [assumption|].
        apply fold_addFile_isActive.
      * now apply NoDup_keys_set.
      * rewrite get_set_other by assumption. now rewrite G.
    + intros H. injection H as <-. simpl.
      rewrite active_delete_inactive; [assumption | assumption |].
      now rewrite G.
  - (* renameChangelist *)
    intros _. unfold ChangelistStore.renameChangelist. simpl.
    destruct (isEmpty (trim newName)); [discriminate|].
    destruct (JsMap.get id m) as [changelist|] eqn:G; [|discriminate].
    destruct (existsb _ _); [discriminate|].
    intros H. injection H as <-. simpl.
    rewrite (active_set_same_flag m id _ changelist G); [assumption|].
    apply rename_isActive.
  - (* moveFiles *)
    intros _. unfold ChangelistStore.moveFiles. simpl.
    destruct (String.eqb fromId toId) eqn:Eft;
      [intros H; now injection H as <-|].
    apply String.eqb_neq in Eft.
    destruct (JsMap.get fromId m) as [fromChangelist|] eqn:Gf; [|discriminate].
    destruct (JsMap.get toId m) as [toChangelist|] eqn:Gt; [|discriminate].
    destruct (Nat.eqb _ 0); [intros H; now injection H as <-|].
    intros H. injection H as <-. simpl.
    rewrite (active_set_same_flag _ toId _ toChangelist).
    + rewrite (active_set_same_flag m fromId _ fromChangelist Gf); [assumption|].
      apply fold_removeFile_isActive.
    + rewrite get_set_other by congruence. exact Gt.
    + apply fold_addFile_isActive.
  - (* addFileToChangelist *)
    intros _. unfold ChangelistStore.addFileToChangelist. simpl.
    destruct (JsMap.get id m) as [changelist|] eqn:G; [|discriminate].
    destruct (Changelist.hasPath _ _); [intros H; now injection H as <-|].
    intros H. injection H as <-. simpl.
    rewrite (active_set_same_flag m id _ changelist G); [assumption|].
    apply addFile_isActive.
  - (* removeFileFromChangelist *)
    intros _. unfold ChangelistStore.removeFileFromChangelist. simpl.
    destruct (JsMap.get id m) as [changelist|] eqn:G; [|discriminate].
    destruct (Nat.eqb _ _); [intros H; now injection H as <-|].
    intros H. injection H as <-. simpl.
    rewrite (active_set_same_flag m id _ changelist G); [assumption|].
    apply removeFile_isActive.
  - (* setActiveChangelist *)
    intros _ H.
    apply (setActiveChangelist_exactly_one_active now id
             (ChangelistStore.make m a e) st' Hu H).
Qed.

(** The spec's sequence property, and more: along every sequence of calls
    that neither deletes the changelist carrying the active flag nor reuses
    an id, exactly one changelist of [getAllChangelists] is active. *)
Lemma run_keeps_one_active calls st :
  wellFormed st -> ChangelistStore.activeCount st = 1 ->
  keepActiveFlag calls st ->
  ChangelistStore.activeCount (ChangelistStore.run calls st) = 1.
Proof.
  revert st. induction calls as [|c calls IH]; intros st Hwf Hone Hsafe; simpl;
    [assumption|].
  destruct Hsafe as [Hc Hrest].
  apply IH; [now apply step_wellFormed | | assumption].
  unfold ChangelistStore.step.
  destruct (ChangelistStore.call (fst c) (snd c) st) eqn:E; [|assumption].
  now apply (call_keeps_one_active (fst c) (snd c) st).
Qed.

(** C2, on the code: create a changelist, make it active and delete it.
    All three calls succeed.  Before the deletion exactly one changelist is
    flagged active; afterwards the active pointer names ['default'] but no
    changelist of [getAllChangelists] has its [isActive] flag set, the
    default changelist included. *)
Theorem deleteChangelist_of_active_leaves_no_active_flag :
  exists cl st1 st2 st3,
    ChangelistStore.activeCount (ChangelistStore.create 0) = 1
    /\ ChangelistStore.createChangelist "changelist_1_x" 1 "Feature" None
         (ChangelistStore.create 0) = Ok (cl, st1)
    /\ ChangelistStore.setActiveChangelist 2 "changelist_1_x" st1 = Ok st2
    /\ ChangelistStore.activeCount st2 = 1
    /\ ChangelistStore.deleteChangelist 3 "changelist_1_x" st2 = Ok st3
    /\ ChangelistStore.run Sample.createActivateDelete (ChangelistStore.create 0)
       = st3
    /\ ChangelistStore.activeCount st3 = 0
    /\ ChangelistStore.activeChangelistId st3 = "default"
    /\ map Changelist.id (ChangelistStore.getAllChangelists st3) = ["default"]
    /\ option_map Changelist.isActive (ChangelistStore.getActiveChangelist st3)
       = Some false.
Proof.
  do 4 eexists.
  split; [reflexivity|].
  split; [vm_compute; reflexivity|].
  split; [vm_compute; reflexivity|].
  split; [reflexivity|].
  split; [vm_compute; reflexivity|].
  split; [vm_compute; reflexivity|].
  repeat split.
Qed.

(** ** ShelvedFile conflict detection *)

Lemma canRestore_original file :
  ShelvedFile.canRestore file (ShelvedFile.originalContent file) = true.
Proof. unfold ShelvedFile.canRestore. apply String.eqb_refl. Qed.

Lemma detectConflicts_restorable file currentContent :
  ShelvedFile.canRestore file currentContent = true ->
  ShelvedFile.detectConflicts file currentContent = [].
Proof. unfold ShelvedFile.detectConflicts. now intros ->. Qed.

(** C7: with original a/b/c and shelved a/X/c, the content a/Y/c gives
    exactly one conflict, the one of line 2 (whatever the path, status and
    encoding of the shelved file); and for every shelved file, content equal
    to the original can be restored and has no conflicts. *)
Theorem detectConflicts_example_and_unchanged_content :
  (forall (p r : string) (s : FileChangeStatus) (e : string),
      ShelvedFile.detectConflicts
        (ShelvedFile.make p r (text ["a"; "b"; "c"]) (text ["a"; "X"; "c"]) s e)
        (text ["a"; "Y"; "c"])
      = ["Line 2: conflicting changes"])
  /\ (forall file : ShelvedFile.t,
        ShelvedFile.canRestore file (ShelvedFile.originalContent file) = true
        /\ ShelvedFile.detectConflicts file (ShelvedFile.originalContent file) = []).
Proof.
  split.
  - intros p r s e. reflexivity.
  - intros file. split; [apply canRestore_original|].
    apply detectConflicts_restorable, canRestore_original.
Qed.

(** ** ShelveStore: creating a shelf *)

Lemma readFile_found p content w :
  JsMap.get p (ShelveStore.disk w) = Some content ->
  ShelveStore.readFile p w = (Ok content, w).
Proof. unfold ShelveStore.readFile. now intros ->. Qed.

Lemma readFile_missing p w :
  JsMap.get p (ShelveStore.disk w) = None ->
  exists msg, ShelveStore.readFile p w = (Throw msg, w).
Proof. unfold ShelveStore.readFile. intros ->. now eexists. Qed.

(** Without interference the two reads see the same disk. *)
Lemma createShelvedFile_as_interleaved file w :
  ShelveStore.createShelvedFile file w
  = ShelveStore.createShelvedFileInterleaved (ShelveStore.disk w) file w.
Proof.
  unfold ShelveStore.createShelvedFile, ShelveStore.createShelvedFileInterleaved,
    ShelveStore.bind.
  destruct (ShelveStore.readFile (FileChange.path file) w) as [[c|m] w'] eqn:R;
    [|reflexivity].
  assert (Hw : w' = w).
  { unfold ShelveStore.readFile in R.
    destruct (JsMap.get _ _); now inversion R. }
  subst w'. now destruct w.
Qed.

(** C4: when both reads of [createShelvedFile] return the same content, the
    shelved file is created with that content as its shelved content and as
    its original content; against that content the file can be restored and
    [detectConflicts] finds nothing.  The second read may see a disk changed
    elsewhere, as long as this file reads the same. *)
Theorem createShelvedFile_baseline_equals_shelved
    (w : ShelveStore.World) (diskAtSecondRead : ShelveStore.FileSystem)
    (f : FileChange.t) (content : string) :
  JsMap.get (FileChange.path f) (ShelveStore.disk w) = Some content ->
  JsMap.get (FileChange.path f) diskAtSecondRead = Some content ->
  exists file,
    fst (ShelveStore.createShelvedFileInterleaved diskAtSecondRead f w) = Ok file
    /\ ShelvedFile.shelvedContent file = content
    /\ ShelvedFile.originalContent file = ShelvedFile.shelvedContent file
    /\ ShelvedFile.canRestore file content = true
    /\ ShelvedFile.detectConflicts file content = [].
Proof.
  intros H1 H2.
  unfold ShelveStore.createShelvedFileInterleaved, ShelveStore.bind.
  rewrite (readFile_found _ _ _ H1).
  unfold ShelveStore.getOriginalContent, ShelveStore.tryCatch.
  rewrite (readFile_found (FileChange.path f) content); [|exact H2].
  simpl. eexists. split; [reflexivity|]. simpl.
  assert (Hc : ShelvedFile.canRestore
                 (ShelvedFile.make (FileChange.path f) (FileChange.relativePath f)
                    content content (FileChange.status f) "utf8") content = true)
    by apply String.eqb_refl.
  repeat split; [exact Hc | now apply detectConflicts_restorable].
Qed.

Lemma createShelvedFile_baseline_equals_shelved_witness :
  exists file,
    fst (ShelveStore.createShelvedFile Sample.fileA Sample.cleanWorld) = Ok file
    /\ ShelvedFile.shelvedContent file = text ["let x = 1;"; "export {};"]
    /\ ShelvedFile.originalContent file = ShelvedFile.shelvedContent file
    /\ ShelvedFile.detectConflicts file (text ["let x = 1;"; "export {};"]) = [].
Proof.
  destruct (createShelvedFile_baseline_equals_shelved Sample.cleanWorld
              (ShelveStore.disk Sample.cleanWorld) Sample.fileA
              (text ["let x = 1;"; "export {};"]))
    as [file [Hok [Hs [Ho [_ Hd]]]]].
  - reflexivity.
  - reflexivity.
  - exists file. rewrite createShelvedFile_as_interleaved.
    repeat split; assumption.
Defined.

(** Every file of a shelf created from readable files has its shelved
    content as baseline. *)
Lemma createShelvedFile_readable file w :
  JsMap.has (FileChange.path file) (ShelveStore.disk w) = true ->
  exists shelved,
    ShelveStore.createShelvedFile file w = (Ok shelved, w)
    /\ ShelvedFile.originalContent shelved = ShelvedFile.shelvedContent shelved.
Proof.
  unfold JsMap.has. intros H.
  destruct (JsMap.get (FileChange.path file) (ShelveStore.disk w)) as [c|] eqn:G;
    [|discriminate].
  unfold ShelveStore.createShelvedFile, ShelveStore.bind,
    ShelveStore.getOriginalContent, ShelveStore.tryCatch.
  rewrite (readFile_found _ _ _ G). cbv beta iota.
  rewrite (readFile_found _ _ _ G). eexists. split; reflexivity.
Qed.

Lemma createShelvedFiles_readable files w :
  Forall (fun f => JsMap.has (FileChange.path f) (ShelveStore.disk w) = true)
         files ->
  exists shelved,
    ShelveStore.mapM ShelveStore.createShelvedFile files w = (Ok shelved, w)
    /\ Forall (fun sf => ShelvedFile.originalContent sf
                         = ShelvedFile.shelvedContent sf) shelved.
Proof.
  induction 1 as [|f files Hf Hfiles IH]; simpl.
  - eexists. split; [reflexivity | constructor].
  - destruct (createShelvedFile_readable f w Hf) as [sf [E Hsf]].
    destruct IH as [sfs [Es Hsfs]].
    unfold ShelveStore.bind. rewrite E, Es.
    eexists. split; [reflexivity | now constructor].
Qed.

Lemma createShelf_baseline freshId now name files description w :
  files <> [] ->
  Forall (fun f => JsMap.has (FileChange.path f) (ShelveStore.disk w) = true)
         files ->
  exists shelf w',
    ShelveStore.createShelf true freshId now name files false description w
      = (Ok shelf, w')
    /\ ShelveStore.disk w' = ShelveStore.disk w
    /\ JsMap.get freshId (ShelveStore.shelves w') = Some shelf
    /\ Forall (fun sf => ShelvedFile.originalContent sf
                         = ShelvedFile.shelvedContent sf) (Shelf.files shelf).
Proof.
  intros Hne Hall.
  destruct (createShelvedFiles_readable files w Hall) as [sfs [E Hsfs]].
  unfold ShelveStore.createShelf.
  destruct files as [|f files]; [contradiction|].
  cbn [negb length Nat.eqb].
  unfold ShelveStore.bind at 1. rewrite E.
  eexists. eexists. split; [reflexivity|]. simpl.
  rewrite get_set_same. repeat split. assumption.
Qed.

(** ** ShelveStore: unshelving *)

(** [previewUnshelve] reads but never writes. *)
Lemma previewStep_pure acc file w :
  snd (ShelveStore.previewStep acc file w) = w.
Proof.
  unfold ShelveStore.previewStep. destruct acc as [cf ds].
  unfold ShelveStore.tryCatch, ShelveStore.bind, ShelveStore.readFile.
  destruct (JsMap.get (ShelvedFile.path file) (ShelveStore.disk w)); [|reflexivity].
  destruct (Nat.ltb 0 _); reflexivity.
Qed.

Lemma previewStep_ok acc file w :
  exists acc', ShelveStore.previewStep acc file w = (Ok acc', w).
Proof.
  unfold ShelveStore.previewStep. destruct acc as [cf ds].
  unfold ShelveStore.tryCatch, ShelveStore.bind, ShelveStore.readFile.
  destruct (JsMap.get (ShelvedFile.path file) (ShelveStore.disk w));
    [|eexists; reflexivity].
  destruct (Nat.ltb 0 _); eexists; reflexivity.
Qed.

Lemma previewLoop_ok files acc w :
  exists acc', ShelveStore.foldM ShelveStore.previewStep files acc w = (Ok acc', w).
Proof.
  revert acc. induction files as [|file files IH]; intros acc; simpl.
  - eexists. reflexivity.
  - unfold ShelveStore.bind.
    destruct (previewStep_ok acc file w) as [acc1 ->]. apply IH.
Qed.

Lemma previewUnshelve_pure shelfId w :
  snd (ShelveStore.previewUnshelve shelfId w) = w.
Proof.
  unfold ShelveStore.previewUnshelve, ShelveStore.bind, ShelveStore.getShelf.
  destruct (JsMap.get shelfId (ShelveStore.shelves w)) as [shelf|]; [|reflexivity].
  destruct (previewLoop_ok (Shelf.files shelf) ([], []) w) as [[cf ds] ->].
  reflexivity.
Qed.

(** First half of C1, which the code honours: when the preview reports
    conflicts and [forceMerge] is not set, [unshelve] throws and the world
    (disk, shelves, storage, notifications) is as before. *)
Lemma unshelve_conflicts_throw_without_writing shelfId options w report :
  fst (ShelveStore.previewUnshelve shelfId w) = Ok report ->
  ShelveStore.hasConflicts report = true ->
  ShelveStore.truthy (ShelveStore.forceMerge options) = false ->
  exists msg, ShelveStore.unshelve shelfId options w = (Throw msg, w).
Proof.
  intros Hp Hc Hf.
  pose proof (previewUnshelve_pure shelfId w) as Hw.
  destruct (ShelveStore.previewUnshelve shelfId w) as [r w'] eqn:P.
  simpl in Hp, Hw. subst r w'.
  unfold ShelveStore.unshelve, ShelveStore.bind.
  unfold ShelveStore.getShelf at 1.
  destruct (JsMap.get shelfId (ShelveStore.shelves w)) as [shelf|] eqn:G.
  - rewrite P, Hc, Hf. simpl. eexists. reflexivity.
  - unfold ShelveStore.previewUnshelve, ShelveStore.bind, ShelveStore.getShelf in P.
    rewrite G in P. discriminate.
Qed.

(** An instance: the shelved line was also edited on disk. *)
Lemma unshelve_conflicting_world_untouched :
  exists msg,
    ShelveStore.unshelve "shelf_1" ShelveStore.defaultOptions Sample.conflictingWorld
    = (Throw msg, Sample.conflictingWorld).
Proof.
  apply (unshelve_conflicts_throw_without_writing "shelf_1"
           ShelveStore.defaultOptions Sample.conflictingWorld
           (ShelveStore.mkConflictReport true ["notes.txt"] true
              [ShelveStore.mkConflictDetails "notes.txt"
                 ["Line 2: conflicting changes"] true]));
    reflexivity.
Qed.

(** [restoreFile] writes the shelved content in every case: the error thrown
    for a file that cannot be restored is caught by the handler meant for a
    missing file, which then writes. *)
Lemma restoreFile_always_writes file forceMerge w :
  ShelveStore.restoreFile file forceMerge w
  = (Ok tt,
     ShelveStore.mkWorld (ShelveStore.shelves w)
       (JsMap.set (ShelvedFile.path file) (ShelvedFile.shelvedContent file)
                  (ShelveStore.disk w))
       (ShelveStore.storage w) (ShelveStore.changeEvents w)).
Proof.
  unfold ShelveStore.restoreFile, ShelveStore.tryCatch.
  destruct forceMerge; [reflexivity|].
  unfold ShelveStore.bind at 1, ShelveStore.readFile.
  destruct (JsMap.get (ShelvedFile.path file) (ShelveStore.disk w)) as [c|];
    [|reflexivity].
  destruct (ShelvedFile.canRestore file c); reflexivity.
Qed.

(** C1, on the code: the shelf holds an edit of line 2 of notes.txt, and
    line 1 of the file on disk was edited since.  The preview reports no
    conflict, [canRestore] is false for the content on disk, and [unshelve]
    without [forceMerge] nevertheless returns normally, having replaced the
    file by the shelved content and deleted the shelf. *)
Theorem unshelve_overwrites_unrestorable_file :
  ShelveStore.readFile "/w/notes.txt" Sample.editedWorld
    = (Ok (text ["Y"; "b"]), Sample.editedWorld)
  /\ ShelvedFile.canRestore Sample.shelvedNotes (text ["Y"; "b"]) = false
  /\ ShelveStore.previewUnshelve "shelf_1" Sample.editedWorld
     = (Ok (ShelveStore.mkConflictReport false [] true []), Sample.editedWorld)
  /\ ShelveStore.unshelve "shelf_1" ShelveStore.defaultOptions Sample.editedWorld
     = (Ok tt,
        ShelveStore.mkWorld [] [("/w/notes.txt", text ["a"; "X"])] [] 1).
Proof.
  repeat split.
Qed.

(** ** The gutter diff parser *)

Import GutterDecorationService.

Lemma ChangeType_eqb_eq a b : ChangeType_eqb a b = true <-> a = b.
Proof. destruct a, b; simpl; split; congruence. Qed.

Lemma linesOf_one ty line :
  linesOf (mkLineChange ty line line) = [(ty, line)].
Proof.
  unfold linesOf. simpl.
  replace (line - line + 1)%Z with 1%Z by lia. simpl.
  now rewrite Z.add_0_r.
Qed.

Lemma linesOf_extend ty s e :
  (s <= e)%Z ->
  linesOf (mkLineChange ty s (e + 1)) = linesOf (mkLineChange ty s e) ++ [(ty, (e + 1)%Z)].
Proof.
  intros Hse. unfold linesOf. simpl.
  replace (Z.to_nat (e + 1 - s + 1)) with (S (Z.to_nat (e - s + 1))) by lia.
  rewrite seq_S, map_app. simpl. do 3 f_equal. lia.
Qed.

Lemma addOrExtendChange_lines cs ty line :
  Forall properRange cs ->
  flat_map linesOf (addOrExtendChange cs ty line)
  = flat_map linesOf cs ++ [(ty, line)].
Proof.
  induction cs as [|c rest IH]; intros Hp.
  - simpl. now rewrite linesOf_one.
  - inversion Hp as [|? ? Hc Hrest]; subst.
    destruct rest as [|c' rest'].
    + cbn [addOrExtendChange].
      destruct (ChangeType_eqb (type c) ty && Z.eqb (endLine c) (line - 1)) eqn:E.
      * apply andb_true_iff in E as [Et El].
        apply ChangeType_eqb_eq in Et. apply Z.eqb_eq in El.
        destruct c as [t s e]. simpl in *. subst t.
        unfold properRange in Hc. simpl in Hc.
        replace line with (e + 1)%Z by lia.
        rewrite linesOf_extend by assumption. now rewrite !app_nil_r.
      * simpl. rewrite linesOf_one. now rewrite !app_nil_r.
    + change (addOrExtendChange (c :: c' :: rest') ty line)
        with (c :: addOrExtendChange (c' :: rest') ty line).
      cbn [flat_map]. rewrite IH by assumption.
      cbn [flat_map]. now rewrite !app_assoc.
Qed.

Lemma addOrExtendChange_proper cs ty line :
  Forall properRange cs -> Forall properRange (addOrExtendChange cs ty line).
Proof.
  induction cs as [|c rest IH]; intros Hp.
  - simpl. constructor; [|constructor]. unfold properRange. simpl. lia.
  - inversion Hp as [|? ? Hc Hrest]; subst.
    destruct rest as [|c' rest'].
    + cbn [addOrExtendChange].
      destruct (ChangeType_eqb (type c) ty && Z.eqb (endLine c) (line - 1)) eqn:E.
      * apply andb_true_iff in E as [_ El]. apply Z.eqb_eq in El.
        constructor; [|constructor].
        unfold properRange in *. simpl. lia.
      * constructor; [assumption|]. constructor; [|constructor].
        unfold properRange. simpl. lia.
    + change (addOrExtendChange (c :: c' :: rest') ty line)
        with (c :: addOrExtendChange (c' :: rest') ty line).
      constructor; [assumption | now apply IH].
Qed.

(** The first range of a non-empty list keeps its type and start. *)
Lemma addOrExtendChange_head c rest ty line :
  exists c1 rest1,
    addOrExtendChange (c :: rest) ty line = c1 :: rest1
    /\ type c1 = type c /\ startLine c1 = startLine c
    /\ (rest <> [] -> endLine c1 = endLine c).
Proof.
  destruct rest as [|c' rest'].
  - cbn [addOrExtendChange].
    destruct (ChangeType_eqb (type c) ty && Z.eqb (endLine c) (line - 1));
      eexists; eexists; (split; [reflexivity|]); simpl; repeat split;
      intros H; now contradiction H.
  - change (addOrExtendChange (c :: c' :: rest') ty line)
      with (c :: addOrExtendChange (c' :: rest') ty line).
    eexists. eexists. split; [reflexivity|]. repeat split.
Qed.

Lemma addOrExtendChange_coalesced cs ty line :
  coalesced cs -> coalesced (addOrExtendChange cs ty line).
Proof.
  induction cs as [|c rest IH]; intros Hco.
  - simpl. exact I.
  - destruct rest as [|c' rest'].
    + cbn [addOrExtendChange].
      destruct (ChangeType_eqb (type c) ty && Z.eqb (endLine c) (line - 1)) eqn:E.
      * simpl. exact I.
      * simpl. split; [|exact I].
        intros [Ht Hl]. apply andb_false_iff in E as [E | E].
        -- rewrite <- Ht in E.
           assert (ChangeType_eqb (type c) (type c) = true)
             by now apply ChangeType_eqb_eq.
           congruence.
        -- apply Z.eqb_neq in E. lia.
    + change (addOrExtendChange (c :: c' :: rest') ty line)
        with (c :: addOrExtendChange (c' :: rest') ty line).
      destruct Hco as [Hadj Hco].
      destruct (addOrExtendChange_head c' rest' ty line)
        as [c1 [rest1 [Eq [Ht [Hs _]]]]].
      specialize (IH Hco). rewrite Eq in IH |- *.
      cbn [coalesced]. split; [|exact IH].
      rewrite Ht, Hs. exact Hadj.
Qed.

Lemma parseLine_proper st line :
  Forall properRange (changes st) ->
  Forall properRange (changes (parseLine st line)).
Proof.
  intros Hp. unfold parseLine.
  destruct (String.prefix "@@" line).
  - destruct (matchHunk line); assumption.
  - destruct (inHunk st); [|assumption].
    destruct (String.prefix "+" line);
      [now apply addOrExtendChange_proper|].
    destruct (String.prefix "-" line);
      [now apply addOrExtendChange_proper|].
    destruct (negb (String.prefix backslash line)); assumption.
Qed.

Lemma parseLine_coalesced st line :
  coalesced (changes st) -> coalesced (changes (parseLine st line)).
Proof.
  intros Hp. unfold parseLine.
  destruct (String.prefix "@@" line).
  - destruct (matchHunk line); assumption.
  - destruct (inHunk st); [|assumption].
    destruct (String.prefix "+" line);
      [now apply addOrExtendChange_coalesced|].
    destruct (String.prefix "-" line);
      [now apply addOrExtendChange_coalesced|].
    destruct (negb (String.prefix backslash line)); assumption.
Qed.

Lemma parseLines_invariants lines st :
  Forall properRange (changes st) -> coalesced (changes st) ->
  Forall properRange (changes (parseLines lines st))
  /\ coalesced (changes (parseLines lines st)).
Proof.
  revert st. induction lines as [|line lines IH]; intros st Hp Hc; simpl.
  - now split.
  - apply IH; [now apply parseLine_proper | now apply parseLine_coalesced].
Qed.

(** The ranges, read first to last and line by line, are the marks in the
    order in which the parser met them. *)
Lemma parseLines_marks lines st :
  Forall properRange (changes st) ->
  flat_map linesOf (changes (parseLines lines st))
  = flat_map linesOf (changes st)
    ++ marksFrom lines (currentLine st) (inHunk st).
Proof.
  revert st. induction lines as [|line lines IH]; intros st Hp.
  - simpl. now rewrite app_nil_r.
  - change (parseLines (line :: lines) st)
      with (parseLines lines (parseLine st line)).
    rewrite (IH _ (parseLine_proper st line Hp)).
    unfold parseLine. cbn [marksFrom].
    destruct (String.prefix "@@" line).
    + destruct (matchHunk line); reflexivity.
    + destruct (inHunk st) eqn:Hin; [|simpl; now rewrite Hin].
      destruct (String.prefix "+" line).
      * simpl. rewrite addOrExtendChange_lines by assumption.
        now rewrite <- app_assoc.
      * destruct (String.prefix "-" line).
        -- simpl. rewrite addOrExtendChange_lines by assumption.
           now rewrite <- app_assoc.
        -- destruct (negb (String.prefix backslash line)); simpl;
             now rewrite ?Hin.
Qed.

Lemma parseLine_not_header_outside_hunk st line :
  inHunk st = false -> isHunkHeader line = false -> parseLine st line = st.
Proof.
  unfold isHunkHeader, parseLine. intros Hin Hh.
  destruct (String.prefix "@@" line); simpl in Hh.
  - destruct (matchHunk line); [discriminate | reflexivity].
  - now rewrite Hin.
Qed.

Lemma parseLines_without_headers lines st :
  inHunk st = false ->
  Forall (fun line => isHunkHeader line = false) lines ->
  parseLines lines st = st.
Proof.
  intros Hin Hall. induction Hall as [|line lines Hl Hall IH]; [reflexivity|].
  change (parseLines (line :: lines) st)
    with (parseLines lines (parseLine st line)).
  now rewrite (parseLine_not_header_outside_hunk st line Hin Hl).
Qed.

(** C5, as stated: the parser does not return the ranges deleted 1..1 and
    added 2..3 for the worked example. *)
Lemma parseDiff_not_one_based_ranges :
  parseDiff (text ["@@ -1,3 +1,4 @@"; " unchanged"; "-removed line";
                   "+added line"; "+second added"])
  <> [mkLineChange deleted 1 1; mkLineChange added 2 3].
Proof. vm_compute. discriminate. Qed.

(** C5, amended: for the worked example the parser returns the ranges
    deleted 0..0 and added 1..2.  The counter starts at c - 1 = 0, the
    context line moves it to 1, the removed line is marked on the line
    before (0), and the two added lines are 1 and 2. *)
Theorem parseDiff_worked_example_zero_based :
  parseDiff (text ["@@ -1,3 +1,4 @@"; " unchanged"; "-removed line";
                   "+added line"; "+second added"])
  = [mkLineChange deleted 0 0; mkLineChange added 1 2].
Proof. vm_compute. reflexivity. Qed.

(** C6, as stated: ranges of the output can overlap.  Two neighbouring
    deleted lines are both marked on the line before them, and a mark on
    the same line as the last range does not extend it: the output holds
    the range deleted 0..0 twice. *)
Lemma parseDiff_ranges_can_overlap :
  parseDiff Sample.twoDeletions
    = [mkLineChange deleted 0 0; mkLineChange deleted 0 0]
  /\ noOverlaps (parseDiff Sample.twoDeletions) = false
  /\ ~ (forall diff : string, noOverlaps (parseDiff diff) = true).
Proof.
  split; [vm_compute; reflexivity|].
  split; [vm_compute; reflexivity|].
  intros H. specialize (H Sample.twoDeletions). vm_compute in H. discriminate.
Qed.

(** C6, amended: for every diff text, (1) the ranges of the output, read
    first to last and line by line, are exactly the marked lines in the
    order in which the parser met them; (2) every range is non-empty and no
    range is followed by a same-type range starting right after its end
    (overlap is not excluded); (3) without a hunk header among the lines the
    output is empty; (4) a line starting with [@@] that does not match the
    hunk-header pattern leaves the parser state, hunk mode included, as it
    was. *)
Theorem parseDiff_order_coalescing_and_headers (diff : string) :
  flat_map linesOf (parseDiff diff) = marks diff
  /\ Forall properRange (parseDiff diff)
  /\ coalesced (parseDiff diff)
  /\ (Forall (fun line => isHunkHeader line = false) (splitLines diff) ->
      parseDiff diff = [])
  /\ (forall (st : ParseState) (line : string),
        String.prefix "@@" line = true -> matchHunk line = None ->
        parseLine st line = st).
Proof.
  unfold parseDiff, marks.
  assert (Hp0 : Forall properRange (changes initialState)) by constructor.
  assert (Hc0 : coalesced (changes initialState)) by exact I.
  destruct (parseLines_invariants (splitLines diff) initialState Hp0 Hc0)
    as [Hp Hc].
  split; [|split; [exact Hp | split; [exact Hc | split]]].
  - now rewrite (parseLines_marks (splitLines diff) initialState Hp0).
  - intros Hall.
    now rewrite (parseLines_without_headers (splitLines diff) initialState).
  - intros st line Hpre Hm. unfold parseLine. now rewrite Hpre, Hm.
Qed.

Lemma parseDiff_order_coalescing_and_headers_witness :
  parseDiff (text ["@@ -1,3 +1 @"; "+added"; "-removed"]) = []
  /\ parseLine (mkParseState [mkLineChange added 4 4] 5 true) "@@ -1,3 +1 @"
     = mkParseState [mkLineChange added 4 4] 5 true
  /\ flat_map linesOf (parseDiff Sample.exampleDiff)
     = [(deleted, 0%Z); (added, 1%Z); (added, 2%Z)].
Proof.
  destruct (parseDiff_order_coalescing_and_headers
              (text ["@@ -1,3 +1 @"; "+added"; "-removed"]))
    as [_ [_ [_ [Hempty Hskip]]]].
  destruct (parseDiff_order_coalescing_and_headers Sample.exampleDiff)
    as [Horder _].
  split; [|split].
  - apply Hempty. vm_compute. repeat constructor.
  - apply Hskip; reflexivity.
  - rewrite Horder. vm_compute. reflexivity.
Defined.

(** ** Status detection *)

(** The fallback looks at the buckets in the order untracked, modified,
    staged, deleted, added, conflicted: a modified path that is not
    untracked is Modified whatever the conflicted bucket holds. *)
Lemma detectStatusWithGitProvider_modified_first status relativePath :
  includes relativePath (FileStatusService.untracked status) = false ->
  includes relativePath (FileStatusService.modified status) = true ->
  FileStatusService.detectStatusWithGitProvider (Ok status) relativePath
  = FileStatusService.Modified.
Proof.
  intros Hu Hm. unfold FileStatusService.detectStatusWithGitProvider.
  now rewrite Hu, Hm.
Qed.

(** The branch of [detectFileStatus] that uses the built-in Git extension
    does put conflicts first. *)
Lemma detectWithGitExtension_conflict_first state fsPath :
  includes fsPath (FileStatusService.mergeChanges state) = true ->
  FileStatusService.detectWithGitExtension state fsPath
  = Some FileStatusService.Conflicted.
Proof.
  intros H. unfold FileStatusService.detectWithGitExtension. now rewrite H.
Qed.

(** Likewise a path that is both staged and modified is Modified in the
    fallback, Staged with the built-in extension. *)
Lemma detectStatusWithGitProvider_staged_and_modified :
  FileStatusService.detectStatusWithGitProvider
    (Ok (FileStatusService.mkGitStatus [] [] [] ["src/a.ts"] [] ["src/a.ts"] [] []))
    "src/a.ts"
  = FileStatusService.Modified
  /\ FileStatusService.detectWithGitExtension
       (FileStatusService.mkRepositoryState [("/w/src/a.ts", 5)] ["/w/src/a.ts"] [] [])
       "/w/src/a.ts"
     = Some FileStatusService.Staged.
Proof. split; reflexivity. Qed.

(** C3, on the code: for a status whose conflicted and modified buckets both
    hold src/a.ts, the fallback classification of src/a.ts is Modified, not
    Conflicted. *)
Theorem detectStatusWithGitProvider_conflicted_and_modified :
  includes "src/a.ts" (FileStatusService.conflicted Sample.mergeStatus) = true
  /\ includes "src/a.ts" (FileStatusService.modified Sample.mergeStatus) = true
  /\ FileStatusService.detectStatusWithGitProvider (Ok Sample.mergeStatus) "src/a.ts"
     = FileStatusService.Modified
  /\ FileStatusService.detectStatusWithGitProvider (Ok Sample.mergeStatus) "src/a.ts"
     <> FileStatusService.Conflicted.
Proof.
  repeat split. vm_compute. discriminate.
Qed.

(* ================================================================= *)
(** * Further properties of the code *)

(* ================================================================= *)
(** ** Changelist: removing, updating and selecting files *)

Lemma removeFile_files now cl p :
  Changelist.files (Changelist.removeFile now cl p)
  = filter (fun f => negb (String.eqb (FileChange.path f) p)) (Changelist.files cl).
Proof.
  unfold Changelist.removeFile.
  destruct (Nat.eqb _ _) eqn:E; [|reflexivity].
  apply Nat.eqb_eq in E. simpl.
  induction (Changelist.files cl) as [|f fs IH]; [reflexivity|].
  simpl in *. destruct (negb (String.eqb (FileChange.path f) p)).
  - simpl in E. injection E as E. now rewrite <- IH.
  - pose proof (filter_length_le
                  (fun f => negb (String.eqb (FileChange.path f) p)) fs).
    lia.
Qed.

Lemma filter_absent_path p fs :
  Changelist.hasPath p fs = false ->
  filter (fun f => negb (String.eqb (FileChange.path f) p)) fs = fs.
Proof.
  induction fs as [|f fs IH]; simpl; intros H; [reflexivity|].
  apply orb_false_iff in H as [Hf Hfs]. rewrite Hf. simpl. now rewrite IH.
Qed.

Lemma hasPath_filter_other p q fs :
  q <> p ->
  Changelist.hasPath q (filter (fun f => negb (String.eqb (FileChange.path f) p)) fs)
  = Changelist.hasPath q fs.
Proof.
  intros Hne. induction fs as [|f fs IH]; simpl; [reflexivity|].
  destruct (String.eqb (FileChange.path f) p) eqn:E; simpl.
  - apply String.eqb_eq in E.
    destruct (String.eqb (FileChange.path f) q) eqn:E'.
    + apply String.eqb_eq in E'. congruence.
    + exact IH.
  - now rewrite IH.
Qed.

Lemma hasPath_filter_same p fs :
  Changelist.hasPath p (filter (fun f => negb (String.eqb (FileChange.path f) p)) fs)
  = false.
Proof.
  induction fs as [|f fs IH]; simpl; [reflexivity|].
  destruct (String.eqb (FileChange.path f) p) eqn:E; simpl; [exact IH|].
  now rewrite E.
Qed.

(** X1: [removeFile] of a path that no file has returns the changelist
    itself; otherwise no file with that path is left and the presence of
    every other path is unchanged; and removing the path of a file that was
    just added to a changelist without that path gives back the old file
    list. *)
Theorem removeFile_removes_exactly_the_path
    (now now' : Z) (cl : Changelist.t) (p : string) :
  (Changelist.hasPath p (Changelist.files cl) = false ->
   Changelist.removeFile now cl p = cl)
  /\ Changelist.hasPath p (Changelist.files (Changelist.removeFile now cl p)) = false
  /\ (forall q, q <> p ->
        Changelist.hasPath q (Changelist.files (Changelist.removeFile now cl p))
        = Changelist.hasPath q (Changelist.files cl))
  /\ (forall f, FileChange.path f = p ->
        Changelist.hasPath p (Changelist.files cl) = false ->
        Changelist.files
          (Changelist.removeFile now' (Changelist.addFile now cl f) p)
        = Changelist.files cl).
Proof.
  split; [|split; [|split]].
  - intros H. unfold Changelist.removeFile.
    rewrite (filter_absent_path p _ H). now rewrite Nat.eqb_refl.
  - rewrite removeFile_files. apply hasPath_filter_same.
  - intros q Hq. rewrite removeFile_files. now apply hasPath_filter_other.
  - intros f Hf H. subst p. rewrite removeFile_files, (addFile_fresh now cl f H).
    rewrite filter_app, (filter_absent_path _ _ H). simpl.
    rewrite String.eqb_refl. simpl. apply app_nil_r.
Qed.

Lemma removeFile_removes_exactly_the_path_witness :
  Changelist.removeFile 7 Sample.defaultList "/w/src/b.ts" = Sample.defaultList
  /\ Changelist.files
       (Changelist.removeFile 8 (Changelist.addFile 7 Sample.defaultList Sample.fileB)
                              "/w/src/b.ts")
     = Changelist.files Sample.defaultList.
Proof.
  destruct (removeFile_removes_exactly_the_path 7 8 Sample.defaultList "/w/src/b.ts")
    as [Habsent [_ [_ Hundo]]].
  split.
  - apply Habsent. reflexivity.
  - apply (Hundo Sample.fileB); reflexivity.
Defined.

Lemma findIndex_none_hasPath p fs :
  Changelist.findIndex (fun f => String.eqb (FileChange.path f) p) fs = None
  <-> Changelist.hasPath p fs = false.
Proof.
  induction fs as [|f fs IH]; simpl; [tauto|].
  destruct (String.eqb (FileChange.path f) p); simpl.
  - split; discriminate.
  - destruct (Changelist.findIndex _ fs); [|tauto].
    split; [discriminate|]. intros H. apply IH in H. discriminate.
Qed.

Lemma updateFirst_absent p update fs :
  Changelist.hasPath p fs = false -> updateFirst p update fs = fs.
Proof.
  induction fs as [|f fs IH]; simpl; intros H; [reflexivity|].
  apply orb_false_iff in H as [Hf Hfs]. rewrite Hf. now rewrite IH.
Qed.

Lemma findIndex_setAt p update fs i :
  Changelist.findIndex (fun f => String.eqb (FileChange.path f) p) fs = Some i ->
  exists f, nth_error fs i = Some f
            /\ Changelist.setAt i (update f) fs = updateFirst p update fs.
Proof.
  revert i. induction fs as [|g fs IH]; simpl; intros i H; [discriminate|].
  destruct (String.eqb (FileChange.path g) p).
  - injection H as <-. exists g. split; reflexivity.
  - destruct (Changelist.findIndex _ fs) as [j|]; [|discriminate].
    injection H as <-. destruct (IH j eq_refl) as [f [Hn Hs]].
    exists f. simpl. split; [assumption | now rewrite Hs].
Qed.

Lemma updateFile_files now cl p update :
  Changelist.files (Changelist.updateFile now cl p update)
  = updateFirst p update (Changelist.files cl).
Proof.
  unfold Changelist.updateFile.
  destruct (Changelist.findIndex _ (Changelist.files cl)) as [i|] eqn:E.
  - destruct (findIndex_setAt p update _ i E) as [f [Hn Hs]].
    simpl. now rewrite Hn.
  - apply findIndex_none_hasPath in E. now rewrite updateFirst_absent.
Qed.







Lemma toggleSelection_involutive f :
  FileChange.toggleSelection (FileChange.toggleSelection f) = f.
Proof.
  destruct f as [p r s st o sel]. unfold FileChange.toggleSelection,
    FileChange.setSelected. simpl. now rewrite negb_involutive.
Qed.

Lemma updateFirst_twice p update fs :
  (forall f, FileChange.path (update f) = FileChange.path f) ->
  (forall f, update (update f) = f) ->
  updateFirst p update (updateFirst p update fs) = fs.
Proof.
  intros Hp Hi. induction fs as [|f fs IH]; simpl; [reflexivity|].
  destruct (String.eqb (FileChange.path f) p) eqn:E; simpl.
  - now rewrite Hp, E, Hi.
  - now rewrite E, IH.
Qed.

(** X3: toggling the selection of one path twice in the change-list manager
    gives back the file list and the selected paths the changelist had,
    whether or not the path is in the changelist; both calls notify. *)
Theorem toggleFileSelection_twice
    (now now' : Z) (id p : string) (m : ChangeListManager.t) (cl : Changelist.t) :
  ChangeListManager.getChangeList id m = Some cl ->
  let m2 := ChangeListManager.toggleFileSelection now' id p
              (ChangeListManager.toggleFileSelection now id p m) in
  option_map Changelist.files (ChangeListManager.getChangeList id m2)
  = Some (Changelist.files cl)
  /\ ChangeListManager.getSelectedFilePaths id m2
     = ChangeListManager.getSelectedFilePaths id m
  /\ ChangeListManager.changeEvents m2 = S (S (ChangeListManager.changeEvents m)).
Proof.
  unfold ChangeListManager.getChangeList. intros Hget. cbv zeta.
  unfold ChangeListManager.toggleFileSelection, ChangeListManager.update,
    ChangeListManager.getSelectedFilePaths.
  rewrite Hget. cbn [ChangeListManager.changeLists ChangeListManager.changeEvents].
  rewrite get_set_same.
  cbn [ChangeListManager.changeLists ChangeListManager.changeEvents].
  rewrite get_set_same.
  assert (Hfiles :
    Changelist.files
      (Changelist.updateFile now'
         (Changelist.updateFile now cl p FileChange.toggleSelection) p
         FileChange.toggleSelection)
    = Changelist.files cl).
  { rewrite !updateFile_files. apply updateFirst_twice.
    - intros f. reflexivity.
    - apply toggleSelection_involutive. }
  repeat split.
  - simpl. now rewrite Hfiles.
  - unfold Changelist.getSelectedFiles, Changelist.selectedFiles.
    now rewrite Hfiles.
Qed.

Lemma toggleFileSelection_twice_witness :
  option_map Changelist.files
    (ChangeListManager.getChangeList "default"
       (ChangeListManager.toggleFileSelection 6 "default" "/w/src/a.ts"
          (ChangeListManager.toggleFileSelection 5 "default" "/w/src/a.ts"
             MoreSamples.manager)))
  = Some (Changelist.files Sample.featureList).
Proof.
  apply (toggleFileSelection_twice 5 6 "default" "/w/src/a.ts"
           MoreSamples.manager Sample.featureList).
  reflexivity.
Defined.










(* ================================================================= *)
(** ** ChangelistStore: what every reachable store satisfies *)

Lemma addFile_name now cl f :
  Changelist.name (Changelist.addFile now cl f) = Changelist.name cl.
Proof. unfold Changelist.addFile. now destruct (Changelist.hasPath _ _). Qed.

Lemma removeFile_name now cl p :
  Changelist.name (Changelist.removeFile now cl p) = Changelist.name cl.
Proof. unfold Changelist.removeFile. now destruct (Nat.eqb _ _). Qed.

Lemma setActive_name now cl b :
  Changelist.name (Changelist.setActive now cl b) = Changelist.name cl.
Proof. unfold Changelist.setActive. now destruct (Bool.eqb _ _). Qed.

Lemma fold_addFile_name now fs d :
  Changelist.name (fold_left (Changelist.addFile now) fs d) = Changelist.name d.
Proof.
  revert d. induction fs as [|g fs IH]; intros d; simpl; [reflexivity|].
  now rewrite IH, addFile_name.
Qed.

Lemma fold_removeFile_name now fs cl :
  Changelist.name
    (fold_left (fun c f => Changelist.removeFile now c (FileChange.path f)) fs cl)
  = Changelist.name cl.
Proof.
  revert cl. induction fs as [|f fs IH]; intros cl; simpl; [reflexivity|].
  now rewrite IH, removeFile_name.
Qed.

Lemma names_set_same_name (m : JsMap.t Changelist.t) k cl old :
  JsMap.get k m = Some old -> Changelist.name cl = Changelist.name old ->
  map Changelist.name (JsMap.values (JsMap.set k cl m))
  = map Changelist.name (JsMap.values m).
Proof.
  unfold JsMap.values.
  induction m as [|[k' v'] m IH]; simpl; intros Hget Hname; [discriminate|].
  destruct (String.eqb k' k); simpl.
  - injection Hget as Hv. subst v'. now rewrite Hname.
  - now rewrite (IH Hget Hname).
Qed.

Lemma In_names_set (m : JsMap.t Changelist.t) k cl n :
  In n (map Changelist.name (JsMap.values (JsMap.set k cl m))) ->
  n = Changelist.name cl \/ In n (map Changelist.name (JsMap.values m)).
Proof.
  unfold JsMap.values. rewrite !map_map. intros H.
  apply in_map_iff in H as [kv [<- HIn]].
  apply In_set_inv in HIn as [-> | HIn]; [now left|].
  right. apply in_map_iff. now exists kv.
Qed.

(** Storing a changelist whose name differs from the names under all other
    keys keeps the names pairwise different. *)
Lemma names_set_new_name (m : JsMap.t Changelist.t) k cl :
  NoDup (JsMap.keys m) ->
  NoDup (map Changelist.name (JsMap.values m)) ->
  (forall kv, In kv m -> fst kv <> k ->
              Changelist.name (snd kv) <> Changelist.name cl) ->
  NoDup (map Changelist.name (JsMap.values (JsMap.set k cl m))).
Proof.
  induction m as [|[k' v'] m IH]; intros Hk Hn Hother.
  - simpl. constructor; [simpl; tauto | constructor].
  - unfold JsMap.keys, JsMap.values in Hk, Hn. simpl in Hk, Hn.
    inversion Hk as [|? ? Hk' Hkm]; subst.
    inversion Hn as [|? ? Hn' Hnm]; subst.
    simpl. destruct (String.eqb k' k) eqn:E.
    + apply String.eqb_eq in E. subst k'.
      unfold JsMap.values. simpl. constructor; [|assumption].
      rewrite map_map. intros HIn. apply in_map_iff in HIn as [kv [Hname HIn]].
      apply (Hother kv); [now right | | assumption].
      intros Hkey. apply Hk'. rewrite <- Hkey. now apply in_map.
    + apply String.eqb_neq in E.
      unfold JsMap.values. simpl. constructor.
      * intros HIn. apply (In_names_set m k cl) in HIn as [Heq | HIn].
        -- apply (Hother (k', v')); [now left | assumption | assumption].
        -- contradiction.
      * apply IH; [assumption | assumption |].
        intros kv HIn. apply Hother. now right.
Qed.

Lemma names_delete (m : JsMap.t Changelist.t) k :
  NoDup (map Changelist.name (JsMap.values m)) ->
  NoDup (map Changelist.name (JsMap.values (JsMap.delete k m))).
Proof.
  unfold JsMap.values, JsMap.delete.
  induction m as [|[k' v'] m IH]; simpl; intros Hn; [constructor|].
  inversion Hn as [|? ? Hn' Hnm]; subst.
  destruct (String.eqb k' k); simpl; [now apply IH|].
  constructor; [|now apply IH].
  intros HIn. apply Hn'. rewrite map_map in *.
  apply in_map_iff in HIn as [kv [Hname HIn]].
  apply filter_In in HIn as [HIn _]. apply in_map_iff. now exists kv.
Qed.

Lemma names_withActiveFlag now id (m : JsMap.t Changelist.t) :
  map Changelist.name (JsMap.values (map (withActiveFlag now id) m))
  = map Changelist.name (JsMap.values m).
Proof.
  unfold JsMap.values. rewrite !map_map. apply map_ext.
  intros [k cl]. simpl. apply setActive_name.
Qed.

Lemma existsb_false_forall {A : Type} (p : A -> bool) (l : list A) x :
  existsb p l = false -> In x l -> p x = false.
Proof.
  intros H HIn. destruct (p x) eqn:E; [|reflexivity].
  assert (existsb p l = true) by (apply existsb_exists; now exists x).
  congruence.
Qed.

Lemma call_uniqueNames now op st st' :
  wellFormed st -> uniqueNames st ->
  ChangelistStore.call now op st = Ok st' -> uniqueNames st'.
Proof.
  destruct st as [m a e]. intros [Hd [Hk Hu]] Hn.
  unfold keysAreIds, uniqueKeys, ChangelistStore.hasChangelist, uniqueNames,
    ChangelistStore.getAllChangelists in *.
  simpl in Hd, Hk, Hu, Hn.
  destruct op as [freshId name description | id | id newName
                 | filePaths fromId toId | file id | file id | id]; simpl.
  - unfold ChangelistStore.createChangelist. simpl.
    destruct (isEmpty (trim name)); [discriminate|].
    destruct (existsb _ _) eqn:Ex; [discriminate|].
    intros H. injection H as <-. simpl.
    apply names_set_new_name; [assumption | assumption |].
    intros kv HIn _. simpl.
    assert (Hv : In (snd kv) (JsMap.values m)) by now apply in_map.
    pose proof (existsb_false_forall _ _ _ Ex Hv) as Hf. simpl in Hf.
    now apply String.eqb_neq in Hf.
  - unfold ChangelistStore.deleteChangelist. simpl.
    destruct (String.eqb id "default"); [discriminate|].
    destruct (JsMap.get id m) as [changelist|]; [|discriminate].
    destruct (Changelist.hasFiles changelist).
    + destruct (JsMap.get "default" m) as [d|] eqn:Gd; [|discriminate].
      intros H. injection H as <-. simpl.
      apply names_delete.
      rewrite (names_set_same_name m "default" _ d Gd); [assumption|].
      apply fold_addFile_name.
    + intros H. injection H as <-. simpl. now apply names_delete.
  - unfold ChangelistStore.renameChangelist. simpl.
    destruct (isEmpty (trim newName)); [discriminate|].
    destruct (JsMap.get id m) as [changelist|] eqn:G; [|discriminate].
    destruct (existsb _ m) eqn:Ex; [discriminate|].
    intros H. injection H as <-. simpl.
    unfold Changelist.rename.
    destruct (String.eqb (Changelist.name changelist) (trim newName)) eqn:En.
    + now rewrite (names_set_same_name m id changelist changelist G).
    + apply names_set_new_name; [assumption | assumption |].
      intros kv HIn Hkey. simpl.
      pose proof (existsb_false_forall _ _ _ Ex HIn) as Hf. simpl in Hf.
      apply andb_false_iff in Hf as [Hf | Hf].
      * apply negb_false_iff, String.eqb_eq in Hf. contradiction.
      * now apply String.eqb_neq in Hf.
  - unfold ChangelistStore.moveFiles. simpl.
    destruct (String.eqb fromId toId) eqn:Eft;
      [intros H; now injection H as <-|].
    apply String.eqb_neq in Eft.
    destruct (JsMap.get fromId m) as [fromChangelist|] eqn:Gf; [|discriminate].
    destruct (JsMap.get toId m) as [toChangelist|] eqn:Gt; [|discriminate].
    destruct (Nat.eqb _ 0); [intros H; now injection H as <-|].
    intros H. injection H as <-. simpl.
    rewrite (names_set_same_name _ toId _ toChangelist).
    + rewrite (names_set_same_name m fromId _ fromChangelist Gf); [assumption|].
      apply fold_removeFile_name.
    + rewrite get_set_other by congruence. exact Gt.
    + apply fold_addFile_name.
  - unfold ChangelistStore.addFileToChangelist. simpl.
    destruct (JsMap.get id m) as [changelist|] eqn:G; [|discriminate].
    destruct (Changelist.hasPath _ _); [intros H; now injection H as <-|].
    intros H. injection H as <-. simpl.
    rewrite (names_set_same_name m id _ changelist G); [assumption|].
    apply addFile_name.
  - unfold ChangelistStore.removeFileFromChangelist. simpl.
    destruct (JsMap.get id m) as [changelist|] eqn:G; [|discriminate].
    destruct (Nat.eqb _ _); [intros H; now injection H as <-|].
    intros H. injection H as <-. simpl.
    rewrite (names_set_same_name m id _ changelist G); [assumption|].
    apply removeFile_name.
  - unfold ChangelistStore.setActiveChangelist. simpl.
    destruct (JsMap.has id m); simpl; [|discriminate].
    intros H. injection H as <-. simpl.
    pose proof (setActive_loop now id m [] Hu) as Hl. simpl in Hl.
    rewrite Hl. now rewrite names_withActiveFlag.
Qed.

Lemma has_delete_other {V : Type} k k' (m : JsMap.t V) :
  k <> k' -> JsMap.has k (JsMap.delete k' m) = JsMap.has k m.
Proof. intros H. unfold JsMap.has. now rewrite get_delete_other. Qed.

Lemma call_activePointerValid now op st st' :
  wellFormed st -> activePointerValid st ->
  ChangelistStore.call now op st = Ok st' -> activePointerValid st'.
Proof.
  destruct st as [m a e]. intros [Hd [Hk Hu]] Hp.
  unfold activePointerValid in *.
  unfold keysAreIds, uniqueKeys, ChangelistStore.hasChangelist in *.
  simpl in Hd, Hk, Hu, Hp.
  destruct op as [freshId name description | id | id newName
                 | filePaths fromId toId | file id | file id | id]; simpl.
  - unfold ChangelistStore.createChangelist. simpl.
    destruct (isEmpty (trim name)); [discriminate|].
    destruct (existsb _ _); [discriminate|].
    intros H. injection H as <-. simpl. now apply has_set_mono.
  - unfold ChangelistStore.deleteChangelist. simpl.
    destruct (String.eqb id "default") eqn:Eid; [discriminate|].
    apply String.eqb_neq in Eid.
    destruct (JsMap.get id m) as [changelist|]; [|discriminate].
    assert (Hgoal : forall m1 : JsMap.t Changelist.t, (forall k, JsMap.has k m = true -> JsMap.has k m1 = true) ->
              JsMap.has (if String.eqb a id then "default" else a)
                        (JsMap.delete id m1) = true).
    { intros m1 Hm1. destruct (String.eqb a id) eqn:Ea.
      - rewrite has_delete_other by congruence. now apply Hm1.
      - apply String.eqb_neq in Ea. rewrite has_delete_other by assumption.
        now apply Hm1. }
    destruct (Changelist.hasFiles changelist).
    + destruct (JsMap.get "default" m) as [d|]; [|discriminate].
      intros H. injection H as <-. simpl. apply Hgoal.
      intros k Hk'. now apply has_set_mono.
    + intros H. injection H as <-. simpl. apply Hgoal. auto.
  - unfold ChangelistStore.renameChangelist. simpl.
    destruct (isEmpty (trim newName)); [discriminate|].
    destruct (JsMap.get id m) as [changelist|]; [|discriminate].
    destruct (existsb _ m); [discriminate|].
    intros H. injection H as <-. simpl. now apply has_set_mono.
  - unfold ChangelistStore.moveFiles. simpl.
    destruct (String.eqb fromId toId); [intros H; now injection H as <-|].
    destruct (JsMap.get fromId m); [|discriminate].
    destruct (JsMap.get toId m); [|discriminate].
    destruct (Nat.eqb _ 0); [intros H; now injection H as <-|].
    intros H. injection H as <-. simpl. now apply has_set_mono, has_set_mono.
  - unfold ChangelistStore.addFileToChangelist. simpl.
    destruct (JsMap.get id m); [|discriminate].
    destruct (Changelist.hasPath _ _); [intros H; now injection H as <-|].
    intros H. injection H as <-. simpl. now apply has_set_mono.
  - unfold ChangelistStore.removeFileFromChangelist. simpl.
    destruct (JsMap.get id m); [|discriminate].
    destruct (Nat.eqb _ _); [intros H; now injection H as <-|].
    intros H. injection H as <-. simpl. now apply has_set_mono.
  - unfold ChangelistStore.setActiveChangelist. simpl.
    destruct (JsMap.has id m) eqn:Hid; simpl; [|discriminate].
    intros H. injection H as <-. simpl.
    pose proof (setActive_loop now id m [] Hu) as Hl. simpl in Hl.
    rewrite Hl. unfold JsMap.has in *. rewrite get_withActiveFlag.
    now destruct (JsMap.get id m).
Qed.

(** X6: every store reached from the constructor by calls of
    [createChangelist], [deleteChangelist], [renameChangelist], [moveFiles],
    [addFileToChangelist], [removeFileFromChangelist] and
    [setActiveChangelist], in any order and whether they succeed or throw,
    holds a ['default'] changelist, has each changelist under its own id
    with no id twice, has pairwise different changelist names, and has an
    active pointer that names one of its changelists. *)
Theorem reachable_store_invariants
    (now : Z) (calls : list (Z * ChangelistStore.Op)) :
  let st := ChangelistStore.run calls (ChangelistStore.create now) in
  wellFormed st /\ uniqueNames st /\ activePointerValid st
  /\ ChangelistStore.getActiveChangelist st
     = ChangelistStore.getChangelist (ChangelistStore.activeChangelistId st) st.
Proof.
  cbv zeta.
  assert (H : forall calls st,
             wellFormed st /\ uniqueNames st /\ activePointerValid st ->
             wellFormed (ChangelistStore.run calls st)
             /\ uniqueNames (ChangelistStore.run calls st)
             /\ activePointerValid (ChangelistStore.run calls st)).
  { clear. induction calls as [|c calls IH]; intros st Hst; [exact Hst|].
    simpl. apply IH. destruct Hst as [Hwf [Hn Hp]].
    unfold ChangelistStore.step.
    destruct (ChangelistStore.call (fst c) (snd c) st) eqn:E;
      [|split; [assumption | split; assumption]].
    split; [|split].
    - apply (call_wellFormed _ _ _ _ Hwf E).
    - apply (call_uniqueNames _ _ _ _ Hwf Hn E).
    - apply (call_activePointerValid _ _ _ _ Hwf Hp E). }
  destruct (H calls (ChangelistStore.create now)) as [Hwf [Hn Hp]].
  { split; [apply create_wellFormed|]. split.
    - unfold uniqueNames. simpl. constructor; [simpl; tauto | constructor].
    - reflexivity. }
  split; [assumption|]. split; [assumption|]. split; [assumption|].
  unfold ChangelistStore.getActiveChangelist, ChangelistStore.getChangelist.
  unfold activePointerValid, ChangelistStore.hasChangelist, JsMap.has in Hp.
  now destruct (JsMap.get _ _).
Qed.

Lemma flag_set_same_flag (m : JsMap.t Changelist.t) k cl old a :
  JsMap.get k m = Some old ->
  Changelist.isActive cl = Changelist.isActive old ->
  option_map Changelist.isActive (JsMap.get a (JsMap.set k cl m))
  = option_map Changelist.isActive (JsMap.get a m).
Proof.
  intros Hget Hflag. destruct (string_dec a k) as [->|Hne].
  - rewrite get_set_same, Hget. simpl. now rewrite Hflag.
  - now rewrite get_set_other.
Qed.

Lemma call_activePointerFlagged now op st st' :
  wellFormed st -> activePointerFlagged st ->
  keepsActiveFlag op st ->
  ChangelistStore.call now op st = Ok st' -> activePointerFlagged st'.
Proof.
  destruct st as [m a e]. intros [Hd [Hk Hu]] Hp.
  unfold activePointerFlagged in *.
  unfold keysAreIds, uniqueKeys, ChangelistStore.hasChangelist,
    ChangelistStore.getChangelist in *.
  simpl in Hd, Hk, Hu, Hp.
  destruct op as [freshId name description | id | id newName
                 | filePaths fromId toId | file id | file id | id]; simpl.
  - unfold ChangelistStore.hasChangelist. simpl. intros Hfresh.
    unfold ChangelistStore.createChangelist. simpl.
    destruct (isEmpty (trim name)); [discriminate|].
    destruct (existsb _ _); [discriminate|].
    intros H. injection H as <-. simpl.
    rewrite get_set_other; [assumption|].
    intros ->. unfold JsMap.has in Hfresh.
    destruct (JsMap.get freshId m); discriminate.
  - unfold ChangelistStore.getChangelist. simpl. intros Hflag.
    unfold ChangelistStore.deleteChangelist. simpl.
    destruct (String.eqb id "default") eqn:Eid; [discriminate|].
    apply String.eqb_neq in Eid.
    destruct (JsMap.get id m) as [changelist|] eqn:G; [|discriminate].
    assert (Ha : String.eqb a id = false).
    { apply String.eqb_neq. intros Ea. subst a. rewrite G in Hp. simpl in Hp.
      simpl in Hflag. congruence. }
    rewrite Ha. apply String.eqb_neq in Ha.
    destruct (Changelist.hasFiles changelist).
    + destruct (JsMap.get "default" m) as [d|] eqn:Gd; [|discriminate].
      intros H. injection H as <-. simpl.
      rewrite get_delete_other by assumption.
      rewrite (flag_set_same_flag m "default" _ d a Gd); [assumption|].
      apply fold_addFile_isActive.
    + intros H. injection H as <-. simpl.
      now rewrite get_delete_other by assumption.
  - intros _. unfold ChangelistStore.renameChangelist. simpl.
    destruct (isEmpty (trim newName)); [discriminate|].
    destruct (JsMap.get id m) as [changelist|] eqn:G; [|discriminate].
    destruct (existsb _ m); [discriminate|].
    intros H. injection H as <-. simpl.
    rewrite (flag_set_same_flag m id _ changelist a G); [assumption|].
    apply rename_isActive.
  - intros _. unfold ChangelistStore.moveFiles. simpl.
    destruct (String.eqb fromId toId) eqn:Eft;
      [intros H; now injection H as <-|].
    apply String.eqb_neq in Eft.
    destruct (JsMap.get fromId m) as [fromChangelist|] eqn:Gf; [|discriminate].
    destruct (JsMap.get toId m) as [toChangelist|] eqn:Gt; [|discriminate].
    destruct (Nat.eqb _ 0); [intros H; now injection H as <-|].
    intros H. injection H as <-. simpl.
    rewrite (flag_set_same_flag _ toId _ toChangelist a).
    + rewrite (flag_set_same_flag m fromId _ fromChangelist a Gf); [assumption|].
      apply fold_removeFile_isActive.
    + rewrite get_set_other by congruence. exact Gt.
    + apply fold_addFile_isActive.
  - intros _. unfold ChangelistStore.addFileToChangelist. simpl.
    destruct (JsMap.get id m) as [changelist|] eqn:G; [|discriminate].
    destruct (Changelist.hasPath _ _); [intros H; now injection H as <-|].
    intros H. injection H as <-. simpl.
    rewrite (flag_set_same_flag m id _ changelist a G); [assumption|].
    apply addFile_isActive.
  - intros _. unfold ChangelistStore.removeFileFromChangelist. simpl.
    destruct (JsMap.get id m) as [changelist|] eqn:G; [|discriminate].
    destruct (Nat.eqb _ _); [intros H; now injection H as <-|].
    intros H. injection H as <-. simpl.
    rewrite (flag_set_same_flag m id _ changelist a G); [assumption|].
    apply removeFile_isActive.
  - intros _ H.
    destruct (setActiveChangelist_exactly_one_active now id
                (ChangelistStore.make m a e) st' Hu H) as [_ [Hid Hflag]].
    unfold ChangelistStore.getActiveChangelist in Hflag.
    destruct (JsMap.get (ChangelistStore.activeChangelistId st')
                        (ChangelistStore.changelists st')) eqn:G.
    + exact Hflag.
    + exfalso. unfold ChangelistStore.setActiveChangelist in H. simpl in H.
      destruct (JsMap.has id m) eqn:Hid'; simpl in H; [|discriminate].
      injection H as <-. simpl in *.
      pose proof (setActive_loop now id m [] Hu) as Hl. simpl in Hl.
      rewrite Hl, get_withActiveFlag in G. unfold JsMap.has in Hid'.
      destruct (JsMap.get id m); discriminate.
Qed.

(** X7: along every sequence of calls from the constructor in which no call
    deletes the changelist carrying the active flag and no call creates a
    changelist under an id already in use, exactly one changelist of
    [getAllChangelists] is flagged active, and it is the changelist that
    [getActiveChangelist] returns. *)
Theorem active_flag_follows_pointer
    (now : Z) (calls : list (Z * ChangelistStore.Op)) :
  keepActiveFlag calls (ChangelistStore.create now) ->
  let st := ChangelistStore.run calls (ChangelistStore.create now) in
  ChangelistStore.activeCount st = 1
  /\ option_map Changelist.isActive (ChangelistStore.getActiveChangelist st)
     = Some true.
Proof.
  cbv zeta.
  assert (H : forall calls st,
             wellFormed st -> ChangelistStore.activeCount st = 1 ->
             activePointerFlagged st -> keepActiveFlag calls st ->
             ChangelistStore.activeCount (ChangelistStore.run calls st) = 1
             /\ activePointerFlagged (ChangelistStore.run calls st)).
  { clear. induction calls as [|c calls IH]; intros st Hwf Hone Hp Hsafe;
      [now split|].
    destruct Hsafe as [Hc Hrest]. simpl.
    apply IH; [now apply step_wellFormed | | | assumption];
      unfold ChangelistStore.step;
      destruct (ChangelistStore.call (fst c) (snd c) st) eqn:E; try assumption.
    - now apply (call_keeps_one_active (fst c) (snd c) st).
    - now apply (call_activePointerFlagged (fst c) (snd c) st). }
  intros Hsafe.
  destruct (H calls (ChangelistStore.create now) (create_wellFormed now)
              eq_refl eq_refl Hsafe) as [Hone Hp].
  split; [assumption|].
  unfold activePointerFlagged, ChangelistStore.getChangelist in Hp.
  unfold ChangelistStore.getActiveChangelist.
  destruct (JsMap.get _ _); [assumption | discriminate].
Qed.

Lemma active_flag_follows_pointer_witness :
  ChangelistStore.activeCount
    (ChangelistStore.run
       [(1%Z, ChangelistStore.CreateChangelist "changelist_1_x" "Feature" None);
        (2%Z, ChangelistStore.SetActiveChangelist "changelist_1_x");
        (3%Z, ChangelistStore.AddFileToChangelist Sample.fileA "changelist_1_x");
        (4%Z, ChangelistStore.CreateChangelist "changelist_2_y" "Later" None);
        (5%Z, ChangelistStore.DeleteChangelist "changelist_2_y")]
       (ChangelistStore.create 0)) = 1.
Proof.
  apply (active_flag_follows_pointer 0
           [(1%Z, ChangelistStore.CreateChangelist "changelist_1_x" "Feature" None);
            (2%Z, ChangelistStore.SetActiveChangelist "changelist_1_x");
            (3%Z, ChangelistStore.AddFileToChangelist Sample.fileA "changelist_1_x");
            (4%Z, ChangelistStore.CreateChangelist "changelist_2_y" "Later" None);
            (5%Z, ChangelistStore.DeleteChangelist "changelist_2_y")]).
  vm_compute. repeat split. discriminate.
Defined.

Lemma set_absent_app {V : Type} k (v : V) m :
  JsMap.has k m = false -> JsMap.set k v m = m ++ [(k, v)].
Proof.
  unfold JsMap.has. induction m as [|[k' v'] m IH]; simpl; [reflexivity|].
  destruct (String.eqb k' k); [discriminate|]. intros H. now rewrite IH.
Qed.

Lemma delete_appended {V : Type} k (v : V) m :
  JsMap.has k m = false -> JsMap.delete k (m ++ [(k, v)]) = m.
Proof.
  intros H. unfold JsMap.delete. rewrite filter_app. simpl.
  rewrite String.eqb_refl. simpl. rewrite app_nil_r.
  apply delete_absent. now apply has_false_not_In.
Qed.

(** X8: creating a changelist under an id that is not in use and deleting
    it again restores the map of changelists, entry by entry and in the same
    order, and (when the active pointer named a changelist of the store)
    the active pointer; the two calls fire two notifications. *)
Theorem create_then_delete_restores_store
    (freshId name : string) (description : option string) (now now' : Z)
    (st st1 : ChangelistStore.t) (created : Changelist.t) :
  freshId <> "default" ->
  ChangelistStore.hasChangelist freshId st = false ->
  activePointerValid st ->
  ChangelistStore.createChangelist freshId now name description st
    = Ok (created, st1) ->
  ChangelistStore.getChangelist freshId st1 = Some created
  /\ Changelist.files created = []
  /\ Changelist.name created = trim name
  /\ ChangelistStore.deleteChangelist now' freshId st1
     = Ok (ChangelistStore.make (ChangelistStore.changelists st)
             (ChangelistStore.activeChangelistId st)
             (S (S (ChangelistStore.changeEvents st)))).
Proof.
  destruct st as [m a e].
  unfold activePointerValid, ChangelistStore.hasChangelist,
    ChangelistStore.getChangelist. simpl.
  intros Hid Hfresh Hp.
  unfold ChangelistStore.createChangelist. simpl.
  destruct (isEmpty (trim name)); [discriminate|].
  destruct (existsb _ _); [discriminate|].
  intros H. injection H as <- <-. simpl.
  rewrite get_set_same. repeat split.
  unfold ChangelistStore.deleteChangelist. simpl.
  apply String.eqb_neq in Hid. rewrite Hid.
  rewrite get_set_same. simpl.
  rewrite (set_absent_app _ _ _ Hfresh), (delete_appended _ _ _ Hfresh).
  assert (Ha : String.eqb a freshId = false).
  { apply String.eqb_neq. intros ->. congruence. }
  now rewrite Ha.
Qed.

Lemma create_then_delete_restores_store_witness :
  exists created st1,
    ChangelistStore.createChangelist "changelist_9_z" 5 "  Spike " None Sample.store
      = Ok (created, st1)
    /\ Changelist.name created = "Spike"
    /\ ChangelistStore.deleteChangelist 6 "changelist_9_z" st1
       = Ok (ChangelistStore.make (ChangelistStore.changelists Sample.store)
               "default" 5).
Proof.
  destruct (ChangelistStore.createChangelist "changelist_9_z" 5 "  Spike " None
              Sample.store) as [[created st1]|msg] eqn:E;
    [|vm_compute in E; discriminate].
  exists created, st1. split; [reflexivity|].
  destruct (create_then_delete_restores_store "changelist_9_z" "  Spike " None 5 6
              Sample.store st1 created) as [_ [_ [Hname Hdel]]];
    [discriminate | reflexivity | reflexivity | exact E |].
  split; [exact Hname | exact Hdel].
Defined.

(* ================================================================= *)
(** ** ChangelistStore.moveFiles *)

Lemma filter_filter {A : Type} (p q : A -> bool) (l : list A) :
  filter p (filter q l) = filter (fun x => q x && p x) l.
Proof.
  induction l as [|x l IH]; simpl; [reflexivity|].
  destruct (q x); simpl; [|exact IH].
  destruct (p x); now rewrite IH.
Qed.

Lemma filter_all {A : Type} (p : A -> bool) (l : list A) :
  (forall x, p x = true) -> filter p l = l.
Proof.
  intros H. induction l as [|x l IH]; simpl; [reflexivity|].
  now rewrite H, IH.
Qed.

Lemma fold_removeFile_files now fs cl :
  Changelist.files
    (fold_left (fun c f => Changelist.removeFile now c (FileChange.path f)) fs cl)
  = filter (fun g => negb (includes (FileChange.path g) (map FileChange.path fs)))
           (Changelist.files cl).
Proof.
  revert cl. induction fs as [|f fs IH]; intros cl; simpl.
  - symmetry. now apply filter_all.
  - rewrite IH, removeFile_files, filter_filter.
    apply filter_ext. intros g. unfold includes. simpl.
    now rewrite negb_orb.
Qed.

Lemma hasPath_fold_addFile now p fs d :
  Changelist.hasPath p (Changelist.files (fold_left (Changelist.addFile now) fs d))
  = Changelist.hasPath p (Changelist.files d) || Changelist.hasPath p fs.
Proof.
  revert d. induction fs as [|f fs IH]; intros d; simpl.
  - now rewrite orb_false_r.
  - rewrite IH. unfold Changelist.addFile.
    destruct (Changelist.hasPath (FileChange.path f) (Changelist.files d)) eqn:E.
    + destruct (String.eqb (FileChange.path f) p) eqn:Ep; [|reflexivity].
      apply String.eqb_eq in Ep. subst p. now rewrite E.
    + simpl. rewrite hasPath_app. simpl.
      now rewrite orb_false_r, orb_assoc.
Qed.

Lemma hasPath_filter_includes p paths fs :
  Changelist.hasPath p
    (filter (fun f => includes (FileChange.path f) paths) fs)
  = includes p paths && Changelist.hasPath p fs.
Proof.
  induction fs as [|f fs IH]; simpl; [now rewrite andb_false_r|].
  destruct (String.eqb (FileChange.path f) p) eqn:E.
  - apply String.eqb_eq in E. subst p.
    destruct (includes (FileChange.path f) paths) eqn:Ei; simpl.
    + now rewrite String.eqb_refl.
    + exact IH.
  - destruct (includes (FileChange.path f) paths); simpl; [rewrite E|]; exact IH.
Qed.

Lemma includes_moved_paths paths fs g :
  In g fs ->
  includes (FileChange.path g)
    (map FileChange.path (filter (fun f => includes (FileChange.path f) paths) fs))
  = includes (FileChange.path g) paths.
Proof.
  intros HIn. unfold includes at 1.
  destruct (includes (FileChange.path g) paths) eqn:E.
  - apply existsb_exists. exists (FileChange.path g).
    split; [|apply String.eqb_refl].
    apply in_map, filter_In. now split.
  - destruct (existsb _ _) eqn:Ex; [|reflexivity].
    apply existsb_exists in Ex as [q [Hq Heq]].
    apply String.eqb_eq in Heq. subst q.
    apply in_map_iff in Hq as [f [Hf Hfin]].
    apply filter_In in Hfin as [_ Hinc]. rewrite Hf in Hinc. congruence.
Qed.

Lemma uniquePaths_filter (p : FileChange.t -> bool) fs :
  uniquePaths fs -> uniquePaths (filter p fs).
Proof.
  unfold uniquePaths. induction fs as [|f fs IH]; simpl; intros H; [constructor|].
  inversion H as [|? ? Hf Hfs]; subst.
  destruct (p f); simpl; [|now apply IH].
  constructor; [|now apply IH].
  intros HIn. apply Hf. apply in_map_iff in HIn as [g [Hg HIn]].
  apply filter_In in HIn as [HIn _]. apply in_map_iff. now exists g.
Qed.

Lemma fold_addFile_uniquePaths now fs d :
  uniquePaths (Changelist.files d) ->
  uniquePaths (Changelist.files (fold_left (Changelist.addFile now) fs d)).
Proof.
  revert d. induction fs as [|f fs IH]; intros d H; simpl; [assumption|].
  apply IH. now apply addFile_uniquePaths.
Qed.

(** X9: moving a list of paths between two different, existing changelists
    succeeds.  Afterwards the source holds exactly its files whose path is
    not in the list, in their old order; a path is in the target exactly
    when it was there before or was moved (a moved file whose path the
    target already had is dropped); every other changelist and the active
    pointer are untouched; and pairwise different paths stay pairwise
    different on both sides. *)
Theorem moveFiles_moves_the_named_paths
    (now : Z) (filePaths : list string) (fromId toId : string)
    (st : ChangelistStore.t) (source target : Changelist.t) :
  fromId <> toId ->
  ChangelistStore.getChangelist fromId st = Some source ->
  ChangelistStore.getChangelist toId st = Some target ->
  exists st' source' target',
    ChangelistStore.moveFiles now filePaths fromId toId st = Ok st'
    /\ ChangelistStore.getChangelist fromId st' = Some source'
    /\ ChangelistStore.getChangelist toId st' = Some target'
    /\ Changelist.files source'
       = filter (fun f => negb (includes (FileChange.path f) filePaths))
                (Changelist.files source)
    /\ (forall p,
          Changelist.hasPath p (Changelist.files target')
          = Changelist.hasPath p (Changelist.files target)
            || (includes p filePaths
                && Changelist.hasPath p (Changelist.files source)))
    /\ (forall k, k <> fromId -> k <> toId ->
          ChangelistStore.getChangelist k st' = ChangelistStore.getChangelist k st)
    /\ ChangelistStore.activeChangelistId st'
       = ChangelistStore.activeChangelistId st
    /\ (uniquePaths (Changelist.files source) ->
        uniquePaths (Changelist.files source'))
    /\ (uniquePaths (Changelist.files target) ->
        uniquePaths (Changelist.files target')).
Proof.
  destruct st as [m a e]. unfold ChangelistStore.getChangelist. simpl.
  intros Hne Hs Ht.
  unfold ChangelistStore.moveFiles. simpl.
  apply String.eqb_neq in Hne as Hneb. rewrite Hneb, Hs, Ht.
  set (filesToMove := filter (fun f => includes (FileChange.path f) filePaths)
                             (Changelist.files source)).
  assert (Hsrc : filter (fun g => negb (includes (FileChange.path g)
                                          (map FileChange.path filesToMove)))
                        (Changelist.files source)
                 = filter (fun f => negb (includes (FileChange.path f) filePaths))
                          (Changelist.files source)).
  { apply filter_ext_in. intros g Hg. f_equal.
    now apply includes_moved_paths. }
  destruct (Nat.eqb (length filesToMove) 0) eqn:Elen.
  - (* nothing to move *)
    apply Nat.eqb_eq, length_zero_iff_nil in Elen.
    exists (ChangelistStore.make m a e), source, target.
    simpl. repeat split; try assumption; try reflexivity;
      try (intros; assumption).
    + rewrite <- Hsrc, Elen. simpl. symmetry. now apply filter_all.
    + intros p. pose proof (hasPath_filter_includes p filePaths
                              (Changelist.files source)) as Hf.
      fold filesToMove in Hf. rewrite Elen in Hf. simpl in Hf.
      now rewrite <- Hf, orb_false_r.
  - eexists. eexists. eexists. split; [reflexivity|]. simpl.
    rewrite get_set_same, get_set_other, get_set_same by congruence.
    split; [reflexivity|]. split; [reflexivity|].
    split; [now rewrite fold_removeFile_files|].
    split.
    { intros p. rewrite hasPath_fold_addFile. f_equal.
      apply hasPath_filter_includes. }
    split.
    { intros k Hk1 Hk2. now rewrite !get_set_other by assumption. }
    split; [reflexivity|]. split.
    + intros Hu. rewrite fold_removeFile_files. now apply uniquePaths_filter.
    + apply fold_addFile_uniquePaths.
Qed.

Lemma moveFiles_moves_the_named_paths_witness :
  exists st' source' target',
    ChangelistStore.moveFiles 9 ["/w/src/a.ts"; "/w/src/b.ts"; "/w/none"]
      "changelist_1_x" "default" Sample.store = Ok st'
    /\ ChangelistStore.getChangelist "changelist_1_x" st' = Some source'
    /\ ChangelistStore.getChangelist "default" st' = Some target'
    /\ Changelist.files source' = []
    /\ Changelist.files target' = [Sample.fileA; Sample.fileB].
Proof.
  destruct (moveFiles_moves_the_named_paths 9
              ["/w/src/a.ts"; "/w/src/b.ts"; "/w/none"]
              "changelist_1_x" "default" Sample.store
              Sample.featureList Sample.defaultList)
    as [st' [s' [t' [Hok [Hs [Ht [Hfiles _]]]]]]];
    [discriminate | reflexivity | reflexivity |].
  exists st', s', t'. repeat split; try assumption.
  vm_compute in Hok. injection Hok as <-.
  vm_compute in Ht. injection Ht as <-. reflexivity.
Defined.

(* ================================================================= *)
(** ** ShelvedFile: what [detectConflicts] reports *)

Lemma conflict_loop original current shelved indices acc :
  fold_left (ShelvedFile.conflictStep original current shelved) indices acc
  = acc ++ fold_left (ShelvedFile.conflictStep original current shelved) indices [].
Proof.
  revert acc. induction indices as [|i indices IH]; intros acc; simpl.
  - now rewrite app_nil_r.
  - rewrite (IH (ShelvedFile.conflictStep original current shelved acc i)),
      (IH (ShelvedFile.conflictStep original current shelved [] i)).
    unfold ShelvedFile.conflictStep.
    destruct (negb _ && negb _); simpl; [now rewrite <- app_assoc | reflexivity].
Qed.

Lemma conflict_loop_empty original current shelved indices :
  fold_left (ShelvedFile.conflictStep original current shelved) indices [] = []
  <-> forall i, In i indices ->
        ShelvedFile.lineAt original i = ShelvedFile.lineAt current i
        \/ ShelvedFile.lineAt original i = ShelvedFile.lineAt shelved i.
Proof.
  induction indices as [|i indices IH]; simpl.
  - split; [intros _ i [] | reflexivity].
  - rewrite conflict_loop. unfold ShelvedFile.conflictStep at 1.
    destruct (String.eqb (ShelvedFile.lineAt original i)
                         (ShelvedFile.lineAt current i)) eqn:Ec;
    destruct (String.eqb (ShelvedFile.lineAt original i)
                         (ShelvedFile.lineAt shelved i)) eqn:Es; simpl;
      try (rewrite IH; split;
           [ intros H j [<- | Hj];
             [ try (left; now apply String.eqb_eq);
               right; now apply String.eqb_eq
             | now apply H ]
           | intros H j Hj; apply H; now right ]).
    split; [discriminate|].
    intros H. destruct (H i (or_introl eq_refl)) as [E | E];
      apply String.eqb_eq in E; congruence.
Qed.

Lemma lineAt_beyond lines i :
  length lines <= i -> ShelvedFile.lineAt lines i = EmptyString.
Proof. intros H. unfold ShelvedFile.lineAt. now apply nth_overflow. Qed.

(** X10: [detectConflicts] returns no conflict exactly when the current
    content is the original, or has as many lines as the original and
    differs from it only in lines the shelf left unchanged. *)
Theorem detectConflicts_empty_iff (file : ShelvedFile.t) (currentContent : string) :
  let original := splitLines (ShelvedFile.originalContent file) in
  let current := splitLines currentContent in
  let shelved := splitLines (ShelvedFile.shelvedContent file) in
  ShelvedFile.detectConflicts file currentContent = []
  <-> currentContent = ShelvedFile.originalContent file
      \/ (length original = length current
          /\ forall i,
               ShelvedFile.lineAt original i = ShelvedFile.lineAt current i
               \/ ShelvedFile.lineAt original i = ShelvedFile.lineAt shelved i).
Proof.
  cbv zeta. unfold ShelvedFile.detectConflicts, ShelvedFile.canRestore.
  destruct (String.eqb (ShelvedFile.originalContent file) currentContent) eqn:E.
  - apply String.eqb_eq in E. split; [now left | reflexivity].
  - apply String.eqb_neq in E.
    set (o := splitLines (ShelvedFile.originalContent file)).
    set (c := splitLines currentContent).
    set (s := splitLines (ShelvedFile.shelvedContent file)).
    set (n := Nat.max (Nat.max (length o) (length c)) (length s)).
    destruct (fold_left (ShelvedFile.conflictStep o c s) (seq 0 n) []) as [|x xs] eqn:F.
    + pose proof (proj1 (conflict_loop_empty o c s (seq 0 n)) F) as F'.
      clear F. rename F' into F. simpl.
      destruct (Nat.eqb (length o) (length c)) eqn:El; simpl.
      * apply Nat.eqb_eq in El. split; [|reflexivity].
        intros _. right. split; [assumption|]. intros i.
        destruct (Nat.lt_ge_cases i n) as [Hi | Hi].
        -- apply F. apply in_seq. lia.
        -- left. rewrite !lineAt_beyond; [reflexivity | lia | lia].
      * apply Nat.eqb_neq in El. split; [discriminate|].
        intros [H | [H _]]; [congruence | contradiction].
    + simpl. split; [discriminate|].
      intros [H | [_ H]]; [congruence|].
      assert (F' : fold_left (ShelvedFile.conflictStep o c s) (seq 0 n) [] = []).
      { apply (proj2 (conflict_loop_empty o c s (seq 0 n))). intros i _. apply H. }
      congruence.
Qed.

Lemma detectConflicts_empty_iff_witness :
  ShelvedFile.detectConflicts Sample.shelvedNotes (text ["Y"; "b"]) = []
  /\ ShelvedFile.detectConflicts Sample.shelvedNotes (text ["a"; "Z"]) <> [].
Proof.
  split.
  - apply (detectConflicts_empty_iff Sample.shelvedNotes (text ["Y"; "b"])).
    right. split; [reflexivity|].
    intros [|[|i]]; [right | left | left]; reflexivity.
  - intros H.
    apply (detectConflicts_empty_iff Sample.shelvedNotes (text ["a"; "Z"])) in H.
    destruct H as [H | [_ H]]; [discriminate|].
    destruct (H 1) as [E | E]; discriminate.
Defined.

(** [detectConflicts] for a file whose baseline is its shelved content. *)
Lemma detectConflicts_same_baseline (file : ShelvedFile.t) (currentContent : string) :
  ShelvedFile.originalContent file = ShelvedFile.shelvedContent file ->
  ShelvedFile.detectConflicts file currentContent
  = if ShelvedFile.canRestore file currentContent
       || Nat.eqb (length (splitLines (ShelvedFile.originalContent file)))
                  (length (splitLines currentContent))
    then []
    else ["File length changed since shelving"].
Proof.
  intros Hsame. unfold ShelvedFile.detectConflicts.
  destruct (ShelvedFile.canRestore file currentContent); [reflexivity|].
  rewrite <- Hsame. simpl.
  set (o := splitLines (ShelvedFile.originalContent file)).
  set (c := splitLines currentContent).
  assert (F : forall l, fold_left (ShelvedFile.conflictStep o c o) l [] = []).
  { intros l. apply (proj2 (conflict_loop_empty o c o l)). intros i _. now right. }
  rewrite F. simpl. now destruct (Nat.eqb (length o) (length c)).
Qed.

(** X11: for a shelved file whose original content is its shelved content,
    as [createShelf] produces it, [detectConflicts] never reports a line:
    it returns nothing when the current content is the original or has the
    same number of lines, and the single message about the file length
    otherwise. *)
Theorem detectConflicts_without_baseline (file : ShelvedFile.t) (currentContent : string) :
  ShelvedFile.originalContent file = ShelvedFile.shelvedContent file ->
  ShelvedFile.detectConflicts file currentContent
  = if ShelvedFile.canRestore file currentContent
       || Nat.eqb (length (splitLines (ShelvedFile.originalContent file)))
                  (length (splitLines currentContent))
    then []
    else ["File length changed since shelving"].
Proof. exact (detectConflicts_same_baseline file currentContent). Qed.

Lemma detectConflicts_without_baseline_witness :
  ShelvedFile.detectConflicts
    (ShelvedFile.make "/w/n.txt" "n.txt" (text ["a"; "b"]) (text ["a"; "b"])
                      Modified "utf8")
    (text ["x"; "y"]) = []
  /\ ShelvedFile.detectConflicts
       (ShelvedFile.make "/w/n.txt" "n.txt" (text ["a"; "b"]) (text ["a"; "b"])
                         Modified "utf8")
       (text ["a"]) = ["File length changed since shelving"].
Proof.
  split.
  - rewrite (detectConflicts_without_baseline
               (ShelvedFile.make "/w/n.txt" "n.txt" (text ["a"; "b"])
                                 (text ["a"; "b"]) Modified "utf8")
               (text ["x"; "y"]) eq_refl).
    reflexivity.
  - rewrite (detectConflicts_without_baseline
               (ShelvedFile.make "/w/n.txt" "n.txt" (text ["a"; "b"])
                                 (text ["a"; "b"]) Modified "utf8")
               (text ["a"]) eq_refl).
    reflexivity.
Defined.

(* ================================================================= *)
(** ** ShelveStore: preview and unshelve *)

Lemma previewStep_result cf ds file w :
  exists ds',
    ShelveStore.previewStep (cf, ds) file w
    = (Ok (cf ++ (if conflictsOnDisk (ShelveStore.disk w) file
                  then [ShelvedFile.relativePath file] else []),
           ds ++ ds'), w)
    /\ forallb ShelveStore.canResolve ds'
       = resolvableOnDisk (ShelveStore.disk w) file
    /\ length ds' <= 1.
Proof.
  unfold ShelveStore.previewStep, ShelveStore.tryCatch, ShelveStore.bind,
    ShelveStore.readFile, conflictsOnDisk, resolvableOnDisk.
  destruct (JsMap.get (ShelvedFile.path file) (ShelveStore.disk w)) as [c|].
  - destruct (ShelvedFile.detectConflicts file c) as [|x [|y l]] eqn:D; simpl.
    + exists []. rewrite !app_nil_r. repeat split. simpl. lia.
    + eexists. split; [reflexivity|]. split; [reflexivity | simpl; lia].
    + eexists. split; [reflexivity|]. split; [reflexivity | simpl; lia].
  - eexists. unfold ShelveStore.ret. rewrite app_nil_r.
    split; [reflexivity|]. split; [reflexivity | simpl; lia].
Qed.

Lemma previewLoop_result files cf ds w :
  exists ds',
    ShelveStore.foldM ShelveStore.previewStep files (cf, ds) w
    = (Ok (cf ++ map ShelvedFile.relativePath
                     (filter (conflictsOnDisk (ShelveStore.disk w)) files),
           ds ++ ds'), w)
    /\ forallb ShelveStore.canResolve ds'
       = forallb (resolvableOnDisk (ShelveStore.disk w)) files
    /\ length ds' <= length files.
Proof.
  revert cf ds. induction files as [|f files IH]; intros cf ds;
    cbn [ShelveStore.foldM filter map forallb length].
  - exists []. rewrite !app_nil_r. split; [reflexivity|]. split; [reflexivity|].
    simpl. lia.
  - destruct (previewStep_result cf ds f w) as [d1 [E1 [R1 L1]]].
    unfold ShelveStore.bind. rewrite E1.
    destruct (IH (cf ++ (if conflictsOnDisk (ShelveStore.disk w) f
                         then [ShelvedFile.relativePath f] else []))
                 (ds ++ d1)) as [d2 [E2 [R2 L2]]].
    rewrite E2. exists (d1 ++ d2). split; [|split].
    + f_equal. f_equal. f_equal.
      * rewrite <- app_assoc. f_equal.
        now destruct (conflictsOnDisk (ShelveStore.disk w) f).
      * now rewrite app_assoc.
    + now rewrite forallb_app, R1, R2.
    + rewrite length_app. lia.
Qed.

Lemma ltb_length_map_filter {A B : Type} (g : A -> B) (p : A -> bool) (l : list A) :
  Nat.ltb 0 (length (map g (filter p l))) = existsb p l.
Proof.
  induction l as [|x l IH]; simpl; [reflexivity|].
  destruct (p x); simpl; [reflexivity | exact IH].
Qed.

(** What [previewUnshelve] returns for an existing shelf. *)
Lemma previewUnshelve_result
    (shelfId : string) (w : ShelveStore.World) (shelf : Shelf.t) :
  JsMap.get shelfId (ShelveStore.shelves w) = Some shelf ->
  exists report,
    ShelveStore.previewUnshelve shelfId w = (Ok report, w)
    /\ ShelveStore.conflictingFiles report
       = map ShelvedFile.relativePath
             (filter (conflictsOnDisk (ShelveStore.disk w)) (Shelf.files shelf))
    /\ ShelveStore.hasConflicts report
       = existsb (conflictsOnDisk (ShelveStore.disk w)) (Shelf.files shelf)
    /\ ShelveStore.canAutoMerge report
       = forallb (resolvableOnDisk (ShelveStore.disk w)) (Shelf.files shelf)
    /\ length (ShelveStore.details report) <= length (Shelf.files shelf).
Proof.
  intros G.
  unfold ShelveStore.previewUnshelve, ShelveStore.bind, ShelveStore.getShelf.
  rewrite G.
  destruct (previewLoop_result (Shelf.files shelf) [] [] w) as [ds [E [R L]]].
  rewrite E. simpl. eexists. split; [reflexivity|]. simpl.
  split; [reflexivity|]. split; [apply ltb_length_map_filter|].
  split; assumption.
Qed.

(** X12: [previewUnshelve] of an existing shelf returns normally and leaves
    the world as it is.  Its conflicting files are the relative paths of the
    shelf's files that exist on disk and have a conflict there, in shelf
    order; a file missing on disk is never among them; [canAutoMerge] says
    that every file is missing or has at most one conflict; and there is at
    most one detail per file. *)
Theorem previewUnshelve_report
    (shelfId : string) (w : ShelveStore.World) (shelf : Shelf.t) :
  JsMap.get shelfId (ShelveStore.shelves w) = Some shelf ->
  exists report,
    ShelveStore.previewUnshelve shelfId w = (Ok report, w)
    /\ ShelveStore.conflictingFiles report
       = map ShelvedFile.relativePath
             (filter (conflictsOnDisk (ShelveStore.disk w)) (Shelf.files shelf))
    /\ ShelveStore.hasConflicts report
       = existsb (conflictsOnDisk (ShelveStore.disk w)) (Shelf.files shelf)
    /\ ShelveStore.canAutoMerge report
       = forallb (resolvableOnDisk (ShelveStore.disk w)) (Shelf.files shelf)
    /\ length (ShelveStore.details report) <= length (Shelf.files shelf).
Proof. exact (previewUnshelve_result shelfId w shelf). Qed.

Lemma previewUnshelve_report_witness :
  exists report,
    ShelveStore.previewUnshelve "shelf_1" Sample.conflictingWorld
      = (Ok report, Sample.conflictingWorld)
    /\ ShelveStore.conflictingFiles report = ["notes.txt"]
    /\ ShelveStore.hasConflicts report = true.
Proof.
  destruct (previewUnshelve_report "shelf_1" Sample.conflictingWorld
              Sample.notesShelf eq_refl) as [report [E [Hc [Hh _]]]].
  exists report. split; [exact E|]. split.
  - rewrite Hc. reflexivity.
  - rewrite Hh. reflexivity.
Defined.

Lemma restoreAll_writes files forceMerge w :
  ShelveStore.forEach files (fun file => ShelveStore.restoreFile file forceMerge) w
  = (Ok tt, withDisk w (writeAll files (ShelveStore.disk w))).
Proof.
  revert w. induction files as [|f files IH]; intros w; simpl.
  - unfold withDisk. now destruct w.
  - unfold ShelveStore.bind. rewrite restoreFile_always_writes, IH.
    reflexivity.
Qed.



(** The world after an [unshelve] that passes the conflict check. *)
Lemma unshelve_result shelfId options w shelf :
  JsMap.get shelfId (ShelveStore.shelves w) = Some shelf ->
  existsb (conflictsOnDisk (ShelveStore.disk w)) (Shelf.files shelf) = false
  \/ ShelveStore.truthy (ShelveStore.forceMerge options) = true ->
  ShelveStore.unshelve shelfId options w
  = (Ok tt,
     if ShelveStore.truthy (ShelveStore.keepShelf options)
     then ShelveStore.mkWorld (ShelveStore.shelves w)
            (writeAll (filesToRestore options shelf) (ShelveStore.disk w))
            (ShelveStore.storage w) (S (ShelveStore.changeEvents w))
     else ShelveStore.mkWorld (JsMap.delete shelfId (ShelveStore.shelves w))
            (writeAll (filesToRestore options shelf) (ShelveStore.disk w))
            (JsMap.values (JsMap.delete shelfId (ShelveStore.shelves w)))
            (S (ShelveStore.changeEvents w))).
Proof.
  intros G Hgo.
  destruct (previewUnshelve_result shelfId w shelf G) as [report [E [_ [Hh _]]]].
  unfold ShelveStore.unshelve, ShelveStore.bind.
  unfold ShelveStore.getShelf at 1. rewrite G, E.
  assert (Hcond : ShelveStore.hasConflicts report
                  && negb (ShelveStore.truthy (ShelveStore.forceMerge options))
                  = false).
  { destruct Hgo as [Hno | Hforce].
    - now rewrite Hh, Hno.
    - rewrite Hforce. apply andb_false_r. }
  rewrite Hcond.
  fold (filesToRestore options shelf).
  rewrite restoreAll_writes.
  destruct (ShelveStore.truthy (ShelveStore.keepShelf options)); reflexivity.
Qed.



(* ================================================================= *)
(** ** ShelveStore: creating a shelf, and getting it back *)

Lemma createShelvedFile_snapshot file w :
  readable (ShelveStore.disk w) file = true ->
  ShelveStore.createShelvedFile file w = (Ok (snapshot (ShelveStore.disk w) file), w).
Proof.
  unfold readable, JsMap.has, snapshot. intros H.
  destruct (JsMap.get (FileChange.path file) (ShelveStore.disk w)) as [c|] eqn:G;
    [|discriminate].
  unfold ShelveStore.createShelvedFile, ShelveStore.bind,
    ShelveStore.getOriginalContent, ShelveStore.tryCatch.
  rewrite (readFile_found _ _ _ G). cbv beta iota.
  now rewrite (readFile_found _ _ _ G).
Qed.

Lemma createShelvedFile_unreadable file w :
  readable (ShelveStore.disk w) file = false ->
  exists msg, ShelveStore.createShelvedFile file w = (Throw msg, w).
Proof.
  unfold readable, JsMap.has. intros H.
  destruct (JsMap.get (FileChange.path file) (ShelveStore.disk w)) as [c|] eqn:G;
    [discriminate|].
  unfold ShelveStore.createShelvedFile, ShelveStore.bind, ShelveStore.readFile.
  rewrite G. eexists. reflexivity.
Qed.

Lemma createShelvedFiles_snapshot files w :
  forallb (readable (ShelveStore.disk w)) files = true ->
  ShelveStore.mapM ShelveStore.createShelvedFile files w
  = (Ok (map (snapshot (ShelveStore.disk w)) files), w).
Proof.
  induction files as [|f files IH]; cbn [ShelveStore.mapM forallb map];
    [reflexivity|].
  intros H. apply andb_true_iff in H as [Hf Hfiles].
  unfold ShelveStore.bind. rewrite (createShelvedFile_snapshot f w Hf), (IH Hfiles).
  reflexivity.
Qed.

Lemma createShelvedFiles_unreadable files w :
  forallb (readable (ShelveStore.disk w)) files = false ->
  exists msg, ShelveStore.mapM ShelveStore.createShelvedFile files w = (Throw msg, w).
Proof.
  induction files as [|f files IH]; cbn [ShelveStore.mapM forallb];
    [discriminate|].
  intros H. unfold ShelveStore.bind.
  destruct (readable (ShelveStore.disk w) f) eqn:Hf.
  - rewrite (createShelvedFile_snapshot f w Hf).
    destruct (IH H) as [msg ->]. now exists msg.
  - destruct (createShelvedFile_unreadable f w Hf) as [msg ->]. now exists msg.
Qed.

Lemma removeFilesFromWorkspace_truncates files w :
  ShelveStore.removeFilesFromWorkspace files w
  = (Ok tt, withDisk w (truncateAll files (ShelveStore.disk w))).
Proof.
  unfold ShelveStore.removeFilesFromWorkspace.
  revert w. induction files as [|f files IH]; intros w; cbn [ShelveStore.forEach].
  - unfold withDisk. now destruct w.
  - unfold ShelveStore.bind, ShelveStore.tryCatch, ShelveStore.writeFile.
    rewrite IH. reflexivity.
Qed.

(** The world after a successful [createShelf]. *)
Lemma createShelf_result freshId now name files remove description w :
  files <> [] ->
  forallb (readable (ShelveStore.disk w)) files = true ->
  let shelf := Shelf.make freshId name (map (snapshot (ShelveStore.disk w)) files)
                          now "main" "HEAD" None description in
  ShelveStore.createShelf true freshId now name files remove description w
  = (Ok shelf,
     ShelveStore.mkWorld
       (JsMap.set freshId shelf (ShelveStore.shelves w))
       (if remove then truncateAll files (ShelveStore.disk w)
        else ShelveStore.disk w)
       (JsMap.values (JsMap.set freshId shelf (ShelveStore.shelves w)))
       (S (ShelveStore.changeEvents w))).
Proof.
  intros Hne Hall. cbv zeta.
  unfold ShelveStore.createShelf.
  destruct files as [|f files]; [contradiction|].
  cbn [negb length Nat.eqb].
  unfold ShelveStore.bind at 1. rewrite (createShelvedFiles_snapshot _ _ Hall).
  unfold ShelveStore.bind, ShelveStore.setShelf, ShelveStore.save.
  cbn [Shelf.id ShelveStore.shelves ShelveStore.disk ShelveStore.storage
       ShelveStore.changeEvents].
  destruct remove.
  - rewrite removeFilesFromWorkspace_truncates. reflexivity.
  - reflexivity.
Qed.










Lemma snapshot_paths disk files :
  map ShelvedFile.path (map (snapshot disk) files) = map FileChange.path files.
Proof. rewrite map_map. reflexivity. Qed.



Lemma splitLines_nonempty s : splitLines s <> [].
Proof.
  destruct s as [|c s]; simpl; [discriminate|].
  destruct (Ascii.eqb c newline); [discriminate|].
  destruct (splitLines s); discriminate.
Qed.



(** ** Calls on the store of shelves *)

Lemma has_get_none {V : Type} k (m : JsMap.t V) :
  JsMap.get k m = None -> JsMap.has k m = false.
Proof. unfold JsMap.has. now intros ->. Qed.

(** X18: every call that names a shelf throws "Shelf not found" when the id
    is not in the store, and leaves the shelves, the disk, the saved list
    and the event count as they were. *)
Theorem missing_shelf_is_reported_and_nothing_changes
    (shelfId : string) (w : ShelveStore.World)
    (options : ShelveStore.UnshelveOptions) (filePaths : list string)
    (newName description : string) :
  JsMap.get shelfId (ShelveStore.shelves w) = None ->
  ShelveStore.unshelve shelfId options w = (Throw "Shelf not found", w)
  /\ ShelveStore.partialUnshelve shelfId filePaths w = (Throw "Shelf not found", w)
  /\ ShelveStore.previewUnshelve shelfId w = (Throw "Shelf not found", w)
  /\ ShelveStore.deleteShelf shelfId w = (Throw "Shelf not found", w)
  /\ ShelveStore.renameShelf shelfId newName w = (Throw "Shelf not found", w)
  /\ ShelveStore.updateShelfDescription shelfId description w
     = (Throw "Shelf not found", w)
  /\ ShelveStore.exportShelf shelfId w = (Throw "Shelf not found", w).
Proof.
  intros G.
  unfold ShelveStore.partialUnshelve, ShelveStore.unshelve,
    ShelveStore.previewUnshelve, ShelveStore.deleteShelf, ShelveStore.renameShelf,
    ShelveStore.updateShelfDescription, ShelveStore.exportShelf,
    ShelveStore.bind, ShelveStore.getShelf, ShelveStore.hasShelf.
  rewrite G, (has_get_none _ _ G). cbn [negb].
  repeat split.
Qed.

Lemma missing_shelf_is_reported_and_nothing_changes_witness :
  ShelveStore.unshelve "shelf-9" ShelveStore.defaultOptions Sample.cleanWorld
    = (Throw "Shelf not found", Sample.cleanWorld)
  /\ ShelveStore.deleteShelf "shelf-9" Sample.cleanWorld
     = (Throw "Shelf not found", Sample.cleanWorld).
Proof.
  destruct (missing_shelf_is_reported_and_nothing_changes "shelf-9"
              Sample.cleanWorld ShelveStore.defaultOptions [] "n" "d" eq_refl)
    as [Hu [_ [_ [Hd _]]]].
  split; assumption.
Defined.

(** X19: [importShelf] does not read the patch it is given: whatever the
    patch content, the imported shelf has no files, it is stored under the
    new id, and exporting it straight away yields the empty string. *)
Theorem importShelf_discards_the_patch
    (freshId : string) (now : Z) (patchContent name : string)
    (w : ShelveStore.World) :
  exists shelf w1,
    ShelveStore.importShelf freshId now patchContent name w = (Ok shelf, w1)
    /\ Shelf.files shelf = []
    /\ JsMap.get freshId (ShelveStore.shelves w1) = Some shelf
    /\ ShelveStore.disk w1 = ShelveStore.disk w
    /\ ShelveStore.exportShelf freshId w1 = (Ok EmptyString, w1).
Proof.
  unfold ShelveStore.importShelf, ShelveStore.bind, ShelveStore.setShelf,
    ShelveStore.save, ShelveStore.fire, ShelveStore.ret. simpl.
  eexists. eexists. split; [reflexivity|]. split; [reflexivity|].
  assert (G : JsMap.get freshId
                (JsMap.set freshId
                   (Shelf.make freshId name [] now "imported" "unknown" None
                      (Some "Imported from patch")) (ShelveStore.shelves w))
              = Some (Shelf.make freshId name [] now "imported" "unknown" None
                        (Some "Imported from patch")))
    by apply get_set_same.
  split; [exact G|]. split; [reflexivity|].
  unfold ShelveStore.exportShelf, ShelveStore.bind, ShelveStore.getShelf.
  cbn [ShelveStore.shelves]. rewrite G. reflexivity.
Qed.

(** ** Listing the shelves *)

Lemma insertByTimestamp_perm shelf sorted :
  Permutation (ShelveStore.insertByTimestamp shelf sorted) (shelf :: sorted).
Proof.
  induction sorted as [|other rest IH]; simpl; [apply Permutation_refl|].
  destruct (Z.leb (Shelf.timestamp other) (Shelf.timestamp shelf)).
  - apply Permutation_refl.
  - eapply Permutation_trans; [apply perm_skip, IH | apply perm_swap].
Qed.

Lemma sortLatestFirst_perm all :
  Permutation (ShelveStore.sortLatestFirst all) all.
Proof.
  unfold ShelveStore.sortLatestFirst.
  induction all as [|shelf all IH]; simpl; [apply Permutation_refl|].
  eapply Permutation_trans; [apply insertByTimestamp_perm | now apply perm_skip].
Qed.

Lemma insertByTimestamp_sorted shelf sorted :
  latestFirst sorted -> latestFirst (ShelveStore.insertByTimestamp shelf sorted).
Proof.
  unfold latestFirst.
  induction sorted as [|other rest IH]; intros H; simpl.
  - constructor; constructor.
  - destruct (Z.leb (Shelf.timestamp other) (Shelf.timestamp shelf)) eqn:E.
    + apply Z.leb_le in E. constructor; [assumption|].
      inversion H as [|? ? Hrest Hall]; subst.
      constructor; [assumption|].
      eapply Forall_impl; [|exact Hall]. intros a Ha. simpl in Ha. lia.
    + apply Z.leb_gt in E.
      inversion H as [|? ? Hrest Hall]; subst.
      constructor; [now apply IH|].
      eapply Permutation_Forall;
        [apply Permutation_sym, insertByTimestamp_perm|].
      constructor; [lia | assumption].
Qed.

Lemma sortLatestFirst_sorted all : latestFirst (ShelveStore.sortLatestFirst all).
Proof.
  unfold ShelveStore.sortLatestFirst.
  induction all as [|shelf all IH]; simpl.
  - constructor.
  - now apply insertByTimestamp_sorted.
Qed.

(** X20: [getAllShelves] lists exactly the shelves of the store, each as
    often as it is stored, with later timestamps first. *)
Theorem getAllShelves_lists_every_shelf_latest_first (w : ShelveStore.World) :
  Permutation (ShelveStore.getAllShelves w) (JsMap.values (ShelveStore.shelves w))
  /\ latestFirst (ShelveStore.getAllShelves w).
Proof.
  split; [apply sortLatestFirst_perm | apply sortLatestFirst_sorted].
Qed.

(** ** What is saved *)

Lemma createShelvedFiles_world files w :
  snd (ShelveStore.mapM ShelveStore.createShelvedFile files w) = w.
Proof.
  destruct (forallb (readable (ShelveStore.disk w)) files) eqn:H.
  - now rewrite (createShelvedFiles_snapshot _ _ H).
  - destruct (createShelvedFiles_unreadable _ _ H) as [msg ->]. reflexivity.
Qed.

Lemma createShelf_outcome ws freshId now name files remove description w :
  (exists msg, ShelveStore.createShelf ws freshId now name files remove description w
               = (Throw msg, w))
  \/ (exists shelf disk',
        ShelveStore.createShelf ws freshId now name files remove description w
        = (Ok shelf,
           ShelveStore.mkWorld (JsMap.set freshId shelf (ShelveStore.shelves w)) disk'
             (JsMap.values (JsMap.set freshId shelf (ShelveStore.shelves w)))
             (S (ShelveStore.changeEvents w)))
        /\ Shelf.id shelf = freshId).
Proof.
  destruct ws; [|left; now eexists].
  destruct files as [|f files]; [left; now eexists|].
  destruct (forallb (readable (ShelveStore.disk w)) (f :: files)) eqn:H.
  - right. eexists. eexists. split.
    + apply createShelf_result; [discriminate | assumption].
    + reflexivity.
  - left. unfold ShelveStore.createShelf. cbn [negb length Nat.eqb].
    unfold ShelveStore.bind at 1.
    destruct (createShelvedFiles_unreadable _ _ H) as [msg ->]. now eexists.
Qed.

Lemma unshelve_outcome shelfId options w :
  (exists msg, ShelveStore.unshelve shelfId options w = (Throw msg, w))
  \/ (exists disk',
        ShelveStore.unshelve shelfId options w
        = (Ok tt,
           if ShelveStore.truthy (ShelveStore.keepShelf options)
           then ShelveStore.mkWorld (ShelveStore.shelves w) disk'
                  (ShelveStore.storage w) (S (ShelveStore.changeEvents w))
           else ShelveStore.mkWorld (JsMap.delete shelfId (ShelveStore.shelves w))
                  disk'
                  (JsMap.values (JsMap.delete shelfId (ShelveStore.shelves w)))
                  (S (ShelveStore.changeEvents w)))).
Proof.
  destruct (JsMap.get shelfId (ShelveStore.shelves w)) as [shelf|] eqn:G.
  - destruct (existsb (conflictsOnDisk (ShelveStore.disk w)) (Shelf.files shelf))
      eqn:Hc.
    + destruct (ShelveStore.truthy (ShelveStore.forceMerge options)) eqn:Hf.
      * right. eexists. apply (unshelve_result _ _ _ _ G). now right.
      * left.
        destruct (previewUnshelve_result shelfId w shelf G)
          as [report [E [_ [Hh _]]]].
        unfold ShelveStore.unshelve, ShelveStore.bind.
        unfold ShelveStore.getShelf at 1. rewrite G, E, Hh, Hc, Hf.
        now eexists.
    + right. eexists. apply (unshelve_result _ _ _ _ G). now left.
  - left. unfold ShelveStore.unshelve, ShelveStore.bind, ShelveStore.getShelf.
    rewrite G. now eexists.
Qed.

Lemma afterCall_persisted op w : persisted w -> persisted (afterCall op w).
Proof.
  unfold persisted. intros H.
  destruct op as [ws freshId now name files remove description
                 | ws freshId now name changelist remove description
                 | shelfId options | shelfId filePaths | shelfId
                 | shelfId newName | shelfId description
                 | freshId now patchContent name];
    cbn [afterCall].
  - destruct (createShelf_outcome ws freshId now name files remove description w)
      as [[msg ->] | [shelf [disk' [-> _]]]]; [exact H | reflexivity].
  - unfold ShelveStore.createShelfFromChangelist, ShelveStore.bind.
    match goal with
    | |- context [ShelveStore.createShelf ?a ?b ?c ?d ?e ?f ?g w] =>
        destruct (createShelf_outcome a b c d e f g w)
          as [[msg ->] | [shelf [disk' [-> _]]]]
    end; [exact H | reflexivity].
  - destruct (unshelve_outcome shelfId options w) as [[msg ->] | [disk' ->]];
      [exact H|].
    destruct (ShelveStore.truthy (ShelveStore.keepShelf options));
      [exact H | reflexivity].
  - unfold ShelveStore.partialUnshelve.
    destruct (unshelve_outcome shelfId
                (ShelveStore.mkUnshelveOptions (Some true) None (Some filePaths)) w)
      as [[msg ->] | [disk' ->]]; exact H.
  - unfold ShelveStore.deleteShelf, ShelveStore.bind, ShelveStore.hasShelf.
    destruct (JsMap.has shelfId (ShelveStore.shelves w)); [reflexivity | exact H].
  - unfold ShelveStore.renameShelf, ShelveStore.bind, ShelveStore.getShelf.
    destruct (JsMap.get shelfId (ShelveStore.shelves w)); [reflexivity | exact H].
  - unfold ShelveStore.updateShelfDescription, ShelveStore.bind, ShelveStore.getShelf.
    destruct (JsMap.get shelfId (ShelveStore.shelves w)); [reflexivity | exact H].
  - reflexivity.
Qed.

(** X21: the saved list follows the store.  If the saved list of shelves
    is the one in memory, it still is after any sequence of calls of the
    mutating methods, whether they return or throw: what a reload would
    read is what [getAllShelves] works on. *)
Theorem saved_shelves_follow_the_store
    (ops : list ShelveOp) (w : ShelveStore.World) :
  persisted w ->
  persisted (fold_left (fun w op => afterCall op w) ops w).
Proof.
  revert w. induction ops as [|op ops IH]; intros w H; simpl; [exact H|].
  apply IH. now apply afterCall_persisted.
Qed.

Lemma saved_shelves_follow_the_store_witness :
  persisted
    (fold_left (fun w op => afterCall op w)
       [CreateShelf true "shelf-7" 3 "WIP" [Sample.fileA] true None;
        Unshelve "shelf-7" ShelveStore.defaultOptions;
        RenameShelf "shelf-7" "later";
        DeleteShelf "shelf-8"]
       Sample.cleanWorld).
Proof.
  apply (saved_shelves_follow_the_store _ Sample.cleanWorld). reflexivity.
Defined.

Lemma In_values_set {V : Type} k (v : V) m :
  In v (JsMap.values (JsMap.set k v m)).
Proof.
  unfold JsMap.values.
  induction m as [|[k' v'] m IH]; simpl; [now left|].
  destruct (String.eqb k' k); simpl; [now left | now right].
Qed.

(** X22: shelving a changelist.  With a workspace folder open and every
    file of a non-empty changelist readable, [createShelfFromChangelist]
    returns a shelf tagged with the changelist's id, holding one shelved
    file per file of the changelist; the shelf is stored under the new id
    and listed by [getShelvesByChangelist] for that changelist; two change
    events are fired, one by [createShelf] and one by the update. *)
Theorem createShelfFromChangelist_is_listed_under_the_changelist
    (freshId : string) (now : Z) (name : string) (changelist : Changelist.t)
    (remove : bool) (description : option string) (w : ShelveStore.World) :
  Changelist.files changelist <> [] ->
  forallb (readable (ShelveStore.disk w)) (Changelist.files changelist) = true ->
  exists shelf w1,
    ShelveStore.createShelfFromChangelist true freshId now name changelist
      remove description w = (Ok shelf, w1)
    /\ Shelf.changelistId shelf = Some (Changelist.id changelist)
    /\ map ShelvedFile.path (Shelf.files shelf)
       = map FileChange.path (Changelist.files changelist)
    /\ JsMap.get freshId (ShelveStore.shelves w1) = Some shelf
    /\ In shelf (ShelveStore.getShelvesByChangelist (Changelist.id changelist) w1)
    /\ ShelveStore.changeEvents w1 = S (S (ShelveStore.changeEvents w)).
Proof.
  intros Hne Hall.
  unfold ShelveStore.createShelfFromChangelist.
  unfold ShelveStore.bind at 1.
  rewrite (createShelf_result freshId now name (Changelist.files changelist)
             remove _ w Hne Hall).
  unfold ShelveStore.bind, ShelveStore.putShelf, ShelveStore.save,
    ShelveStore.fire, ShelveStore.ret.
  cbn [Shelf.id Shelf.name Shelf.files Shelf.timestamp Shelf.branch
       Shelf.parentCommit Shelf.description ShelveStore.shelves ShelveStore.disk
       ShelveStore.storage ShelveStore.changeEvents].
  eexists. eexists. split; [reflexivity|].
  cbn [Shelf.changelistId Shelf.files ShelveStore.shelves ShelveStore.changeEvents].
  split; [reflexivity|]. split; [apply snapshot_paths|].
  split; [apply get_set_same|]. split; [|reflexivity].
  unfold ShelveStore.getShelvesByChangelist, ShelveStore.getAllShelves.
  apply filter_In. split.
  - eapply Permutation_in; [apply Permutation_sym, sortLatestFirst_perm|].
    cbn [ShelveStore.shelves]. apply In_values_set.
  - cbn [Shelf.changelistId]. apply String.eqb_refl.
Qed.

Lemma createShelfFromChangelist_is_listed_under_the_changelist_witness :
  exists shelf w1,
    ShelveStore.createShelfFromChangelist true "shelf-7" 3 "WIP"
      (Changelist.make "cl-1" "Feature" [Sample.fileA] false false None 1 1)
      false None Sample.cleanWorld = (Ok shelf, w1)
    /\ Shelf.changelistId shelf = Some "cl-1"
    /\ In shelf (ShelveStore.getShelvesByChangelist "cl-1" w1).
Proof.
  destruct (createShelfFromChangelist_is_listed_under_the_changelist "shelf-7" 3
              "WIP" (Changelist.make "cl-1" "Feature" [Sample.fileA]
                       false false None 1 1)
              false None Sample.cleanWorld)
    as [shelf [w1 [Hc [Hid [_ [_ [Hin _]]]]]]];
    [discriminate | reflexivity |].
  exists shelf, w1. repeat split; assumption.
Defined.

(** ** Decorations of the gutter *)

Lemma addOrExtendChange_types cs ty line :
  ty <> GutterDecorationService.modified ->
  Forall (fun c => GutterDecorationService.type c
                   <> GutterDecorationService.modified) cs ->
  Forall (fun c => GutterDecorationService.type c
                   <> GutterDecorationService.modified)
         (GutterDecorationService.addOrExtendChange cs ty line).
Proof.
  intros Hty.
  induction cs as [|c rest IH]; intros Hp.
  - simpl. constructor; [assumption | constructor].
  - inversion Hp as [|? ? Hc Hrest]; subst.
    destruct rest as [|c' rest'].
    + cbn [GutterDecorationService.addOrExtendChange].
      destruct (GutterDecorationService.ChangeType_eqb
                  (GutterDecorationService.type c) ty
                && Z.eqb (GutterDecorationService.endLine c) (line - 1)).
      * constructor; [exact Hc | constructor].
      * constructor; [exact Hc|]. constructor; [exact Hty | constructor].
    + change (GutterDecorationService.addOrExtendChange (c :: c' :: rest') ty line)
        with (c :: GutterDecorationService.addOrExtendChange (c' :: rest') ty line).
      constructor; [assumption | now apply IH].
Qed.

Lemma parseLine_types st line :
  Forall (fun c => GutterDecorationService.type c
                   <> GutterDecorationService.modified)
         (GutterDecorationService.changes st) ->
  Forall (fun c => GutterDecorationService.type c
                   <> GutterDecorationService.modified)
         (GutterDecorationService.changes
            (GutterDecorationService.parseLine st line)).
Proof.
  intros H. unfold GutterDecorationService.parseLine.
  destruct (String.prefix "@@" line).
  - destruct (GutterDecorationService.matchHunk line); assumption.
  - destruct (GutterDecorationService.inHunk st); [|assumption].
    destruct (String.prefix "+" line).
    + cbn [GutterDecorationService.changes].
      apply addOrExtendChange_types; [discriminate | assumption].
    + destruct (String.prefix "-" line).
      * cbn [GutterDecorationService.changes].
        apply addOrExtendChange_types; [discriminate | assumption].
      * destruct (negb (String.prefix GutterDecorationService.backslash line));
          assumption.
Qed.

Lemma parseLines_types lines st :
  Forall (fun c => GutterDecorationService.type c
                   <> GutterDecorationService.modified)
         (GutterDecorationService.changes st) ->
  Forall (fun c => GutterDecorationService.type c
                   <> GutterDecorationService.modified)
         (GutterDecorationService.changes
            (GutterDecorationService.parseLines lines st)).
Proof.
  unfold GutterDecorationService.parseLines. revert st.
  induction lines as [|line lines IH]; intros st H; simpl; [assumption|].
  apply IH. now apply parseLine_types.
Qed.

Lemma decorate_fold changes a m d :
  fold_left GutterDecorationService.decorate changes (a, m, d)
  = (a ++ map decorationOf (ofType GutterDecorationService.added changes),
     m ++ map decorationOf (ofType GutterDecorationService.modified changes),
     d ++ map decorationOf (ofType GutterDecorationService.deleted changes)).
Proof.
  revert a m d. induction changes as [|c changes IH]; intros a m d.
  - simpl. now rewrite !app_nil_r.
  - cbn [fold_left]. unfold GutterDecorationService.decorate at 2.
    unfold ofType. cbn [filter].
    fold (decorationOf c).
    destruct (GutterDecorationService.type c) eqn:E;
      cbn [GutterDecorationService.ChangeType_eqb map];
      rewrite IH; unfold ofType; now rewrite <- ?app_assoc.
Qed.

Lemma ofType_none ty changes :
  Forall (fun c => GutterDecorationService.type c <> ty) changes ->
  ofType ty changes = [].
Proof.
  unfold ofType. induction 1 as [|c changes Hc _ IH]; simpl; [reflexivity|].
  destruct (GutterDecorationService.type c), ty; simpl; try congruence;
    exact IH.
Qed.

Lemma ofType_split changes :
  Forall (fun c => GutterDecorationService.type c
                   <> GutterDecorationService.modified) changes ->
  length (ofType GutterDecorationService.added changes)
  + length (ofType GutterDecorationService.deleted changes)
  = length changes.
Proof.
  unfold ofType. induction 1 as [|c changes Hc _ IH]; simpl; [reflexivity|].
  destruct (GutterDecorationService.type c); simpl; try congruence; lia.
Qed.

(** X23: the gutter never shows a modified line.  Whatever the diff, the
    ranges [getLineChanges] returns are of type added or deleted only; so
    [applyDecorations] hands an empty list to the decoration for modified
    lines, one whole-line decoration per added range and per deleted range
    to the other two, in the order of the ranges, and stores all added
    decorations before all deleted ones. *)
Theorem gutter_never_marks_a_line_as_modified (diffOutput : string) :
  let changes := GutterDecorationService.getLineChanges diffOutput in
  let applied := GutterDecorationService.applyDecorations changes in
  Forall (fun c => GutterDecorationService.type c
                   <> GutterDecorationService.modified) changes
  /\ GutterDecorationService.modifiedDecorations applied = []
  /\ GutterDecorationService.addedDecorations applied
     = map decorationOf (ofType GutterDecorationService.added changes)
  /\ GutterDecorationService.deletedDecorations applied
     = map decorationOf (ofType GutterDecorationService.deleted changes)
  /\ GutterDecorationService.activeDecorations applied
     = GutterDecorationService.addedDecorations applied
       ++ GutterDecorationService.deletedDecorations applied
  /\ length (GutterDecorationService.activeDecorations applied) = length changes.
Proof.
  intros changes applied.
  assert (H : Forall (fun c => GutterDecorationService.type c
                               <> GutterDecorationService.modified) changes).
  { subst changes. unfold GutterDecorationService.getLineChanges.
    destruct (isEmpty diffOutput); [constructor|].
    unfold GutterDecorationService.parseDiff. apply parseLines_types.
    constructor. }
  subst applied. unfold GutterDecorationService.applyDecorations.
  rewrite decorate_fold, (ofType_none _ _ H). simpl.
  split; [exact H|]. split; [reflexivity|]. split; [reflexivity|].
  split; [reflexivity|]. split; [reflexivity|].
  rewrite length_app, !length_map. now apply ofType_split.
Qed.

(** ** The diff of a shelved file *)

Lemma lineAt_seq lines :
  map (ShelvedFile.lineAt lines) (seq 0 (length lines)) = lines.
Proof.
  unfold ShelvedFile.lineAt.
  induction lines as [|l lines IH]; [reflexivity|].
  cbn [length seq map nth]. f_equal.
  rewrite <- seq_shift, map_map. exact IH.
Qed.

Lemma diffStep_same lines idx acc :
  fold_left (ShelvedFile.diffStep lines lines) idx acc
  = acc ++ map (fun i => (" " ++ ShelvedFile.lineAt lines i)%string) idx.
Proof.
  revert acc. induction idx as [|i idx IH]; intros acc; simpl.
  - now rewrite app_nil_r.
  - rewrite IH. unfold ShelvedFile.diffStep at 1.
    rewrite String.eqb_refl. cbn [negb]. now rewrite <- app_assoc.
Qed.

Lemma generateDiff_unchanged p rel content st enc :
  ShelvedFile.generateDiff (ShelvedFile.make p rel content content st enc)
  = unchangedDiff rel content.
Proof.
  unfold ShelvedFile.generateDiff, ShelvedFile.getDiffContent, unchangedDiff.
  cbn [ShelvedFile.relativePath ShelvedFile.originalContent
       ShelvedFile.shelvedContent].
  rewrite Nat.max_id, diffStep_same.
  rewrite <- (map_map (ShelvedFile.lineAt (splitLines content))
                      (fun l => (" " ++ l)%string)).
  rewrite lineAt_seq. reflexivity.
Qed.

(** X24: a shelf made by [createShelf] exports a patch that records no
    change.  [createShelvedFile] stores the content on disk both as the
    original and as the shelved content, so the patch [exportShelf] gives
    for the new shelf consists, file by file, of the file headers, one hunk
    header and the lines of the file as context lines. *)
Theorem created_shelf_exports_no_changes
    (freshId : string) (now : Z) (name : string) (files : list FileChange.t)
    (remove : bool) (description : option string) (w : ShelveStore.World) :
  files <> [] ->
  forallb (readable (ShelveStore.disk w)) files = true ->
  exists shelf w1,
    ShelveStore.createShelf true freshId now name files remove description w
      = (Ok shelf, w1)
    /\ ShelveStore.exportShelf freshId w1
       = (Ok (join (String newline EmptyString)
                (map (fun f =>
                        unchangedDiff (FileChange.relativePath f)
                          (ShelvedFile.shelvedContent
                             (snapshot (ShelveStore.disk w) f)))
                     files)),
          w1).
Proof.
  intros Hne Hall.
  pose proof (createShelf_result freshId now name files remove description w
                Hne Hall) as Hc. cbv zeta in Hc.
  eexists. eexists. split; [exact Hc|].
  unfold ShelveStore.exportShelf, ShelveStore.bind, ShelveStore.getShelf.
  cbn [ShelveStore.shelves]. rewrite get_set_same.
  unfold ShelveStore.ret, Shelf.generatePatch. cbn [Shelf.files].
  rewrite map_map. do 3 f_equal.
  apply map_ext. intros f. unfold snapshot. apply generateDiff_unchanged.
Qed.

Lemma created_shelf_exports_no_changes_witness :
  exists shelf w1,
    ShelveStore.createShelf true "shelf-7" 3 "WIP" [Sample.fileA] false None
      Sample.cleanWorld = (Ok shelf, w1)
    /\ ShelveStore.exportShelf "shelf-7" w1
       = (Ok (text ["--- a/src/a.ts"; "+++ b/src/a.ts"; "@@ -1,2 +1,2 @@";
                    " let x = 1;"; " export {};"]), w1).
Proof.
  destruct (created_shelf_exports_no_changes "shelf-7" 3 "WIP" [Sample.fileA]
              false None Sample.cleanWorld) as [shelf [w1 [Hc He]]];
    [discriminate | reflexivity |].
  exists shelf, w1. split; [exact Hc | exact He].
Defined.

(** ** The status cache *)

(** X25: a detected status is served from the cache for five seconds.
    After a call of [getFileStatus] that had to detect the status, a call
    for the same path less than [CACHE_TTL] after the entry was stored
    returns that status whatever Git reports by then, and leaves the cache
    alone; once [CACHE_TTL] has passed, or after [invalidateCache] or
    [clearCache], the status is detected again. *)
Theorem getFileStatus_serves_the_cache_for_the_ttl
    (backend backend' : FileStatusService.Backend) (now later now2 later2 : Z)
    (uri uri' : FileStatusService.Uri) (cache : FileStatusService.StatusCache) :
  FileStatusService.getCachedStatus now uri cache = None ->
  FileStatusService.fsPath uri' = FileStatusService.fsPath uri ->
  let first := FileStatusService.getFileStatus backend now later uri cache in
  fst first = FileStatusService.detect backend uri
  /\ ((now2 - later < FileStatusService.CACHE_TTL)%Z ->
      FileStatusService.getFileStatus backend' now2 later2 uri' (snd first)
      = (fst first, snd first)
      /\ FileStatusService.getCachedStatus now2 uri' (snd first) = Some (fst first))
  /\ ((FileStatusService.CACHE_TTL <= now2 - later)%Z ->
      fst (FileStatusService.getFileStatus backend' now2 later2 uri' (snd first))
      = FileStatusService.detect backend' uri'
      /\ FileStatusService.getCachedStatus now2 uri' (snd first) = None)
  /\ fst (FileStatusService.getFileStatus backend' now2 later2 uri'
            (FileStatusService.invalidateCache uri (snd first)))
     = FileStatusService.detect backend' uri'
  /\ fst (FileStatusService.getFileStatus backend' now2 later2 uri'
            (FileStatusService.clearCache (snd first)))
     = FileStatusService.detect backend' uri'.
Proof.
  intros Hmiss Hpath first.
  unfold FileStatusService.getCachedStatus in *.
  assert (E : first
              = (FileStatusService.detect backend uri,
                 JsMap.set (FileStatusService.fsPath uri)
                   (FileStatusService.mkCacheEntry
                      (FileStatusService.detect backend uri) later) cache)).
  { subst first. unfold FileStatusService.getFileStatus. now rewrite Hmiss. }
  rewrite E. clear E first. cbn [fst snd].
  split; [reflexivity|].
  unfold FileStatusService.getFileStatus, FileStatusService.invalidateCache,
    FileStatusService.clearCache.
  rewrite Hpath, get_set_same, get_delete_same.
  unfold FileStatusService.fresh.
  cbn [FileStatusService.timestamp FileStatusService.cachedStatus JsMap.get].
  split; [|split].
  - intros Hlt. apply Z.ltb_lt in Hlt. rewrite Hlt. split; reflexivity.
  - intros Hge. apply Z.ltb_ge in Hge. rewrite Hge. split; reflexivity.
  - split; reflexivity.
Qed.

Lemma getFileStatus_serves_the_cache_for_the_ttl_witness :
  FileStatusService.getFileStatus
    (FileStatusService.mkBackend false (fun _ => None) (Throw "git is gone"))
    1200 1201 (FileStatusService.mkUri "/w/a.ts" "a.ts" true)
    (snd (FileStatusService.getFileStatus
            (FileStatusService.mkBackend false (fun _ => None)
               (Ok Sample.mergeStatus))
            100 101 (FileStatusService.mkUri "/w/a.ts" "a.ts" true) []))
  = (FileStatusService.detect
       (FileStatusService.mkBackend false (fun _ => None) (Ok Sample.mergeStatus))
       (FileStatusService.mkUri "/w/a.ts" "a.ts" true),
     [("/w/a.ts",
       FileStatusService.mkCacheEntry
         (FileStatusService.detect
            (FileStatusService.mkBackend false (fun _ => None)
               (Ok Sample.mergeStatus))
            (FileStatusService.mkUri "/w/a.ts" "a.ts" true)) 101)]).
Proof.
  destruct (getFileStatus_serves_the_cache_for_the_ttl
              (FileStatusService.mkBackend false (fun _ => None)
                 (Ok Sample.mergeStatus))
              (FileStatusService.mkBackend false (fun _ => None)
                 (Throw "git is gone"))
              100 101 1200 1201
              (FileStatusService.mkUri "/w/a.ts" "a.ts" true)
              (FileStatusService.mkUri "/w/a.ts" "a.ts" true) []
              eq_refl eq_refl) as [_ [Hhit _]].
  destruct (Hhit ltac:(vm_compute; reflexivity)) as [Hget _].
  exact Hget.
Defined.

(** ** Status of several files *)

Lemma fold_set_get {A V : Type} (key : A -> string) (val : A -> V)
    (xs : list A) (m0 : JsMap.t V) (k : string) :
  JsMap.get k (fold_left (fun m x => JsMap.set (key x) (val x) m) xs m0)
  = match find (fun x => String.eqb (key x) k) (rev xs) with
    | Some x => Some (val x)
    | None => JsMap.get k m0
    end.
Proof.
  induction xs as [|x xs IH] using rev_ind; [reflexivity|].
  rewrite fold_left_app, rev_app_distr. cbn [fold_left rev app find].
  destruct (String.eqb (key x) k) eqn:E.
  - apply String.eqb_eq in E. subst k. apply get_set_same.
  - rewrite get_set_other; [exact IH|].
    intros ->. now rewrite String.eqb_refl in E.
Qed.

Lemma fold_set_get_In {A V : Type} (key : A -> string) (val : A -> V)
    (xs : list A) (m0 : JsMap.t V) (x : A) :
  (forall y, In y xs -> key y = key x -> val y = val x) ->
  In x xs ->
  JsMap.get (key x) (fold_left (fun m y => JsMap.set (key y) (val y) m) xs m0)
  = Some (val x).
Proof.
  intros Hsame HIn. rewrite fold_set_get.
  destruct (find (fun y => String.eqb (key y) (key x)) (rev xs)) as [y|] eqn:F.
  - apply find_some in F as [Hy E]. apply String.eqb_eq in E.
    f_equal. apply Hsame; [now apply in_rev in Hy | assumption].
  - apply in_rev in HIn. pose proof (find_none _ _ F x HIn) as Hn.
    simpl in Hn. now rewrite String.eqb_refl in Hn.
Qed.

Lemma fold_set_get_out {A V : Type} (key : A -> string) (val : A -> V)
    (xs : list A) (m0 : JsMap.t V) (k : string) :
  (forall y, In y xs -> key y <> k) ->
  JsMap.get k (fold_left (fun m y => JsMap.set (key y) (val y) m) xs m0)
  = JsMap.get k m0.
Proof.
  intros Hout. rewrite fold_set_get.
  destruct (find (fun y => String.eqb (key y) k) (rev xs)) as [y|] eqn:F;
    [|reflexivity].
  apply find_some in F as [Hy E]. apply String.eqb_eq in E.
  exfalso. apply (Hout y); [now apply in_rev in Hy | assumption].
Qed.

Lemma batchDetectFileStatus_fold backend uris :
  FileStatusService.batchDetectFileStatus backend uris
  = fold_left (fun m u => JsMap.set (FileStatusService.fsPath u)
                                     (batchStatus backend u) m) uris [].
Proof.
  unfold FileStatusService.batchDetectFileStatus, batchStatus.
  generalize (@nil (string * FileStatusService.FileStatus)).
  destruct (FileStatusService.gitExtensionActive backend).
  - induction uris as [|u uris IH]; intros m; simpl; [reflexivity|].
    rewrite IH.
    now destruct (FileStatusService.getRepository backend
                    (FileStatusService.fsPath u)).
  - reflexivity.
Qed.

Lemma partitionCached_fold now cache uris result uncached :
  fold_left (fun acc uri =>
               let '(result, uncachedUris) := acc in
               match FileStatusService.fresh now
                       (JsMap.get (FileStatusService.fsPath uri) cache) with
               | Some status =>
                   (JsMap.set (FileStatusService.fsPath uri) status result,
                    uncachedUris)
               | None => (result, uncachedUris ++ [uri])
               end)
            uris (result, uncached)
  = (fold_left (fun m u =>
                  match FileStatusService.fresh now
                          (JsMap.get (FileStatusService.fsPath u) cache) with
                  | Some status => JsMap.set (FileStatusService.fsPath u) status m
                  | None => m
                  end) uris result,
     uncached
     ++ filter (fun u =>
                  match FileStatusService.fresh now
                          (JsMap.get (FileStatusService.fsPath u) cache) with
                  | Some _ => false
                  | None => true
                  end) uris).
Proof.
  revert result uncached.
  induction uris as [|u uris IH]; intros result uncached; simpl.
  - now rewrite app_nil_r.
  - destruct (FileStatusService.fresh now
                (JsMap.get (FileStatusService.fsPath u) cache)).
    + apply IH.
    + rewrite IH. now rewrite <- app_assoc.
Qed.

Lemma cached_part_get now cache uris result k :
  JsMap.get k
    (fold_left (fun m u =>
                  match FileStatusService.fresh now
                          (JsMap.get (FileStatusService.fsPath u) cache) with
                  | Some status => JsMap.set (FileStatusService.fsPath u) status m
                  | None => m
                  end) uris result)
  = if existsb (fun u => String.eqb (FileStatusService.fsPath u) k) uris
    then match FileStatusService.fresh now (JsMap.get k cache) with
         | Some status => Some status
         | None => JsMap.get k result
         end
    else JsMap.get k result.
Proof.
  induction uris as [|u uris IH] using rev_ind; [reflexivity|].
  rewrite fold_left_app, existsb_app. cbn [fold_left existsb].
  rewrite orb_false_r.
  destruct (String.eqb (FileStatusService.fsPath u) k) eqn:E.
  - apply String.eqb_eq in E. subst k. rewrite orb_true_r.
    destruct (FileStatusService.fresh now
                (JsMap.get (FileStatusService.fsPath u) cache)) as [s|] eqn:F.
    + apply get_set_same.
    + rewrite IH. now destruct (existsb _ uris).
  - rewrite orb_false_r.
    destruct (FileStatusService.fresh now
                (JsMap.get (FileStatusService.fsPath u) cache)) as [s|] eqn:F;
      [|exact IH].
    rewrite get_set_other; [exact IH|].
    intros ->. now rewrite String.eqb_refl in E.
Qed.

Lemma mergeBatch_fold later batch result cache :
  FileStatusService.mergeBatch later batch (result, cache)
  = (fold_left (fun m e => JsMap.set (fst e) (snd e) m) batch result,
     fold_left (fun m e => JsMap.set (fst e)
                             (FileStatusService.mkCacheEntry (snd e) later) m)
               batch cache).
Proof.
  unfold FileStatusService.mergeBatch. revert result cache.
  induction batch as [|e batch IH]; intros result cache; simpl;
    [reflexivity | apply IH].
Qed.

Lemma get_not_In {V : Type} k (m : JsMap.t V) :
  ~ In k (JsMap.keys m) -> JsMap.get k m = None.
Proof.
  unfold JsMap.keys. induction m as [|[k' v'] m IH]; simpl; [reflexivity|].
  intros H. destruct (String.eqb k' k) eqn:E.
  - apply String.eqb_eq in E. tauto.
  - apply IH. tauto.
Qed.

Lemma get_In_keys {V : Type} k (v : V) (m : JsMap.t V) :
  JsMap.get k m = Some v -> In k (JsMap.keys m).
Proof.
  unfold JsMap.keys. induction m as [|[k' v'] m IH]; simpl; [discriminate|].
  destruct (String.eqb k' k) eqn:E.
  - apply String.eqb_eq in E. now left.
  - intros H. right. now apply IH.
Qed.

Lemma entries_get {V W : Type} (h : V -> W) (batch : JsMap.t V)
    (m0 : JsMap.t W) (k : string) :
  NoDup (JsMap.keys batch) ->
  JsMap.get k (fold_left (fun m e => JsMap.set (fst e) (h (snd e)) m) batch m0)
  = match JsMap.get k batch with
    | Some v => Some (h v)
    | None => JsMap.get k m0
    end.
Proof.
  intros Hnd. rewrite fold_set_get.
  destruct (find (fun e => String.eqb (fst e) k) (rev batch)) as [[k' v]|] eqn:F.
  - apply find_some in F as [HIn E]. apply in_rev in HIn.
    apply String.eqb_eq in E. simpl in E. subst k'. simpl.
    assert (G : JsMap.get k batch = Some v).
    { clear m0. unfold JsMap.keys in Hnd.
      induction batch as [|[k1 v1] batch IH]; [contradiction|].
      simpl in *. inversion Hnd as [|? ? Hk Hrest]; subst.
      destruct HIn as [E | HIn].
      - injection E as -> ->. now rewrite String.eqb_refl.
      - destruct (String.eqb k1 k) eqn:E1; [|now apply IH].
        apply String.eqb_eq in E1. subst k1. exfalso. apply Hk.
        apply in_map_iff. now exists (k, v). }
    now rewrite G.
  - destruct (JsMap.get k batch) as [v|] eqn:G; [|reflexivity].
    exfalso.
    assert (HIn : In (k, v) batch).
    { clear F Hnd m0. induction batch as [|[k1 v1] batch IH]; [discriminate|].
      simpl in G. destruct (String.eqb k1 k) eqn:E1.
      - apply String.eqb_eq in E1. injection G as ->. subst. now left.
      - right. now apply IH. }
    apply in_rev in HIn. pose proof (find_none _ _ F (k, v) HIn) as Hn.
    simpl in Hn. now rewrite String.eqb_refl in Hn.
Qed.

Lemma NoDup_keys_fold_set {A V : Type} (key : A -> string) (val : A -> V)
    (xs : list A) (m0 : JsMap.t V) :
  NoDup (JsMap.keys m0) ->
  NoDup (JsMap.keys (fold_left (fun m x => JsMap.set (key x) (val x) m) xs m0)).
Proof.
  revert m0. induction xs as [|x xs IH]; intros m0 H; simpl; [assumption|].
  apply IH. now apply NoDup_keys_set.
Qed.

(** X26: what [getMultipleFileStatus] answers.  When requested uris with the
    same path are the same uri, the result has an entry for every requested
    file: the cached status where the cache has a fresh one, and else the
    status of the batch detection, which is then cached too.  The batch
    detection is [detectFileStatus], except that with the Git extension
    active a file in no repository known to it is reported Clean without
    asking the Git provider, unlike [getFileStatus]. *)
Theorem getMultipleFileStatus_answers_every_file
    (backend : FileStatusService.Backend) (now later : Z)
    (uris : list FileStatusService.Uri) (cache : FileStatusService.StatusCache)
    (u : FileStatusService.Uri) :
  pathDeterminesUri uris ->
  In u uris ->
  let answer := FileStatusService.getMultipleFileStatus backend now later
                  uris cache in
  JsMap.get (FileStatusService.fsPath u) (fst answer)
  = Some (match FileStatusService.getCachedStatus now u cache with
          | Some status => status
          | None => batchStatus backend u
          end)
  /\ (FileStatusService.getCachedStatus now u cache = None ->
      JsMap.get (FileStatusService.fsPath u) (snd answer)
      = Some (FileStatusService.mkCacheEntry (batchStatus backend u) later))
  /\ (FileStatusService.getCachedStatus now u cache = None ->
      FileStatusService.gitExtensionActive backend = true ->
      FileStatusService.getRepository backend (FileStatusService.fsPath u) = None ->
      JsMap.get (FileStatusService.fsPath u) (fst answer)
      = Some FileStatusService.Clean).
Proof.
  intros Hdet HIn answer.
  unfold FileStatusService.getCachedStatus.
  set (notFresh := fun u : FileStatusService.Uri =>
         match FileStatusService.fresh now
                 (JsMap.get (FileStatusService.fsPath u) cache) with
         | Some _ => false
         | None => true
         end).
  assert (Hex : existsb (fun v => String.eqb (FileStatusService.fsPath v)
                                             (FileStatusService.fsPath u)) uris
                = true).
  { apply existsb_exists. exists u. split; [assumption | apply String.eqb_refl]. }
  assert (Hanswer :
            JsMap.get (FileStatusService.fsPath u) (fst answer)
            = Some (match FileStatusService.fresh now
                            (JsMap.get (FileStatusService.fsPath u) cache) with
                    | Some status => status
                    | None => batchStatus backend u
                    end)
            /\ (FileStatusService.fresh now
                  (JsMap.get (FileStatusService.fsPath u) cache) = None ->
                JsMap.get (FileStatusService.fsPath u) (snd answer)
                = Some (FileStatusService.mkCacheEntry (batchStatus backend u)
                          later))).
  { subst answer.
    unfold FileStatusService.getMultipleFileStatus,
      FileStatusService.partitionCached.
    rewrite partitionCached_fold. cbn [app].
    fold notFresh.
    destruct (Nat.ltb 0 (length (filter notFresh uris))) eqn:Hlen.
    - rewrite mergeBatch_fold, batchDetectFileStatus_fold. cbn [fst snd].
      assert (Hnd : NoDup (JsMap.keys
                (fold_left (fun m v => JsMap.set (FileStatusService.fsPath v)
                                         (batchStatus backend v) m)
                           (filter notFresh uris) []))).
      { apply NoDup_keys_fold_set. constructor. }
      rewrite (entries_get (fun s => s) _ _ _ Hnd).
      rewrite (entries_get (fun s => FileStatusService.mkCacheEntry s later)
                 _ _ _ Hnd).
      rewrite cached_part_get, Hex.
      destruct (FileStatusService.fresh now
                  (JsMap.get (FileStatusService.fsPath u) cache)) as [s|] eqn:F.
      + rewrite fold_set_get_out.
        * split; [reflexivity | discriminate].
        * intros v Hv E. apply filter_In in Hv as [_ Hv].
          unfold notFresh in Hv. rewrite E, F in Hv. discriminate.
      + rewrite (fold_set_get_In FileStatusService.fsPath (batchStatus backend)).
        * split; [reflexivity | reflexivity].
        * intros v Hv E. apply filter_In in Hv as [Hv _].
          now rewrite (Hdet v u Hv HIn E).
        * apply filter_In. split; [assumption|]. unfold notFresh. now rewrite F.
    - cbn [fst snd]. rewrite cached_part_get, Hex.
      destruct (FileStatusService.fresh now
                  (JsMap.get (FileStatusService.fsPath u) cache)) as [s|] eqn:F.
      + split; [reflexivity | discriminate].
      + exfalso. apply Nat.ltb_ge in Hlen.
        assert (Hu : In u (filter notFresh uris)).
        { apply filter_In. split; [assumption|]. unfold notFresh. now rewrite F. }
        destruct (filter notFresh uris); [contradiction | simpl in Hlen; lia]. }
  destruct Hanswer as [Hfst Hsnd].
  split; [exact Hfst|]. split; [exact Hsnd|].
  intros F Hactive Hrepo. rewrite Hfst, F.
  unfold batchStatus. now rewrite Hactive, Hrepo.
Qed.

Lemma getMultipleFileStatus_answers_every_file_witness :
  JsMap.get "/w/a.ts"
    (fst (FileStatusService.getMultipleFileStatus
            (FileStatusService.mkBackend true (fun _ => None)
               (Ok Sample.mergeStatus))
            100 101
            [FileStatusService.mkUri "/w/a.ts" "a.ts" true;
             FileStatusService.mkUri "/w/b.ts" "b.ts" true] []))
  = Some FileStatusService.Clean.
Proof.
  destruct (getMultipleFileStatus_answers_every_file
              (FileStatusService.mkBackend true (fun _ => None)
                 (Ok Sample.mergeStatus))
              100 101
              [FileStatusService.mkUri "/w/a.ts" "a.ts" true;
               FileStatusService.mkUri "/w/b.ts" "b.ts" true] []
              (FileStatusService.mkUri "/w/a.ts" "a.ts" true))
    as [_ [_ Hclean]].
  - intros x y [<- | [<- | []]] [<- | [<- | []]] E;
      solve [reflexivity | discriminate E].
  - now left.
  - exact (Hclean eq_refl eq_refl eq_refl).
Defined.

(** ** What a status allows *)

(** X27: detection never answers Ignored, and answers Clean for a file
    outside every workspace folder; so [isTracked] is false exactly for
    untracked files.  For every status, a file that can be reverted can be
    staged, a file that can be staged cannot be unstaged, and a file that
    can be reverted or unstaged has changes and is tracked. *)
Theorem detected_status_and_what_it_allows
    (backend : FileStatusService.Backend) (uri : FileStatusService.Uri)
    (status : FileStatusService.FileStatus) :
  FileStatusService.detect backend uri <> FileStatusService.Ignored
  /\ (FileStatusService.inWorkspaceFolder uri = false ->
      FileStatusService.detect backend uri = FileStatusService.Clean)
  /\ FileStatusService.isTracked (FileStatusService.detect backend uri)
     = negb (FileStatusService.FileStatus_eqb
               (FileStatusService.detect backend uri) FileStatusService.Untracked)
  /\ (FileStatusService.canRevert status = true ->
      FileStatusService.canStage status = true)
  /\ (FileStatusService.canStage status = true ->
      FileStatusService.canUnstage status = false)
  /\ (FileStatusService.canRevert status = true
      \/ FileStatusService.canUnstage status = true ->
      FileStatusService.hasChanges status = true
      /\ FileStatusService.isTracked status = true).
Proof.
  assert (H : FileStatusService.detect backend uri <> FileStatusService.Ignored).
  { unfold FileStatusService.detect, FileStatusService.detectFileStatus.
    destruct (FileStatusService.inWorkspaceFolder uri); cbn [negb];
      [|discriminate].
    destruct (if FileStatusService.gitExtensionActive backend
              then FileStatusService.getRepository backend
                     (FileStatusService.fsPath uri)
              else None) as [state|].
    - unfold FileStatusService.detectWithGitExtension.
      destruct (includes _ (FileStatusService.mergeChanges state));
        [discriminate|].
      destruct (includes _ (FileStatusService.indexChanges state));
        [discriminate|].
      destruct (includes _ (FileStatusService.untrackedChanges state));
        [discriminate|].
      destruct (find _ (FileStatusService.workingTreeChanges state))
        as [[p code]|].
      + cbn [snd].
        do 8 (destruct code as [|code]; try discriminate).
      + unfold FileStatusService.detectStatusWithGitProvider.
        destruct (FileStatusService.getStatus backend) as [st|msg];
          [|discriminate].
        repeat match goal with
               | |- context [if ?c then _ else _] => destruct c; try discriminate
               end.
    - unfold FileStatusService.detectStatusWithGitProvider.
      destruct (FileStatusService.getStatus backend) as [st|msg];
        [|discriminate].
      repeat match goal with
             | |- context [if ?c then _ else _] => destruct c; try discriminate
             end. }
  split; [exact H|]. split; [|split].
  - intros Hout. unfold FileStatusService.detect,
      FileStatusService.detectFileStatus. now rewrite Hout.
  - destruct (FileStatusService.detect backend uri); try reflexivity.
    now contradiction H.
  - destruct status; cbn; intuition congruence.
Qed.

(** ** Refreshing the manager's default changelist *)

Lemma selected_of_unselected {A : Type} (mk : A -> FileChange.t) (xs : list A) :
  (forall x, FileChange.isSelected (mk x) = false) ->
  filter FileChange.isSelected (map mk xs) = [].
Proof.
  intros H. induction xs as [|x xs IH]; simpl; [reflexivity|].
  now rewrite H.
Qed.

Lemma filter_app_nil {A : Type} (p : A -> bool) (l1 l2 : list A) :
  filter p l1 = [] -> filter p l2 = [] -> filter p (l1 ++ l2) = [].
Proof. intros H1 H2. now rewrite filter_app, H1, H2. Qed.

Lemma fileChangesOf_unselected ws rel status :
  filter FileChange.isSelected (ChangeListManager.fileChangesOf ws rel status) = [].
Proof.
  unfold ChangeListManager.fileChangesOf.
  repeat apply filter_app_nil; apply selected_of_unselected; reflexivity.
Qed.

Lemma fileChangesOf_paths ws rel status :
  map FileChange.path (ChangeListManager.fileChangesOf ws rel status)
  = GitProvider.modified status ++ GitProvider.created status
    ++ GitProvider.deleted status ++ GitProvider.renamed status
    ++ GitProvider.conflicted status ++ GitProvider.untracked status.
Proof.
  unfold ChangeListManager.fileChangesOf, GitProvider.untracked.
  rewrite !map_app, !map_map. cbn [ChangeListManager.createFileChange
                                   FileChange.path].
  now rewrite !map_id.
Qed.

(** X28: [refresh] rebuilds the default changelist from the Git status and
    drops the selection.  When [getStatus] succeeds, the default changelist
    keeps its id, name and flags, its files are the paths of the status
    buckets in the order modified, created, deleted, renamed, conflicted,
    untracked (a path in two buckets is listed twice), none of them is
    selected whatever was selected before, the other changelists are
    untouched and one change event is fired.  When [getStatus] throws,
    nothing changes. *)
Theorem refresh_rebuilds_default_and_drops_selection
    (hasWorkspaceFolder : bool) (asRelativePath : string -> string) (now : Z)
    (status : GitProvider.IGitStatus) (m : ChangeListManager.t)
    (defaultChangeList : Changelist.t) :
  ChangeListManager.getChangeList "default" m = Some defaultChangeList ->
  let m' := ChangeListManager.refresh hasWorkspaceFolder asRelativePath now
              (Ok status) m in
  (exists updated,
      ChangeListManager.getChangeList "default" m' = Some updated
      /\ Changelist.id updated = Changelist.id defaultChangeList
      /\ Changelist.name updated = Changelist.name defaultChangeList
      /\ Changelist.isDefault updated = Changelist.isDefault defaultChangeList
      /\ Changelist.isActive updated = Changelist.isActive defaultChangeList
      /\ map FileChange.path (Changelist.files updated)
         = GitProvider.modified status ++ GitProvider.created status
           ++ GitProvider.deleted status ++ GitProvider.renamed status
           ++ GitProvider.conflicted status ++ GitProvider.untracked status)
  /\ ChangeListManager.getSelectedFilePaths "default" m' = []
  /\ ChangeListManager.hasSelectedFiles "default" m' = false
  /\ (forall id, id <> "default" ->
        ChangeListManager.getChangeList id m' = ChangeListManager.getChangeList id m)
  /\ ChangeListManager.changeEvents m' = S (ChangeListManager.changeEvents m)
  /\ (forall msg,
        ChangeListManager.refresh hasWorkspaceFolder asRelativePath now
          (Throw msg) m = m).
Proof.
  intros G m'. subst m'. unfold ChangeListManager.getChangeList in *.
  unfold ChangeListManager.refresh, ChangeListManager.getSelectedFilePaths,
    ChangeListManager.hasSelectedFiles. rewrite G.
  cbn [ChangeListManager.changeLists ChangeListManager.changeEvents].
  rewrite get_set_same.
  unfold Changelist.getSelectedFiles, Changelist.hasSelectedFiles,
    Changelist.selectedFileCount, Changelist.selectedFiles.
  cbn [Changelist.files Changelist.id Changelist.name Changelist.isDefault
       Changelist.isActive].
  rewrite fileChangesOf_unselected.
  split.
  - eexists. split; [reflexivity|].
    cbn [Changelist.files Changelist.id Changelist.name Changelist.isDefault
         Changelist.isActive].
    repeat (split; [reflexivity|]). apply fileChangesOf_paths.
  - split; [reflexivity|]. split; [reflexivity|]. split.
    + intros id Hid. now apply get_set_other.
    + split; reflexivity.
Qed.

Lemma refresh_rebuilds_default_and_drops_selection_witness :
  ChangeListManager.getSelectedFilePaths "default" MoreSamples.manager
    = ["/w/src/a.ts"]
  /\ ChangeListManager.getSelectedFilePaths "default"
       (ChangeListManager.refresh true (fun p => p) 9
          (Ok (GitProvider.mkStatus [] [] [] [] ["/w/src/a.ts"] [] []))
          MoreSamples.manager) = [].
Proof.
  split; [reflexivity|].
  destruct (refresh_rebuilds_default_and_drops_selection true (fun p => p) 9
              (GitProvider.mkStatus [] [] [] [] ["/w/src/a.ts"] [] [])
              MoreSamples.manager Sample.featureList eq_refl)
    as [_ [Hsel _]].
  exact Hsel.
Defined.
